(** * csv_actions: a table-cleaning pipeline, embedded and verified

    The development follows [Scripts/csv_actions.py], six stages over a
    pandas [DataFrame]:

      remove_empty_rows_and_columns, strip_whitespace,
      normalize_missing_values, fix_decimal_commas,
      extract_numeric_and_unit, convert_units_to_SI.

    Modelling choices, in the order of the file:

    - Text.  A Python [str] is a [string] holding its UTF-8 bytes.  The
      character classes of the source are modelled on ASCII, and the two
      glyphs the source names (the degree sign and the micro sign) are their
      two-byte encodings.
    - Numbers.  A Python [float] is a binary64 [float]; arithmetic is the
      kernel's IEEE arithmetic, and numerals are read with correct rounding.
      Integers are carried as floats.
    - Tables.  A [DataFrame] is an ordered list of named [Series]; a
      [Series] has a [dtype] and a list of cells; a cell is the missing
      marker [NA], a text or a number (the number may be NaN, which is
      missing as well).
    - Errors.  A stage that can raise returns an [option].
    - Sharing.  Each stage is also given over a store of tables, where
      [df.copy()] allocates and the assignments of the source write in
      place. *)

From Stdlib Require Import ZArith Floats Ascii String.
From stdpp Require Import base option list strings gmap.

Set Warnings "-inexact-float".
Set Default Proof Using "Type".

(** ** Text *)

Module Text.

Definition code (c : ascii) : N := N_of_ascii c.

Definition between (lo hi : N) (c : ascii) : bool :=
  ((lo <=? code c) && (code c <=? hi))%N.

(** [str.isspace] on ASCII: tab, line feed, vertical tab, form feed,
    carriage return, the four separators 28..31 and the space. *)
Definition is_space (c : ascii) : bool := between 9 13 c || between 28 32 c.

Definition is_digit (c : ascii) : bool := between 48 57 c.
Definition is_upper (c : ascii) : bool := between 65 90 c.
Definition is_lower (c : ascii) : bool := between 97 122 c.
Definition is_letter (c : ascii) : bool := is_upper c || is_lower c.

Definition to_lower (c : ascii) : ascii :=
  if is_upper c then ascii_of_N (code c + 32) else c.

(** [s.lower()] *)
Fixpoint lower (s : string) : string :=
  match s with
  | "" => ""
  | String c s' => String (to_lower c) (lower s')
  end.

Fixpoint all (p : ascii → bool) (s : string) : bool :=
  match s with
  | "" => true
  | String c s' => p c && all p s'
  end.

(** [s.lstrip()], [s.rstrip()], [s.strip()] *)
Fixpoint lstrip (s : string) : string :=
  match s with
  | "" => ""
  | String c s' => if is_space c then lstrip s' else s
  end.

Definition rstrip (s : string) : string :=
  String.rev (lstrip (String.rev s)).

Definition strip (s : string) : string := rstrip (lstrip s).

(** The longest prefix of [s] whose characters satisfy [p], and the rest. *)
Fixpoint span (p : ascii → bool) (s : string) : string * string :=
  match s with
  | "" => ("", "")
  | String c s' =>
      if p c then let '(a, b) := span p s' in (String c a, b) else ("", s)
  end.

Definition chars (s : string) : list ascii := list_ascii_of_string s.
Definition of_chars (l : list ascii) : string := string_of_list_ascii l.

(** [s.startswith(p)], [s.endswith(p)] *)
Definition startswith (s p : string) : bool :=
  bool_decide (take (String.length p) (chars s) = chars p).

Definition endswith (s p : string) : bool :=
  bool_decide (String.length p ≤ String.length s) &&
  bool_decide (drop (String.length s - String.length p) (chars s) = chars p).

(** [s[:-k]] for a [k] no longer than [s] *)
Definition drop_end (k : nat) (s : string) : string :=
  of_chars (take (String.length s - k) (chars s)).

(** [s.replace(old, new)] for a non-empty [old]: left to right, without
    overlap.  The fuel is the length of [s], which the scan never exceeds. *)
Fixpoint replace_from (fuel : nat) (old new s : string) : string :=
  match fuel with
  | 0 => s
  | S fuel' =>
      match s with
      | "" => ""
      | String c s' =>
          if startswith s old
          then new +:+ replace_from fuel' old new
                         (of_chars (drop (String.length old) (chars s)))
          else String c (replace_from fuel' old new s')
      end
  end.

Definition replace (old new s : string) : string :=
  replace_from (String.length s) old new s.

Fixpoint zeros (n : nat) : string :=
  match n with
  | 0 => ""
  | S n' => String "0" (zeros n')
  end.

End Text.

(** ** Numbers

    [float(s)] and [pandas.to_numeric] on a text, and [repr] of a float.
    The numerals read are the ones both readers accept: blanks around, a
    sign, decimal digits with an optional point, an optional exponent, and
    the names inf, infinity and nan in any case.  Other spellings (digit
    groups with underscores, for instance) are not modelled and do not
    read. *)

Module Numeral.

Definition digit_value (c : ascii) : Z := Z.of_N (Text.code c) - 48.

Fixpoint digits_value (acc : Z) (s : string) : Z :=
  match s with
  | "" => acc
  | String c s' => digits_value (10 * acc + digit_value c) s'
  end.

(** The binary64 nearest to [m * 10^e], ties to even, with the sign [neg],
    for [0 <= m].  A negative [e] divides: the quotient keeps more than 53
    bits, so what is left over only tells an exact result from an inexact
    one. *)
Definition nearest (neg : bool) (m e : Z) : float :=
  if (m =? 0)%Z then (if neg then PrimFloat.neg_zero else PrimFloat.zero)
  else if (0 <=? e)%Z then
    SF2Prim (binary_normalize prec emax
               ((if neg then - m else m) * 10 ^ e) 0 false)
  else
    let d := (10 ^ (- e))%Z in
    let k := (Z.log2 d + 64)%Z in
    let '(q, r) := Z.div_eucl (m * 2 ^ k) d in
    SF2Prim (binary_round_aux prec emax neg q (- k)
               (if (r =? 0)%Z then loc_Exact else loc_Inexact Lt)).

Definition sign_of (s : string) : bool * string :=
  match s with
  | String "-" r => (true, r)
  | String "+" r => (false, r)
  | _ => (false, s)
  end.

Definition exponent_of (s : string) : option Z :=
  match s with
  | "" => Some 0%Z
  | String c r =>
      if bool_decide (c = "e"%char ∨ c = "E"%char) then
        let '(neg, r') := sign_of r in
        let '(ds, rest) := Text.span Text.is_digit r' in
        if bool_decide (ds ≠ "" ∧ rest = "")
        then Some (if neg then - digits_value 0 ds else digits_value 0 ds)%Z
        else None
      else None
  end.

Definition decimal (neg : bool) (s : string) : option float :=
  let '(ip, r1) := Text.span Text.is_digit s in
  let '(fp, r2) :=
    match r1 with
    | String "." r => Text.span Text.is_digit r
    | _ => ("", r1)
    end in
  if bool_decide (ip = "" ∧ fp = "") then None
  else
    e ← exponent_of r2;
    Some (nearest neg (digits_value 0 (ip +:+ fp))
            (e - Z.of_nat (String.length fp))).

Definition float_of_string (s : string) : option float :=
  let '(neg, body) := sign_of (Text.strip s) in
  let name := Text.lower body in
  if bool_decide (name = "inf" ∨ name = "infinity")
  then Some (if neg then PrimFloat.neg_infinity else PrimFloat.infinity)
  else if bool_decide (name = "nan") then Some PrimFloat.nan
  else decimal neg body.

(** [repr(x)]: the shortest digits that read back as [x], in positional
    notation when the decimal point falls within -4 < point <= 16 and in
    exponent notation otherwise. *)

Fixpoint string_of_digits (fuel : nat) (n : Z) (acc : string) : string :=
  match fuel with
  | 0 => acc
  | S fuel' =>
      let acc' := String (ascii_of_N (Z.to_N (n mod 10 + 48))) acc in
      if (n <? 10)%Z then acc' else string_of_digits fuel' (n / 10) acc'
  end.

Definition string_of_Z (n : Z) : string :=
  string_of_digits (S (Z.to_nat (Z.log2 n))) n "".

(** [num/den < 10^k] *)
Definition below_pow10 (num den k : Z) : bool :=
  if (0 <=? k)%Z then (num <? den * 10 ^ k)%Z
  else (num * 10 ^ (- k) <? den)%Z.

(** The decimal point of [num/den]: the least [k] with [num/den < 10^k],
    found from the binary logarithms. *)
Definition decimal_point (num den : Z) : Z :=
  let est := (((Z.log2 num - Z.log2 den - 1) * 30103) / 100000 - 1)%Z in
  default est
    (find (below_pow10 num den) ((λ i, est + Z.of_nat i)%Z <$> seq 0 8)).

(** The integer [lo] with [lo * 10^(k-p) <= num/den < (lo+1) * 10^(k-p)],
    and whether [lo + 1] is the nearer of the two (the even one on a tie). *)
Definition candidates (num den k p : Z) : Z * bool :=
  let '(n, d) := if (k <=? p)%Z then (num * 10 ^ (p - k), den)%Z
                 else (num, den * 10 ^ (k - p))%Z in
  let lo := (n / d)%Z in
  let up := match (2 * n ?= (2 * lo + 1) * d)%Z with
            | Lt => false
            | Gt => true
            | Eq => Z.odd lo
            end in
  (lo, up).

(** With [p] digits: the nearer candidate that reads back as [x], if any. *)
Definition digits_at (x : float) (num den k p : Z) : option Z :=
  let '(lo, up) := candidates num den k p in
  let ok c := PrimFloat.eqb (nearest false c (k - p)) x in
  let first := if up then (lo + 1)%Z else lo in
  let second := if up then lo else (lo + 1)%Z in
  if ok first then Some first else if ok second then Some second else None.

(** The shortest digits [c] and exponent [e] with [c * 10^e] reading back
    as [x], for a positive finite [x = num/den]; 17 digits always do. *)
Definition shortest (x : float) (num den : Z) : Z * Z :=
  let k := decimal_point num den in
  let found :=
    list_find (λ p, is_Some (digits_at x num den k p)) (Z.of_nat <$> seq 1 17) in
  match found with
  | Some (_, p) => (default 0%Z (digits_at x num den k p), (k - p)%Z)
  | None => (0%Z, 0%Z)
  end.

Fixpoint strip_zeros (fuel : nat) (c e : Z) : Z * Z :=
  match fuel with
  | 0 => (c, e)
  | S fuel' =>
      if (c mod 10 =? 0)%Z then strip_zeros fuel' (c / 10)%Z (e + 1)%Z
      else (c, e)
  end.

Definition format_short (c e : Z) : string :=
  let '(c, e) := strip_zeros 20 c e in
  let ds := string_of_Z c in
  let n := Z.of_nat (String.length ds) in
  let point := (n + e)%Z in
  if bool_decide (point ≤ -4 ∨ 16 < point)%Z then
    let x := (point - 1)%Z in
    let mantissa :=
      match ds with
      | String d "" => String d ""
      | String d rest => String d (String "." rest)
      | "" => ""
      end in
    mantissa +:+ "e" +:+ (if (x <? 0)%Z then "-" else "+")
      +:+ (if (Z.abs x <? 10)%Z then "0" else "") +:+ string_of_Z (Z.abs x)
  else if (point <=? 0)%Z then "0." +:+ Text.zeros (Z.to_nat (- point)) +:+ ds
  else if (point <? n)%Z then
    String.substring 0 (Z.to_nat point) ds +:+ "." +:+
    String.substring (Z.to_nat point) (Z.to_nat (n - point)) ds
  else ds +:+ Text.zeros (Z.to_nat (point - n)) +:+ ".0".

Definition float_repr (f : float) : string :=
  match Prim2SF f with
  | S754_nan => "nan"
  | S754_infinity s => if s then "-inf" else "inf"
  | S754_zero s => if s then "-0.0" else "0.0"
  | S754_finite s m e =>
      let '(num, den) := if (0 <=? e)%Z then (Z.pos m * 2 ^ e, 1)%Z
                         else (Z.pos m, 2 ^ (- e))%Z in
      let '(c, e10) := shortest (abs f) num den in
      (if s then "-" else "") +:+ format_short c e10
  end.

End Numeral.

(** ** Cells, series and tables *)

(** A cell: [pd.NA], a [str] or a [float] (NaN included). *)
Inductive cell :=
  | NA
  | Str (s : string)
  | Num (f : float).

(** [pd.isna(c)] *)
Definition isna (c : cell) : bool :=
  match c with
  | NA => true
  | Str _ => false
  | Num f => PrimFloat.is_nan f
  end.

(** [np.nan], the missing marker of numeric and of [.str] results *)
Definition NaN : cell := Num PrimFloat.nan.

(** [str(c)] *)
Definition py_str (c : cell) : string :=
  match c with
  | NA => "<NA>"
  | Str s => s
  | Num f => Numeral.float_repr f
  end.

(** [float(c)]: [None] stands for the TypeError or ValueError raised. *)
Definition py_float (c : cell) : option float :=
  match c with
  | NA => None
  | Str s => Numeral.float_of_string s
  | Num f => Some f
  end.

Inductive Dtype := object | float64.

Global Instance Dtype_eq_dec : EqDecision Dtype.
Proof. solve_decision. Defined.

(** A series of dtype object holds any cells; a series of dtype float64
    holds floats, and NaN marks what is missing there. *)
Inductive Series :=
  | Object (cells : list cell)
  | Float64 (numbers : list float).

(** [s.dtype] *)
Definition dtype (s : Series) : Dtype :=
  match s with
  | Object _ => object
  | Float64 _ => float64
  end.

(** The cells of [s], row after row. *)
Definition values (s : Series) : list cell :=
  match s with
  | Object cells => cells
  | Float64 numbers => Num <$> numbers
  end.

Abbreviation DataFrame := (list (string * Series)).

(** [df.columns] *)
Definition columns (df : DataFrame) : list string := df.*1.

(** [df[col]]: one series when exactly one column bears the label; an
    absent label raises, and a label borne by several columns yields a
    table, on which the uses below ([.dtype], unpacking a row in two)
    raise. *)
Definition getitem (df : DataFrame) (col : string) : option Series :=
  match filter (λ c, c.1 = col) df with
  | [(_, s)] => Some s
  | _ => None
  end.

(** An in-place change of the column(s) labelled [col]. *)
Definition update (f : Series → Series) (col : string) (df : DataFrame)
    : DataFrame :=
  (λ c, (c.1, if bool_decide (c.1 = col) then f c.2 else c.2)) <$> df.

(** [df[col] = s]: overwrites the column in its place, or appends it. *)
Definition setitem (df : DataFrame) (col : string) (s : Series) : DataFrame :=
  if bool_decide (col ∈ columns df) then update (λ _, s) col df
  else df ++ [(col, s)].

(** Writing one cell: a series of floats that receives anything else than a
    float becomes an object series. *)
Definition write (idx : nat) (v : cell) (s : Series) : Series :=
  match s, v with
  | Float64 numbers, Num f => Float64 (<[idx := f]> numbers)
  | _, _ => Object (<[idx := v]> (values s))
  end.

(** [df.at[idx, col] = v] *)
Definition at_set (df : DataFrame) (idx : nat) (col : string) (v : cell)
    : DataFrame :=
  update (write idx v) col df.

(** [df[order]]: the listed columns, in the order of the list. *)
Definition select (df : DataFrame) (order : list string) : option DataFrame :=
  mapM (λ col, s ← getitem df col; Some (col, s)) order.

(** [for x in xs: body], where the body may raise. *)
Fixpoint for_each {A S : Type} (xs : list A) (body : S → A → option S)
    (s : S) : option S :=
  match xs with
  | [] => Some s
  | x :: xs' => s' ← body s x; for_each xs' body s'
  end.

(** [s.astype(str)] *)
Definition astype_str (s : Series) : Series :=
  Object ((λ c, Str (py_str c)) <$> values s).

(** The [.str] accessor of an object series: refused (AttributeError) when
    the cells that are not missing are all numbers; otherwise a method [f]
    maps each text and yields NaN for every other cell. *)
Definition is_text (c : cell) : bool :=
  match c with
  | Str _ => true
  | _ => false
  end.

Definition str_accepts (s : Series) : bool :=
  match s with
  | Object cells =>
      let present := filter (λ c, isna c = false) cells in
      bool_decide (present = []) || existsb is_text present
  | Float64 _ => false
  end.

Definition str_map (f : string → cell) (s : Series) : option Series :=
  if str_accepts s then
    Some (Object ((λ c, match c with
                        | Str t => f t
                        | _ => NaN
                        end) <$> values s))
  else None.

(** [pd.to_numeric(s, errors=...)] *)
Inductive errors := ignore | coerce.

Definition numeric_of (c : cell) : option float :=
  match c with
  | NA => Some PrimFloat.nan
  | Str t => Numeral.float_of_string t
  | Num f => Some f
  end.

Definition to_numeric (s : Series) (e : errors) : Series :=
  match s with
  | Float64 _ => s
  | Object cells =>
      match e with
      | coerce => Float64 ((λ c, default PrimFloat.nan (numeric_of c)) <$> cells)
      | ignore =>
          match mapM numeric_of cells with
          | Some numbers => Float64 numbers
          | None => s
          end
      end
  end.

(** The regular expressions of the source, as [re.search] finds them in a
    text.  [Blank] is [^\s*$]; [Exact i w] is [^w$], under [(?i)] when [i]
    is set: [$] also matches before a final line feed. *)
Inductive pattern :=
  | Blank
  | Exact (ignore_case : bool) (word : string).

Definition line_feed : string := String (ascii_of_N 10) "".

Definition search (p : pattern) (s : string) : bool :=
  match p with
  | Blank => Text.all Text.is_space s
  | Exact i w =>
      let t := if i then Text.lower s else s in
      bool_decide (t = w ∨ t = w +:+ line_feed)
  end.

(** [df.replace(p, pd.NA, regex=True)]: in the object columns, every text
    in which the pattern is found becomes [pd.NA]. *)
Definition replace_cell (p : pattern) (c : cell) : cell :=
  match c with
  | Str t => if search p t then NA else c
  | _ => c
  end.

Definition replace_regex (p : pattern) (df : DataFrame) : DataFrame :=
  (λ c, (c.1, match c.2 with
              | Object cells => Object (replace_cell p <$> cells)
              | Float64 _ => c.2
              end)) <$> df.

(** ** The stages *)

(** *** remove_empty_rows_and_columns

    The two counts the source prints are not part of the table and are left
    out. *)

Definition n_rows (df : DataFrame) : nat :=
  match df with
  | [] => 0
  | c :: _ => length (values c.2)
  end.

(** [df.isna().all(axis=1)] and [df.isna().all(axis=0)] *)
Definition isna_all_rows (df : DataFrame) : list bool :=
  (λ i, forallb (λ c, from_option isna true (values c.2 !! i)) df)
  <$> seq 0 (n_rows df).

Definition isna_all_columns (df : DataFrame) : list bool :=
  (λ c, forallb isna (values c.2)) <$> df.

(** The elements of [l] where the mask holds. *)
Definition masked {A : Type} (mask : list bool) (l : list A) : list A :=
  zip mask l ≫= λ bx : bool * A, if bx.1 then [bx.2] else [].

(** [df.loc[rows, cols]] with Boolean masks *)
Definition loc (df : DataFrame) (rows cols : list bool) : DataFrame :=
  (λ c, (c.1, match c.2 with
              | Object cells => Object (masked rows cells)
              | Float64 numbers => Float64 (masked rows numbers)
              end)) <$> masked cols df.

Definition remove_empty_rows_and_columns (df : DataFrame) : DataFrame :=
  let df_clean := replace_regex Blank df in
  let empty_row_mask := isna_all_rows df_clean in
  let empty_col_mask := isna_all_columns df_clean in
  loc df_clean (negb <$> empty_row_mask) (negb <$> empty_col_mask).

(** *** strip_whitespace *)

(** [df.columns = names] *)
Definition set_columns (names : list string) (df : DataFrame) : DataFrame :=
  zip_with (λ n c, (n, c.2)) names df.

(** The body of the loop over the columns. *)
Definition strip_column (df_clean : DataFrame) (col : string)
    : option DataFrame :=
  s ← getitem df_clean col;
  if bool_decide (dtype s = object) then
    s' ← str_map (λ t, Str (Text.strip t)) (astype_str s);
    Some (setitem df_clean col s')
  else Some df_clean.

Definition strip_whitespace (df : DataFrame) : option DataFrame :=
  let df_clean := set_columns (Text.strip <$> columns df) df in
  for_each (columns df_clean) strip_column df_clean.

(** *** normalize_missing_values *)

Definition missing_patterns : list pattern :=
  [ Blank;
    Exact true "na";
    Exact true "n/a";
    Exact true "null";
    Exact true "none";
    Exact false "?";
    Exact false "-";
    Exact false "." ].

Definition normalize_missing_values (df : DataFrame) : DataFrame :=
  foldl (λ df_clean p, replace_regex p df_clean) df missing_patterns.

(** *** fix_decimal_commas *)

(** The substitution of a point for every comma found by the pattern
    [(?<=\d),(?=\d)], a comma with a digit before it and a digit after it.
    [before] tells whether the character before the head of [s] is a
    digit. *)
Fixpoint sub_decimal_comma (before : bool) (s : string) : string :=
  match s with
  | "" => ""
  | String c s' =>
      let after := match s' with
                   | String d _ => Text.is_digit d
                   | "" => false
                   end in
      String (if bool_decide (c = ","%char) && before && after
              then "."%char else c)
             (sub_decimal_comma (Text.is_digit c) s')
  end.

(** The body of the loop over the columns. *)
Definition fix_column (df_clean : DataFrame) (col : string)
    : option DataFrame :=
  s ← getitem df_clean col;
  if bool_decide (dtype s = object) then
    s ← str_map (λ t, Str (sub_decimal_comma false t)) s;
    let df_clean := setitem df_clean col s in
    s ← getitem df_clean col;
    Some (setitem df_clean col (to_numeric s ignore))
  else Some df_clean.

Definition fix_decimal_commas (df : DataFrame) : option DataFrame :=
  for_each (columns df) fix_column df.

(** *** extract_numeric_and_unit *)

(** The unit class [[A-Za-zµ°%]]: a letter, the percent sign, or one of the
    two glyphs (bytes 194 181 and 194 176). *)
Definition is_unit_char (c : ascii) : bool :=
  Text.is_letter c || bool_decide (c = "%"%char).

Definition is_glyph (c d : ascii) : bool :=
  bool_decide (Text.code c = 194%N) &&
  bool_decide (Text.code d = 181%N ∨ Text.code d = 176%N).

(** The longest prefix of [s] in the unit class, and the rest. *)
Fixpoint span_unit (s : string) : string * string :=
  match s with
  | "" => ("", "")
  | String c s' =>
      if is_unit_char c then
        let '(a, b) := span_unit s' in (String c a, b)
      else
        match s' with
        | String d s'' =>
            if is_glyph c d then
              let '(a, b) := span_unit s'' in (String c (String d a), b)
            else ("", s)
        | "" => ("", s)
        end
  end.

(** The two groups of the source's pattern when it is found in [s]: blanks,
    the numeral (digits, at most one point or comma, digits), blanks, the
    unit (one or more characters of the unit class), blanks, the end.  The
    classes that follow one another are disjoint, so the longest-prefix
    scan finds the one way the text can match. *)
Definition numeral_with_unit (s : string) : option (string * string) :=
  let '(whole, r) := Text.span Text.is_digit (Text.lstrip s) in
  let '(mark, r) :=
    match r with
    | String c r' =>
        if bool_decide (c = "."%char ∨ c = ","%char) then (String c "", r')
        else ("", r)
    | "" => ("", r)
    end in
  let '(fraction, r) := Text.span Text.is_digit r in
  let '(unit, r) := span_unit (Text.lstrip r) in
  if bool_decide (whole ≠ "" ∧ unit ≠ "" ∧ Text.lstrip r = "")
  then Some (whole +:+ mark +:+ fraction, unit)
  else None.

(** [s.str.extract(pattern)]: the columns 0 and 1. *)
Definition group (pick : string * string → string) (t : string) : cell :=
  from_option (λ g, Str (pick g)) NaN (numeral_with_unit t).

Definition str_extract (s : Series) : option (Series * Series) :=
  s0 ← str_map (group fst) s;
  s1 ← str_map (group snd) s;
  Some (s0, s1).

(** [not extracted.isna().all().all()] *)
Definition any_match (extracted : Series * Series) : bool :=
  negb (forallb isna (values extracted.1) && forallb isna (values extracted.2)).

(** The body of the loop over the columns: the table and the order of the
    columns so far. *)
Definition extract_column (state : DataFrame * list string) (col : string)
    : option (DataFrame * list string) :=
  let '(df_clean, new_columns_order) := state in
  s ← getitem df_clean col;
  if bool_decide (dtype s = object) then
    let series := astype_str s in
    extracted ← str_extract series;
    if any_match extracted then
      let num_col := col +:+ "_value" in
      let unit_col := col +:+ "_unit" in
      nums ← str_map (λ t, Str (Text.replace "," "." t)) extracted.1;
      let df_clean := setitem df_clean num_col (to_numeric nums coerce) in
      let df_clean := setitem df_clean unit_col extracted.2 in
      Some (df_clean, new_columns_order ++ [num_col; unit_col])
    else Some (df_clean, new_columns_order ++ [col])
  else Some (df_clean, new_columns_order ++ [col]).

Definition extract_numeric_and_unit (df : DataFrame) : option DataFrame :=
  '(df_clean, new_columns_order) ← for_each (columns df) extract_column (df, []);
  select df_clean new_columns_order.

(** *** convert_units_to_SI *)

Definition length_units : gmap string float :=
  list_to_map [("mm", 1e-3); ("cm", 1e-2); ("m", 1.0); ("km", 1e3)]%float.

Definition mass_units : gmap string float :=
  list_to_map [("mg", 1e-6); ("g", 1e-3); ("kg", 1.0); ("t", 1e3)]%float.

Definition time_units : gmap string float :=
  list_to_map [("ms", 1e-3); ("s", 1.0); ("min", 60.0); ("h", 3600.0)]%float.

Definition pressure_units : gmap string float :=
  list_to_map [("pa", 1.0); ("kpa", 1e3); ("mpa", 1e6); ("bar", 1e5);
               ("mbar", 1e2); ("atm", 101325.0); ("psi", 6894.757)]%float.

Definition force_units : gmap string float :=
  list_to_map [("n", 1.0); ("kn", 1e3)]%float.

Definition energy_units : gmap string float :=
  list_to_map [("j", 1.0); ("kj", 1e3)]%float.

(** The unit token as the tables know it. *)
Definition normalize_unit (unit : cell) : string :=
  let u := Text.strip (py_str unit) in
  let u := Text.replace "°" "deg" u in
  let u := Text.replace "µ" "u" u in
  Text.lower u.

Definition _convert_one (value unit : cell) : cell * cell :=
  if isna value || isna unit then (value, unit)
  else
    match py_float value with
    | None => (value, unit)
    | Some v =>
        let u := normalize_unit unit in
        if bool_decide (u ∈ ["degc"; "c"]) then
          (Num (v + 273.15), Str "K")
        else if bool_decide (u ∈ ["degf"; "f"]) then
          (Num ((v - 32.0) * 5.0 / 9.0 + 273.15), Str "K")
        else if bool_decide (u ∈ ["k"; "degk"]) then
          (Num v, Str "K")
        else if length_units !! u is Some k then (Num (v * k), Str "m")
        else if mass_units !! u is Some k then (Num (v * k), Str "kg")
        else if time_units !! u is Some k then (Num (v * k), Str "s")
        else if pressure_units !! u is Some k then (Num (v * k), Str "Pa")
        else if force_units !! u is Some k then (Num (v * k), Str "N")
        else if energy_units !! u is Some k then (Num (v * k), Str "J")
        else if bool_decide (u ∈ ["%"; "pct"]) then
          (Num (v / 100.0), Str "1")
        else (value, unit)
    end%float.

(** [df[[col, unit_col]].iterrows()]: the rows of the two columns as they
    are when the loop starts. *)
Definition iterrows (vals units : Series) : list (nat * (cell * cell)) :=
  imap (λ idx row, (idx, row)) (zip (values vals) (values units)).

(** The body of the loop over the rows of a pair. *)
Definition convert_row (col unit_col : string) (df_clean : DataFrame)
    (row : nat * (cell * cell)) : DataFrame :=
  let '(idx, (val, unit)) := row in
  let '(new_val, new_unit) := _convert_one val unit in
  let df_clean := at_set df_clean idx col new_val in
  at_set df_clean idx unit_col new_unit.

(** The body of the loop over the columns. *)
Definition convert_column (df_clean : DataFrame) (col : string)
    : option DataFrame :=
  if Text.endswith col "_value" then
    let base := Text.drop_end 6 col in
    let unit_col := base +:+ "_unit" in
    if bool_decide (unit_col ∈ columns df_clean) then
      vals ← getitem df_clean col;
      units ← getitem df_clean unit_col;
      let df_clean :=
        foldl (convert_row col unit_col) df_clean (iterrows vals units) in
      s ← getitem df_clean col;
      Some (setitem df_clean col (to_numeric s coerce))
    else Some df_clean
  else Some df_clean.

Definition convert_units_to_SI (df : DataFrame) : option DataFrame :=
  for_each (columns df) convert_column df.

(** ** The stages over a store of tables

    A table lives at a reference of the store.  [df.copy()] allocates; an
    assignment through [df_clean[...]], [df_clean.at[...]] or
    [df_clean.columns] writes at the reference of [df_clean]; a call that
    builds a table ([replace], [loc], a selection) allocates its result, and
    [df_clean = ...] binds the name to the new reference. *)

Abbreviation ref := nat.

Abbreviation store := (gmap ref DataFrame).

Definition M (A : Type) : Type := store → option (A * store).

Global Instance M_ret : MRet M := λ A x σ, Some (x, σ).

Global Instance M_bind : MBind M := λ A B f m σ,
  match m σ with
  | Some (x, σ') => f x σ'
  | None => None
  end.

(** A table built by an expression gets a reference of its own. *)
Definition alloc (t : DataFrame) : M ref :=
  λ σ, let r := fresh (dom σ) in Some (r, <[r := t]> σ).

Definition read (r : ref) : M DataFrame :=
  λ σ, t ← σ !! r; Some (t, σ).

(** [df.copy()] *)
Definition copy (df : ref) : M ref :=
  t ← read df; alloc t.

(** The value of an expression that may raise. *)
Definition lift {A : Type} (o : option A) : M A :=
  λ σ, x ← o; Some (x, σ).

(** Assignments into the table at [r], which may raise: the table is
    changed in place, and [f] hands back a result besides. *)
Definition modify {B : Type} (r : ref) (f : DataFrame → option (DataFrame * B))
    : M B :=
  λ σ, t ← σ !! r; '(t', b) ← f t; Some (b, <[r := t']> σ).

Definition mutate (r : ref) (f : DataFrame → option DataFrame) : M unit :=
  modify r (λ t, t' ← f t; Some (t', ())).

(** [for x in xs: body] over the store, with the local state [s]. *)
Fixpoint for_st {A S : Type} (xs : list A) (body : S → A → M S) (s : S)
    : M S :=
  match xs with
  | [] => mret s
  | x :: xs' => s' ← body s x; for_st xs' body s'
  end.

Definition remove_empty_rows_and_columns_st (df : ref) : M ref :=
  df_clean ← copy df;
  t ← read df_clean;
  df_clean ← alloc (replace_regex Blank t);
  t ← read df_clean;
  let empty_row_mask := isna_all_rows t in
  let empty_col_mask := isna_all_columns t in
  df_clean ← alloc (loc t (negb <$> empty_row_mask) (negb <$> empty_col_mask));
  mret df_clean.

Definition strip_whitespace_st (df : ref) : M ref :=
  df_clean ← copy df;
  mutate df_clean (λ t, Some (set_columns (Text.strip <$> columns t) t));;
  t ← read df_clean;
  for_st (columns t)
    (λ _ col, mutate df_clean (λ t, strip_column t col)) ();;
  mret df_clean.

Definition normalize_missing_values_st (df : ref) : M ref :=
  df_clean ← copy df;
  for_st missing_patterns
    (λ df_clean p, t ← read df_clean; alloc (replace_regex p t)) df_clean.

Definition fix_decimal_commas_st (df : ref) : M ref :=
  df_clean ← copy df;
  t ← read df_clean;
  for_st (columns t)
    (λ _ col, mutate df_clean (λ t, fix_column t col)) ();;
  mret df_clean.

Definition extract_numeric_and_unit_st (df : ref) : M ref :=
  df_clean ← copy df;
  t ← read df_clean;
  new_columns_order ←
    for_st (columns t)
      (λ new_columns_order col,
         modify df_clean (λ t, extract_column (t, new_columns_order) col))
      [];
  t ← read df_clean;
  t ← lift (select t new_columns_order);
  df_clean ← alloc t;
  mret df_clean.

Definition convert_units_to_SI_st (df : ref) : M ref :=
  df_clean ← copy df;
  t ← read df_clean;
  for_st (columns t)
    (λ _ col, mutate df_clean (λ t, convert_column t col)) ();;
  mret df_clean.

(** ** What the stages compute

    The functions of this section describe, column by column and cell by
    cell, the tables that the stages return.  The theorems of the second
    part relate them to the stages defined above. *)

(** *** Tables, one column at a time *)

(** The table whose column [n] holding [s] becomes [g n s]: same labels,
    same order. *)
Definition relabel (g : string → Series → Series) (df : DataFrame) : DataFrame :=
  (λ c, (c.1, g c.1 c.2)) <$> df.

(** *** The converter *)

(** [col[:-6] + _unit], the label of the units that go with [col] *)
Definition unit_col_of (col : string) : string := Text.drop_end 6 col +:+ "_unit".

(** What [pd.to_numeric(..., errors=coerce)] makes of one cell: its number,
    or NaN when it has none. *)
Definition coerce_cell (c : cell) : cell := Num (default PrimFloat.nan (numeric_of c)).

(** The two columns of a pair after the loop over its rows and the final
    [pd.to_numeric] of the magnitudes. *)
Definition convert_pair (vals units : Series) : Series * Series :=
  let rows := iterrows vals units in
  (to_numeric
     (foldl (λ s row, write row.1 (_convert_one row.2.1 row.2.2).1 s) vals rows)
     coerce,
   foldl (λ s row, write row.1 (_convert_one row.2.1 row.2.2).2 s) units rows).

(** The columns on which the loop over the columns acts: the label ends in
    [_value] and the label of its units is a column of the table. *)
Definition is_value_col (df : DataFrame) (col : string) : bool :=
  Text.endswith col "_value" && bool_decide (unit_col_of col ∈ columns df).

(** The column [n] of the converted table: the magnitudes of a pair, the
    units of a pair, or the column [s] as it was. *)
Definition converted (df : DataFrame) (n : string) (s : Series) : Series :=
  if is_value_col df n then
    from_option (λ units, (convert_pair s units).1) s (getitem df (unit_col_of n))
  else
    match find (λ c, is_value_col df c && bool_decide (unit_col_of c = n)) (columns df) with
    | Some c => from_option (λ vals, (convert_pair vals s).2) s (getitem df c)
    | None => s
    end.

(** [n] is a column of magnitudes among [seen], or the units of one.  The
    loop invariant of the converter is stated with it: once the columns
    [seen] are done, the columns they touch hold their final content and the
    others are as they were. *)
Definition touched (df : DataFrame) (seen : list string) (n : string) : bool :=
  existsb (λ c, is_value_col df c && bool_decide (n = c ∨ n = unit_col_of c)) seen.

Definition partial (df : DataFrame) (seen : list string) (n : string) (s : Series) : Series :=
  if touched df seen n then converted df n s else s.

(** [n] belongs to a pair of the table. *)
Definition in_pair (df : DataFrame) (n : string) : bool := touched df (columns df) n.

(** The unit tokens that the converter writes. *)
Definition canonical_units : list string := ["K"; "m"; "kg"; "s"; "Pa"; "N"; "J"; "1"].

(** The tokens that the converter compares with literals: temperatures and
    percentages. *)
Definition known_tokens : list string :=
  ["degc"; "c"; "degf"; "f"; "k"; "degk"; "%"; "pct"].

(** The normalized token [u] is one that the converter knows. *)
Definition in_tables (u : string) : bool :=
  bool_decide (u ∈ known_tokens)
  || bool_decide (is_Some (length_units !! u))
  || bool_decide (is_Some (mass_units !! u))
  || bool_decide (is_Some (time_units !! u))
  || bool_decide (is_Some (pressure_units !! u))
  || bool_decide (is_Some (force_units !! u))
  || bool_decide (is_Some (energy_units !! u)).

(** The number one, as the specification of binary64 writes it. *)
Definition SF_one : spec_float := S754_finite false 4503599627370496 (-52).

(** *** The decimal repairer *)

(** A cell after the substitution by the [.str] accessor: the text with its
    decimal commas repaired, NaN for a cell that is not a text. *)
Definition repaired (c : cell) : cell :=
  match c with
  | Str t => Str (sub_decimal_comma false t)
  | _ => NaN
  end.

(** What the body of the loop makes of one column. *)
Definition fix_series (s : Series) : option Series :=
  if bool_decide (dtype s = object) then
    s1 ← str_map (λ t, Str (sub_decimal_comma false t)) s;
    Some (to_numeric s1 ignore)
  else Some s.



(** There is a digit at the position [k] of [l]. *)
Definition digit_at (l : list ascii) (k : nat) : bool :=
  from_option Text.is_digit false (l !! k).

(** The position [k] of [l] holds a comma with a digit just before it and
    a digit just after it. *)
Definition decimal_comma (l : list ascii) (k : nat) : bool :=
  bool_decide (l !! k = Some ","%char)
  && match k with 0 => false | S k' => digit_at l k' end
  && digit_at l (S k).

(** *** The missing-value tagger *)

(** The texts that one of the patterns finds: blank texts; [na], [n/a],
    [null] and [none] in any letter case; the one-character texts of a
    question mark, a hyphen or a point; each of the words possibly followed
    by one line feed.  Nothing is trimmed. *)
Definition is_sentinel (t : string) : bool :=
  Text.all Text.is_space t
  || existsb (λ w, bool_decide (Text.lower t = w ∨ Text.lower t = w +:+ line_feed))
       ["na"; "n/a"; "null"; "none"]
  || existsb (λ w, bool_decide (t = w ∨ t = w +:+ line_feed)) ["?"; "-"; "."].

Definition tagged (c : cell) : cell :=
  match c with
  | Str t => if is_sentinel t then NA else c
  | _ => c
  end.

(** *** The whitespace stripper *)

(** [str(c).strip()] *)
Definition stripped (c : cell) : cell := Str (Text.strip (py_str c)).

Definition strip_series (s : Series) : Series :=
  match s with
  | Object cells => Object (stripped <$> cells)
  | Float64 _ => s
  end.

(** *** The unit extractor *)

(** The magnitude and the unit that one cell of a promoted column gives:
    both missing when the pattern is not found in [str(c)]. *)
Definition split_cell (c : cell) : float * cell :=
  match numeral_with_unit (py_str c) with
  | Some (n, u) =>
      (default PrimFloat.nan (Numeral.float_of_string (Text.replace "," "." n)), Str u)
  | None => (PrimFloat.nan, NaN)
  end.

Definition matches (c : cell) : bool :=
  bool_decide (is_Some (numeral_with_unit (py_str c))).

(** A column is promoted when its dtype is object and the pattern is found
    in one cell at least. *)
Definition promoted (s : Series) : bool :=
  match s with
  | Object cells => existsb matches cells
  | Float64 _ => false
  end.

Definition value_column (s : Series) : Series :=
  Float64 ((λ c, (split_cell c).1) <$> values s).

Definition unit_column (s : Series) : Series :=
  Object ((λ c, (split_cell c).2) <$> values s).

(** The column(s) that take the place of the column [c]. *)
Definition extracted_columns (c : string * Series) : list (string * Series) :=
  if promoted c.2 then
    [(c.1 +:+ "_value", value_column c.2); (c.1 +:+ "_unit", unit_column c.2)]
  else [c].

(** The columns that the promoted columns of [l] add to the table. *)
Definition added (l : DataFrame) : DataFrame :=
  l ≫= λ c, if promoted c.2 then extracted_columns c else [].

(** No promoted column [c] has [c_value] or [c_unit] among the labels of
    the table already. *)
Definition fresh_names (df : DataFrame) : bool :=
  forallb (λ c, negb (promoted c.2)
                || bool_decide ((c.1 +:+ "_value" ∉ columns df) ∧
                                (c.1 +:+ "_unit" ∉ columns df))) df.

(** *** Stages over the store *)

(** [stage_st] runs as [stage]: started on a reference [df] to the table
    [t], it raises when [stage t] does; otherwise it returns a reference
    [r] that was not allocated before, the store holds [stage t] at [r], and
    every table that the store held before, [t] at [df] among them, is still
    there and is the same. *)
Definition runs_as (stage_st : ref → M ref) (stage : DataFrame → option DataFrame)
    : Prop :=
  ∀ (σ : store) (df : ref) (t : DataFrame),
    σ !! df = Some t →
    match stage t with
    | Some t' =>
        ∃ r σ', stage_st df σ = Some (r, σ') ∧
                σ ⊆ σ' ∧ σ !! r = None ∧ σ' !! r = Some t'
    | None => stage_st df σ = None
    end.

(** ** Tables for the examples *)

Definition temperatures : DataFrame :=
  [("t_value", Float64 [0; 32]%float); ("t_unit", Object [Str "C"; Str "F"])].

Definition kelvins : DataFrame :=
  [("t_value", Float64 [100]%float); ("t_unit", Object [Str "K"])].




Definition measurements : DataFrame :=
  [("id", Object [Str "a"; Str "b"]);
   ("len_value", Float64 [12.5; 3]%float); ("len_unit", Object [Str "mm"; Str "km"]);
   ("temp_value", Float64 [0; 32]%float); ("temp_unit", Object [Str "C"; Str "F"]);
   ("count", Float64 [1; 2]%float)].

Definition prices : DataFrame :=
  [("price", Object [Str "1,25"]);
   ("note", Object [Str "1,5 kg, net"; NA; Str "a,b"]);
   ("n", Float64 [1]%float)].


Definition survey : DataFrame :=
  [(" name ", Object [Str " Ada "; NA; NaN]); ("age", Float64 [36; 41; 29]%float)].

Definition lengths : DataFrame :=
  [("len", Object [Str "12.5 mm"; NA; Str "3,5 cm"]);
   ("n", Float64 [1; 2; 3]%float);
   ("site", Object [Str "north"; Str "south"; Str "east"])].


(** ** Tactics *)

(** Refutes the membership [H] of a literal in a list of other literals. *)
Ltac no_member H :=
  repeat (apply elem_of_cons in H as [H|H]; [discriminate H|]);
  by apply elem_of_nil in H.

(** Proves a membership in a list that is written out. *)
Ltac member := repeat first [apply list_elem_of_here | apply list_elem_of_further].

(** ** More of what the stages compute *)

(** *** remove_empty_rows_and_columns *)

(** A cell that is neither missing nor a blank text. *)
Definition present (c : cell) : bool := negb (isna (replace_cell Blank c)).

(** Every column has as many cells as the table has rows. *)
Definition rectangular (df : DataFrame) : bool :=
  forallb (λ c, bool_decide (length (values c.2) = n_rows df)) df.

(** A column with its blank texts made missing, and a column cut down to
    the rows of a mask. *)
Definition blank_series (s : Series) : Series :=
  match s with
  | Object cells => Object (replace_cell Blank <$> cells)
  | Float64 _ => s
  end.

Definition mask_series (rows : list bool) (s : Series) : Series :=
  match s with
  | Object cells => Object (masked rows cells)
  | Float64 numbers => Float64 (masked rows numbers)
  end.

(** The row [i] holds a present cell, and the mask of these rows. *)
Definition row_kept (df : DataFrame) (i : nat) : bool :=
  existsb (λ c, from_option present false (values c.2 !! i)) df.

Definition kept_rows (df : DataFrame) : list bool :=
  row_kept df <$> seq 0 (n_rows df).

(** The column holds a present cell. *)
Definition column_kept (c : string * Series) : bool :=
  existsb present (values c.2).

(** A table with an empty row and an empty column. *)
Definition sparse : DataFrame :=
  [("id", Object [Str "a"; Str " "; Str "c"]);
   ("note", Object [Str ""; NA; Str "  "]);
   ("n", Float64 [1; PrimFloat.nan; 3]%float)].

(** *** normalize_missing_values and the labels of a table *)

(** What the tagger makes of one column. *)
Definition tag_series (s : Series) : Series :=
  match s with
  | Object cells => Object (tagged <$> cells)
  | Float64 _ => s
  end.

(** The number of columns of [l] that bear the label [x]. *)
Definition occurrences (x : string) (l : list string) : nat :=
  length (filter (λ n, n = x) l).

(** *** fix_decimal_commas *)

(** Object columns that hold a number beside texts. *)
Definition mixed : DataFrame :=
  [("x", Object [Str "1,5"; Num 2; Str "3"]); ("y", Object [Str "a,b"; Num 7])].

(** *** The pattern of the extractor *)







(** *** convert_units_to_SI *)

(** The tables of factors of the converter, each with the unit it writes. *)
Definition scale_tables : list (gmap string float * string) :=
  [(length_units, "m"); (mass_units, "kg"); (time_units, "s");
   (pressure_units, "Pa"); (force_units, "N"); (energy_units, "J")].

(** Pairs with a unit in capitals, a missing magnitude and a missing unit;
    a pair of a percentage and a temperature. *)
Definition journeys : DataFrame :=
  [("d_value", Object [Str "2.5"; Num 3; NA; Str "7"]);
   ("d_unit", Object [Str " KM "; Str "h"; Str "m"; NaN])].

Definition shares : DataFrame :=
  [("p_value", Float64 [50; 300]%float); ("p_unit", Object [Str "%"; Str "k"])].

(** *** Rows *)

(** Every column of the table has [k] cells. *)
Definition has_rows (k : nat) (df : DataFrame) : Prop :=
  ∀ n s, (n, s) ∈ df → length (values s) = k.

(** * Properties *)

(** ** Tables, one column at a time *)

Lemma update_relabel f col df :
  update f col df = relabel (λ n s, if bool_decide (n = col) then f s else s) df.
Proof. reflexivity. Qed.

Lemma relabel_relabel g h df :
  relabel g (relabel h df) = relabel (λ n s, g n (h n s)) df.
Proof. unfold relabel. rewrite <- list_fmap_compose. reflexivity. Qed.

Lemma relabel_ext g h df :
  (∀ n s, (n, s) ∈ df → g n s = h n s) → relabel g df = relabel h df.
Proof.
  intros H. apply list_fmap_ext. intros i [n s] Hi; simpl.
  rewrite (H n s); [done|]. by eapply list_elem_of_lookup_2.
Qed.

Lemma relabel_id g df :
  (∀ n s, (n, s) ∈ df → g n s = s) → relabel g df = df.
Proof.
  intros H. rewrite <- (list_fmap_id df) at 2. apply list_fmap_ext.
  intros i [n s] Hi; simpl. rewrite (H n s); [done|]. by eapply list_elem_of_lookup_2.
Qed.

Lemma columns_relabel g df : columns (relabel g df) = columns df.
Proof. unfold columns, relabel. rewrite <- list_fmap_compose. reflexivity. Qed.

Lemma filter_label_relabel g col df :
  filter (λ c, c.1 = col) (relabel g df) = relabel g (filter (λ c, c.1 = col) df).
Proof.
  induction df as [|[n s] df IH]; [done|]. unfold relabel in *.
  rewrite fmap_cons, !filter_cons. simpl.
  destruct (decide (n = col)); [rewrite fmap_cons|]; by rewrite IH.
Qed.

Lemma getitem_relabel g col df :
  getitem (relabel g df) col = g col <$> getitem df col.
Proof.
  unfold getitem. rewrite filter_label_relabel.
  destruct (filter (λ c, c.1 = col) df) as [|[n s] [|]] eqn:E; try done.
  simpl. assert ((n, s) ∈ filter (λ c, c.1 = col) df) as Hin by (rewrite E; set_solver).
  apply list_elem_of_filter in Hin as [Hn _]. simpl in Hn. by subst.
Qed.

Lemma filter_label_absent col (df : DataFrame) :
  col ∉ columns df → filter (λ c, c.1 = col) df = [].
Proof.
  intros H. induction df as [|[n s] df IH]; [done|].
  rewrite filter_cons. simpl. unfold columns in H. simpl in H.
  apply not_elem_of_cons in H as [H1 H2]. rewrite decide_False by congruence. by apply IH.
Qed.

Lemma getitem_elem_of df col s :
  NoDup (columns df) → (col, s) ∈ df → getitem df col = Some s.
Proof.
  intros Hnd Hin. unfold getitem. induction df as [|[n t] df IH]; [by apply elem_of_nil in Hin|].
  unfold columns in Hnd. simpl in Hnd. apply NoDup_cons in Hnd as [Hn Hnd].
  rewrite filter_cons. simpl. apply elem_of_cons in Hin as [Heq|Hin].
  - inversion Heq; subst. rewrite decide_True by done. by rewrite filter_label_absent.
  - rewrite decide_False. { by apply IH. }
    intros ->. apply Hn. apply list_elem_of_fmap. by exists (col, s).
Qed.

Lemma getitem_Some_elem_of df col s :
  getitem df col = Some s → (col, s) ∈ df.
Proof.
  unfold getitem. intros H.
  destruct (filter (λ c, c.1 = col) df) as [|[n t] [|]] eqn:E; try done.
  inversion H; subst.
  assert ((n, s) ∈ filter (λ c, c.1 = col) df) as Hin by (rewrite E; set_solver).
  apply list_elem_of_filter in Hin as [Hn Hin]. simpl in Hn. by subst.
Qed.

(** ** Texts and their characters *)

Lemma chars_app a b : Text.chars (a +:+ b) = Text.chars a ++ Text.chars b.
Proof. induction a as [|c a IH]; simpl; [done|]. unfold Text.chars in *. simpl. by rewrite IH. Qed.

Lemma length_chars s : length (Text.chars s) = String.length s.
Proof. induction s as [|c s IH]; simpl; [done|]. unfold Text.chars in *. simpl. by rewrite IH. Qed.

Lemma of_chars_chars s : Text.of_chars (Text.chars s) = s.
Proof. apply string_of_list_ascii_of_string. Qed.

Lemma chars_of_chars l : Text.chars (Text.of_chars l) = l.
Proof. apply list_ascii_of_string_of_list_ascii. Qed.

Lemma chars_inj a b : Text.chars a = Text.chars b → a = b.
Proof. intros H. by rewrite <- (of_chars_chars a), <- (of_chars_chars b), H. Qed.

Lemma endswith_split s p :
  Text.endswith s p = true → s = Text.drop_end (String.length p) s +:+ p.
Proof.
  unfold Text.endswith, Text.drop_end. intros H.
  apply andb_prop in H as [_ H]. apply bool_decide_eq_true in H.
  apply chars_inj. rewrite chars_app, chars_of_chars, <- H. by rewrite take_drop.
Qed.

Lemma endswith_app b p : Text.endswith (b +:+ p) p = true.
Proof.
  unfold Text.endswith. rewrite <- !length_chars, chars_app, length_app.
  apply andb_true_intro. split; apply bool_decide_eq_true; [lia|].
  replace (length (Text.chars b) + length (Text.chars p) - length (Text.chars p)) with (length (Text.chars b)) by lia.
  by rewrite drop_app_length.
Qed.

Lemma append_inj_r a b p : a +:+ p = b +:+ p → a = b.
Proof.
  intros H. apply chars_inj. apply (f_equal Text.chars) in H.
  rewrite !chars_app in H. by apply app_inv_tail in H.
Qed.

(** ** The labels of a pair *)

Lemma value_not_unit s :
  Text.endswith s "_value" = true → Text.endswith s "_unit" = false.
Proof.
  unfold Text.endswith. intros H. apply andb_prop in H as [H1 H2].
  apply bool_decide_eq_true in H1, H2. simpl in *.
  apply andb_false_intro2. apply bool_decide_eq_false. intros H3.
  assert (drop 1 (drop (String.length s - 6) (Text.chars s)) = drop (String.length s - 5) (Text.chars s)) as E.
  { rewrite drop_drop. f_equal. lia. }
  rewrite H2, H3 in E. discriminate E.
Qed.

Lemma unit_col_of_not_value col c :
  Text.endswith col "_value" = true → col ≠ unit_col_of c.
Proof.
  intros H ->. apply value_not_unit in H. unfold unit_col_of in H.
  by rewrite endswith_app in H.
Qed.

Lemma unit_col_of_inj c1 c2 :
  Text.endswith c1 "_value" = true → Text.endswith c2 "_value" = true →
  unit_col_of c1 = unit_col_of c2 → c1 = c2.
Proof.
  intros H1 H2 H. apply append_inj_r in H.
  rewrite (endswith_split _ _ H1), (endswith_split _ _ H2). simpl. by rewrite H.
Qed.

(** ** The converter on a table

    The loop over the columns is followed with the invariant [partial]; it
    ends on [relabel (converted df) df]. *)

Lemma values_write idx v s : values (write idx v s) = <[idx := v]> (values s).
Proof. destruct s, v; simpl; try done. by rewrite list_fmap_insert. Qed.

Lemma values_to_numeric_coerce s :
  values (to_numeric s coerce) = coerce_cell <$> values s.
Proof.
  destruct s as [cells|numbers]; simpl.
  - by rewrite <- list_fmap_compose.
  - rewrite <- list_fmap_compose. by apply list_fmap_ext.
Qed.

Lemma foldl_ext {A B} (f g : A → B → A) (a : A) (l : list B) :
  (∀ a b, f a b = g a b) → foldl f a l = foldl g a l.
Proof.
  intros H. revert a. induction l as [|b l IH]; intros a; simpl; [done|].
  by rewrite H, IH.
Qed.

Lemma foldl_relabel {A} (g : A → string → Series → Series) (rows : list A) df :
  foldl (λ df row, relabel (g row) df) df rows
  = relabel (λ n s, foldl (λ s row, g row n s) s rows) df.
Proof.
  revert df. induction rows as [|row rows IH]; intros df; simpl.
  - symmetry. by apply relabel_id.
  - rewrite IH, relabel_relabel. done.
Qed.

Lemma foldl_rows_relabel col unit_col (rows : list (nat * (cell * cell))) df :
  col ≠ unit_col →
  foldl (convert_row col unit_col) df rows
  = relabel (λ n s,
       if bool_decide (n = col) then
         foldl (λ s row, write row.1 (_convert_one row.2.1 row.2.2).1 s) s rows
       else if bool_decide (n = unit_col) then
         foldl (λ s row, write row.1 (_convert_one row.2.1 row.2.2).2 s) s rows
       else s) df.
Proof.
  intros Hne.
  transitivity (foldl (λ df row, relabel (λ n s,
      if bool_decide (n = col) then write row.1 (_convert_one row.2.1 row.2.2).1 s
      else if bool_decide (n = unit_col) then write row.1 (_convert_one row.2.1 row.2.2).2 s
      else s) df) df rows).
  - apply foldl_ext. intros df' [idx [val unit]]. unfold convert_row. simpl.
    destruct (_convert_one val unit) as [nv nu]. simpl.
    unfold at_set. rewrite !update_relabel, relabel_relabel.
    apply relabel_ext. intros n s _.
    repeat case_bool_decide; subst; done.
  - rewrite foldl_relabel. apply relabel_ext. intros n s _.
    repeat case_bool_decide; subst; try done.
    induction rows; simpl; done.
Qed.

Lemma getitem_Some_unique df col v s :
  getitem df col = Some v → (col, s) ∈ df → s = v.
Proof.
  unfold getitem. intros H Hin.
  destruct (filter (λ c, c.1 = col) df) as [|[n t] [|]] eqn:E; try done.
  inversion H; subst.
  assert ((col, s) ∈ filter (λ c, c.1 = col) df) as Hf by (by apply list_elem_of_filter).
  rewrite E in Hf. apply list_elem_of_singleton in Hf. by inversion Hf.
Qed.

Lemma column_unique df col s1 s2 :
  NoDup (columns df) → (col, s1) ∈ df → (col, s2) ∈ df → s1 = s2.
Proof.
  intros Hnd H1 H2. eapply getitem_Some_unique; [|exact H1].
  by apply getitem_elem_of.
Qed.

Lemma getitem_Some_column df col v : getitem df col = Some v → col ∈ columns df.
Proof.
  intros H. apply getitem_Some_elem_of in H. apply list_elem_of_fmap. by exists (col, v).
Qed.

Lemma convert_column_skip df col :
  is_value_col df col = false → convert_column df col = Some df.
Proof.
  unfold is_value_col, convert_column, unit_col_of. intros H.
  destruct (Text.endswith col "_value"); [|done]. simpl in H.
  by rewrite H.
Qed.

Lemma convert_column_pair df col vals units :
  Text.endswith col "_value" = true →
  getitem df col = Some vals →
  getitem df (unit_col_of col) = Some units →
  convert_column df col
  = Some (relabel (λ n s,
            if bool_decide (n = col) then (convert_pair vals units).1
            else if bool_decide (n = unit_col_of col) then (convert_pair vals units).2
            else s) df).
Proof.
  intros Hv Hc Hu. unfold convert_column. rewrite Hv.
  fold (unit_col_of col).
  rewrite bool_decide_true by (by eapply getitem_Some_column).
  rewrite Hc, Hu. simpl.
  assert (col ≠ unit_col_of col) as Hne by (by apply unit_col_of_not_value).
  rewrite foldl_rows_relabel by done.
  rewrite getitem_relabel, Hc. simpl. rewrite bool_decide_true by done.
  unfold setitem. rewrite columns_relabel.
  rewrite bool_decide_true by (by eapply getitem_Some_column).
  rewrite update_relabel, relabel_relabel. f_equal.
  apply relabel_ext. intros n s Hin. unfold convert_pair.
  repeat case_bool_decide; subst; simpl; try done.
  by rewrite (getitem_Some_unique _ _ _ _ Hu Hin).
Qed.

Lemma is_value_col_endswith df c : is_value_col df c = true → Text.endswith c "_value" = true.
Proof. unfold is_value_col. by intros [? _]%andb_prop. Qed.

Lemma is_value_col_unit df c : is_value_col df c = true → unit_col_of c ∈ columns df.
Proof. unfold is_value_col. intros [_ H]%andb_prop. by apply bool_decide_eq_true in H. Qed.

Lemma touched_false df seen n :
  touched df seen n = false ↔
  ∀ c, c ∈ seen → is_value_col df c = true → n ≠ c ∧ n ≠ unit_col_of c.
Proof.
  unfold touched. split.
  - intros H c Hc Hv.
    destruct (decide (n = c ∨ n = unit_col_of c)) as [Hd|Hd]; [|tauto].
    assert (existsb (λ c, is_value_col df c && bool_decide (n = c ∨ n = unit_col_of c)) seen = true) as E; [|congruence].
    apply existsb_exists. exists c. split; [by apply list_elem_of_In|].
    rewrite Hv. simpl. by apply bool_decide_eq_true.
  - intros H. apply not_true_is_false. intros E.
    apply existsb_exists in E as (c & Hc & E). apply list_elem_of_In in Hc.
    apply andb_prop in E as [Hv E]. apply bool_decide_eq_true in E.
    destruct (H c Hc Hv). tauto.
Qed.

Lemma touched_snoc df seen col n :
  touched df (seen ++ [col]) n
  = touched df seen n || (is_value_col df col && bool_decide (n = col ∨ n = unit_col_of col)).
Proof. unfold touched. rewrite existsb_app. simpl. by rewrite orb_false_r. Qed.

Lemma converted_value df col vals units :
  is_value_col df col = true → getitem df (unit_col_of col) = Some units →
  converted df col vals = (convert_pair vals units).1.
Proof. intros Hv Hu. unfold converted. by rewrite Hv, Hu. Qed.

Lemma converted_unit df col vals units :
  col ∈ columns df →
  is_value_col df col = true → getitem df col = Some vals →
  converted df (unit_col_of col) units = (convert_pair vals units).2.
Proof.
  intros Hin Hv Hc. unfold converted.
  assert (is_value_col df (unit_col_of col) = false) as ->.
  { unfold is_value_col. apply andb_false_intro1.
    destruct (Text.endswith (unit_col_of col) "_value") eqn:E; [|done].
    apply value_not_unit in E. unfold unit_col_of in E. by rewrite endswith_app in E. }
  destruct (find _ (columns df)) as [c|] eqn:E.
  - apply find_some in E as [_ E]. apply andb_prop in E as [Hv' E].
    apply bool_decide_eq_true in E.
    apply unit_col_of_inj in E; eauto using is_value_col_endswith. subst.
    by rewrite Hc.
  - exfalso. apply list_elem_of_In in Hin.
    pose proof (find_none _ _ E col Hin) as F. simpl in F.
    rewrite Hv, bool_decide_true in F by done. discriminate F.
Qed.

Lemma converted_other df n s :
  n ∈ columns df → touched df (columns df) n = false → converted df n s = s.
Proof.
  intros Hin Ht. unfold converted.
  destruct (is_value_col df n) eqn:Hv.
  - exfalso. eapply touched_false in Ht as [Ht _]; eauto.
  - destruct (find _ (columns df)) as [c|] eqn:E; [|done].
    exfalso. apply find_some in E as [Hc E]. apply list_elem_of_In in Hc.
    apply andb_prop in E as [Hv' E]. apply bool_decide_eq_true in E.
    eapply touched_false in Ht as [_ Ht]; eauto.
Qed.

Lemma convert_loop df seen rest :
  NoDup (columns df) → columns df = seen ++ rest →
  for_each rest convert_column (relabel (partial df seen) df)
  = Some (relabel (partial df (seen ++ rest)) df).
Proof.
  intros Hnd. revert seen. induction rest as [|col rest IH]; intros seen Hcols.
  { simpl. by rewrite app_nil_r. }
  assert (col ∈ columns df) as Hcol.
  { rewrite Hcols. apply elem_of_app. right. apply elem_of_cons. by left. }
  assert (col ∉ seen) as Hfresh.
  { rewrite Hcols in Hnd. apply NoDup_app in Hnd as (_ & Hnd & _).
    intros Hin. apply (Hnd col Hin). apply elem_of_cons. by left. }
  simpl.
  assert (convert_column (relabel (partial df seen) df) col
          = Some (relabel (partial df (seen ++ [col])) df)) as ->.
  2:{ simpl. rewrite (IH (seen ++ [col])); [by rewrite <- app_assoc|by rewrite <- app_assoc]. }
  destruct (is_value_col df col) eqn:Hv.
  - pose proof (is_value_col_endswith _ _ Hv) as He.
    pose proof (is_value_col_unit _ _ Hv) as Hu.
    apply list_elem_of_fmap in Hcol as ([c vals] & -> & Hvals). simpl in *.
    apply list_elem_of_fmap in Hu as ([u units] & Hueq & Hunits). simpl in *. subst u.
    assert (touched df seen c = false) as Htc.
    { apply touched_false. intros c' Hc' Hv'. split; [set_solver|].
      by apply unit_col_of_not_value. }
    assert (touched df seen (unit_col_of c) = false) as Htu.
    { apply touched_false. intros c' Hc' Hv'. split.
      - intros E. symmetry in E. revert E. apply unit_col_of_not_value.
        by eapply is_value_col_endswith.
      - intros E. apply unit_col_of_inj in E; eauto using is_value_col_endswith.
        set_solver. }
    rewrite (convert_column_pair _ c (partial df seen c vals)
               (partial df seen (unit_col_of c) units)); [|done|..].
    2:{ rewrite getitem_relabel, (getitem_elem_of _ _ _ Hnd Hvals). done. }
    2:{ rewrite getitem_relabel, (getitem_elem_of _ _ _ Hnd Hunits). done. }
    rewrite relabel_relabel. f_equal. apply relabel_ext. intros n s Hin.
    assert (partial df seen c vals = vals) as -> by (unfold partial; by rewrite Htc).
    assert (partial df seen (unit_col_of c) units = units) as ->
      by (unfold partial; by rewrite Htu).
    unfold partial. rewrite touched_snoc, Hv. simpl.
    destruct (decide (n = c)) as [->|Hnc].
    { rewrite !bool_decide_true by tauto. rewrite orb_true_r.
      rewrite (converted_value df c s units); eauto using getitem_elem_of.
      by rewrite (column_unique _ _ _ _ Hnd Hin Hvals). }
    rewrite (bool_decide_false (n = c)) by done.
    destruct (decide (n = unit_col_of c)) as [->|Hnu].
    { rewrite !bool_decide_true by tauto. rewrite orb_true_r.
      rewrite (converted_unit df c vals s); eauto using getitem_elem_of.
      - by rewrite (column_unique _ _ _ _ Hnd Hin Hunits).
      - apply list_elem_of_fmap. by exists (c, vals). }
    rewrite !bool_decide_false by tauto. by rewrite orb_false_r.
  - rewrite convert_column_skip.
    2:{ unfold is_value_col in *. by rewrite columns_relabel. }
    f_equal. apply relabel_ext. intros n s _. unfold partial.
    by rewrite touched_snoc, Hv, orb_false_r.
Qed.

(** On a table whose labels are not repeated the converter does not raise,
    and returns the table described by [converted]. *)
Lemma convert_units_to_SI_converted df :
  NoDup (columns df) →
  convert_units_to_SI df = Some (relabel (converted df) df).
Proof.
  intros Hnd. unfold convert_units_to_SI.
  rewrite <- (relabel_id (partial df []) df) at 2 by done.
  rewrite (convert_loop df [] (columns df)) by done. simpl.
  f_equal. apply relabel_ext. intros n s Hin. unfold partial.
  destruct (touched df (columns df) n) eqn:E; [done|].
  symmetry. apply converted_other; [|done].
  apply list_elem_of_fmap. by exists (n, s).
Qed.

(** ** The converter on one row of a pair *)

Lemma values_foldl_write {A} (idx : A → nat) (h : A → cell) (rows : list A) s :
  values (foldl (λ s row, write (idx row) (h row) s) s rows)
  = foldl (λ l row, <[idx row := h row]> l) (values s) rows.
Proof.
  revert s. induction rows as [|row rows IH]; intros s; simpl; [done|].
  by rewrite IH, values_write.
Qed.

Lemma foldl_insert_rows {A B} (h : B → A) (rs : list B) (l : list A) k j :
  foldl (λ l row, <[row.1 := h row.2]> l) l (imap (λ i r, (k + i, r)) rs) !! j
  = match (if decide (k ≤ j) then rs !! (j - k) else None) with
    | Some r => (λ _, h r) <$> l !! j
    | None => l !! j
    end.
Proof.
  revert l k. induction rs as [|r rs IH]; intros l k; simpl.
  { destruct (decide (k ≤ j)); by rewrite ?lookup_nil. }
  rewrite (imap_ext _ (λ i r, (S k + i, r))); [|intros; simpl; f_equal; lia].
  rewrite IH. replace (k + 0) with k by lia.
  destruct (decide (S k ≤ j)) as [H1|H1].
  - rewrite decide_True by lia. replace (j - k) with (S (j - S k)) by lia. simpl.
    rewrite list_lookup_insert_ne by lia. done.
  - destruct (decide (k ≤ j)) as [H2|H2].
    + assert (j = k) as -> by lia. rewrite Nat.sub_diag. simpl.
      destruct (decide (k < length l)) as [H3|H3].
      * rewrite list_lookup_insert_eq by done.
        apply lookup_lt_is_Some in H3 as [x ->]. done.
      * rewrite list_insert_ge by lia. rewrite lookup_ge_None_2 by lia. done.
    + rewrite list_lookup_insert_ne by lia. done.
Qed.

Lemma iterrows_lookup_fold {A} (h : cell * cell → A) vals units (l : list A) j :
  foldl (λ l row, <[row.1 := h row.2]> l) l (iterrows vals units) !! j
  = match values vals !! j, values units !! j with
    | Some v, Some u => (λ _, h (v, u)) <$> l !! j
    | _, _ => l !! j
    end.
Proof.
  unfold iterrows.
  rewrite (imap_ext _ (λ i r, (0 + i, r))) by done.
  rewrite foldl_insert_rows. rewrite decide_True by lia. rewrite Nat.sub_0_r.
  rewrite lookup_zip_with.
  destruct (values vals !! j), (values units !! j); done.
Qed.

Lemma convert_pair_value vals units i v u :
  values vals !! i = Some v → values units !! i = Some u →
  values (convert_pair vals units).1 !! i = Some (coerce_cell (_convert_one v u).1).
Proof.
  intros Hv Hu. unfold convert_pair. simpl.
  rewrite values_to_numeric_coerce, list_lookup_fmap.
  rewrite (values_foldl_write (λ row, row.1) (λ row, (_convert_one row.2.1 row.2.2).1)).
  rewrite (iterrows_lookup_fold (λ r, (_convert_one r.1 r.2).1)).
  by rewrite Hv, Hu.
Qed.

Lemma convert_pair_unit vals units i v u :
  values vals !! i = Some v → values units !! i = Some u →
  values (convert_pair vals units).2 !! i = Some (_convert_one v u).2.
Proof.
  intros Hv Hu. unfold convert_pair. simpl.
  rewrite (values_foldl_write (λ row, row.1) (λ row, (_convert_one row.2.1 row.2.2).2)).
  rewrite (iterrows_lookup_fold (λ r, (_convert_one r.1 r.2).2)).
  by rewrite Hv, Hu.
Qed.

(** One row of a pair: the converter applies [_convert_one] to its two
    cells; the magnitude is then coerced to a number. *)
Lemma convert_units_to_SI_row df col vals units i v u :
  NoDup (columns df) →
  Text.endswith col "_value" = true →
  (col, vals) ∈ df → (unit_col_of col, units) ∈ df →
  values vals !! i = Some v → values units !! i = Some u →
  ∃ out vals' units',
    convert_units_to_SI df = Some out ∧
    (col, vals') ∈ out ∧ (unit_col_of col, units') ∈ out ∧
    values vals' !! i = Some (coerce_cell (_convert_one v u).1) ∧
    values units' !! i = Some (_convert_one v u).2.
Proof.
  intros Hnd He Hvals Hunits Hv Hu.
  assert (is_value_col df col = true) as Hvc.
  { unfold is_value_col. rewrite He. simpl. apply bool_decide_eq_true.
    apply list_elem_of_fmap. by exists (unit_col_of col, units). }
  exists (relabel (converted df) df), (convert_pair vals units).1, (convert_pair vals units).2.
  split; [by apply convert_units_to_SI_converted|].
  split; [|split; [|split]].
  - apply list_elem_of_fmap. exists (col, vals). split; [|done]. simpl.
    by rewrite (converted_value df col vals units); eauto using getitem_elem_of.
  - apply list_elem_of_fmap. exists (unit_col_of col, units). split; [|done]. simpl.
    rewrite (converted_unit df col vals units); eauto using getitem_elem_of.
    apply list_elem_of_fmap. by exists (col, vals).
  - by apply convert_pair_value.
  - by apply convert_pair_unit.
Qed.

(** ** Multiplying by one

    The canonical units are keys of the tables with the factor one, and
    [x * 1] is [x] for every binary64 number, NaN and infinities included. *)

Lemma iter_shr_1_shifted (m : positive) :
  SpecFloat.iter_pos shr_1 52 {| shr_m := Zpos (Pos.iter xO m 52); shr_r := false; shr_s := false |}
  = {| shr_m := Zpos m; shr_r := false; shr_s := false |}.
Proof. reflexivity. Qed.

Lemma SFmul_one_r (x : spec_float) :
  valid_binary x = true → SF64mul x SF_one = x.
Proof.
  unfold SF64mul, SF_one.
  destruct x as [s|s| |s m e]; cbn [SFmul];
    try (rewrite xorb_false_r; reflexivity); try reflexivity.
  intros Hv. rewrite xorb_false_r.
  unfold SpecFloat.valid_binary, bounded in Hv.
  apply andb_prop in Hv as [Hc Hb].
  unfold canonical_mantissa in Hc. apply Z.eqb_eq in Hc.
  unfold binary_round_aux.
  assert (m * 4503599627370496 = Pos.iter xO m 52)%positive as ->.
  { rewrite Pos.mul_comm. reflexivity. }
  assert (Zdigits2 (Zpos (Pos.iter xO m 52)) = (Zpos (digits2_pos m) + 52)%Z) as Hd.
  { cbn. lia. }
  unfold shr_fexp at 1. rewrite Hd.
  replace (Z.pos (digits2_pos m) + 52 + (e + -52))%Z
    with (Z.pos (digits2_pos m) + e)%Z by lia.
  rewrite Hc.
  replace (e - (e + -52))%Z with 52%Z by lia.
  cbn [shr_record_of_loc shr].
  rewrite iter_shr_1_shifted.
  cbn [shr_m loc_of_shr_record round_nearest_even].
  unfold shr_fexp. cbn [Zdigits2].
  replace (e + -52 + 52)%Z with e by lia.
  rewrite Hc, Z.sub_diag. cbn [shr shr_record_of_loc shr_m].
  by rewrite Hb.
Qed.

Lemma mul_one_r (x : float) : (x * 1)%float = x.
Proof.
  rewrite <- (SF2Prim_Prim2SF (x * 1)), mul_spec.
  change (Prim2SF 1) with SF_one.
  rewrite SFmul_one_r by apply Prim2SF_valid. apply SF2Prim_Prim2SF.
Qed.

(** ** The converter on two cells *)

Lemma convert_one_canonical f u :
  u ∈ canonical_units → _convert_one (Num f) (Str u) = (Num f, Str u).
Proof.
  intros H. unfold canonical_units in H.
  repeat (apply elem_of_cons in H as [->|H]); [..|by apply elem_of_nil in H];
    unfold _convert_one; simpl; destruct (PrimFloat.is_nan f); simpl; try done;
    vm_compute; rewrite ?mul_one_r; reflexivity.
Qed.

Lemma convert_one_celsius value unit v :
  isna value = false → isna unit = false → py_float value = Some v →
  normalize_unit unit ∈ ["degc"; "c"] →
  _convert_one value unit = (Num (v + 273.15), Str "K").
Proof.
  intros Hv Hu Hf Hn. unfold _convert_one. rewrite Hv, Hu, Hf. simpl.
  by rewrite bool_decide_true.
Qed.

Lemma convert_one_fahrenheit value unit v :
  isna value = false → isna unit = false → py_float value = Some v →
  normalize_unit unit ∈ ["degf"; "f"] →
  _convert_one value unit = (Num ((v - 32) * 5 / 9 + 273.15), Str "K").
Proof.
  intros Hv Hu Hf Hn. unfold _convert_one. rewrite Hv, Hu, Hf. simpl.
  rewrite bool_decide_false.
  - by rewrite bool_decide_true.
  - intros Hc. apply elem_of_cons in Hn as [Hn|Hn]; [|apply list_elem_of_singleton in Hn];
      rewrite Hn in Hc; no_member Hc.
Qed.




(** [_convert_one] hands back the two cells it received, or a number with
    a canonical unit. *)
Lemma convert_one_shape value unit :
  _convert_one value unit = (value, unit) ∨
  ∃ f u, u ∈ canonical_units ∧ _convert_one value unit = (Num f, Str u).
Proof.
  unfold _convert_one.
  destruct (isna value || isna unit); [by left|].
  destruct (py_float value) as [v|]; [|by left]. simpl.
  repeat case_bool_decide;
    repeat match goal with
           | |- context [?m !! ?k] => destruct (m !! k)
           end;
    try (by left);
    right; eexists _, _; (split; [|reflexivity]);
    unfold canonical_units; rewrite !elem_of_cons; tauto.
Qed.

Lemma convert_one_idempotent value unit :
  _convert_one (_convert_one value unit).1 (_convert_one value unit).2
  = _convert_one value unit.
Proof.
  destruct (convert_one_shape value unit) as [H|(f & u & Hu & H)].
  - by rewrite !H.
  - rewrite !H. simpl. by apply convert_one_canonical.
Qed.

Lemma convert_one_coerced value unit :
  _convert_one (coerce_cell (_convert_one value unit).1) (_convert_one value unit).2
  = (coerce_cell (_convert_one value unit).1, (_convert_one value unit).2).
Proof.
  destruct (convert_one_shape value unit) as [H|(f & u & Hu & H)].
  - rewrite H. simpl. destruct value as [|t|f].
    + unfold coerce_cell, _convert_one. reflexivity.
    + unfold coerce_cell. simpl.
      destruct (Numeral.float_of_string t) as [f|] eqn:E; simpl;
        [|unfold _convert_one; reflexivity].
      revert H. unfold _convert_one. simpl. rewrite E.
      destruct (isna unit); [by rewrite orb_true_r|].
      destruct (PrimFloat.is_nan f); [done|]. simpl.
      repeat case_bool_decide;
        repeat match goal with
               | |- context [?m !! ?k] => destruct (m !! k)
               end; by try discriminate.
    + exact H.
  - rewrite H. simpl. by apply convert_one_canonical.
Qed.


(** ** The converter: theorems *)

(** C1.  Take a table whose labels are not repeated, a pair of columns
    [base_value] and [base_unit] in it, and a row of the pair whose unit is
    present and whose magnitude reads as the number [v].  When the unit
    token normalizes to [c] or [degc], the converter returns a table where
    the row holds [v + 273.15] and the unit K; when it normalizes to [f] or
    [degf], the row holds [(v - 32) * 5 / 9 + 273.15] and the unit K.
    [_convert_one] returns the same on the two cells. *)
Theorem temperature_to_kelvin df col vals units i value unit v :
  NoDup (columns df) →
  Text.endswith col "_value" = true →
  (col, vals) ∈ df → (unit_col_of col, units) ∈ df →
  values vals !! i = Some value → values units !! i = Some unit →
  isna value = false → isna unit = false → py_float value = Some v →
  ∃ out vals' units',
    convert_units_to_SI df = Some out ∧
    (col, vals') ∈ out ∧ (unit_col_of col, units') ∈ out ∧
    (normalize_unit unit ∈ ["degc"; "c"] →
       _convert_one value unit = (Num (v + 273.15), Str "K") ∧
       values vals' !! i = Some (Num (v + 273.15)) ∧
       values units' !! i = Some (Str "K")) ∧
    (normalize_unit unit ∈ ["degf"; "f"] →
       _convert_one value unit = (Num ((v - 32) * 5 / 9 + 273.15), Str "K") ∧
       values vals' !! i = Some (Num ((v - 32) * 5 / 9 + 273.15)) ∧
       values units' !! i = Some (Str "K")).
Proof.
  intros Hnd He Hvals Hunits Hv Hu Hna Hnu Hf.
  destruct (convert_units_to_SI_row df col vals units i value unit)
    as (out & vals' & units' & Hout & H1 & H2 & H3 & H4); try done.
  exists out, vals', units'. repeat split; try done.
  - by apply convert_one_celsius.
  - by rewrite H3, (convert_one_celsius value unit v).
  - by rewrite H4, (convert_one_celsius value unit v).
  - by apply convert_one_fahrenheit.
  - by rewrite H3, (convert_one_fahrenheit value unit v).
  - by rewrite H4, (convert_one_fahrenheit value unit v).
Qed.

Lemma temperature_to_kelvin_witness :
  _convert_one (Num 0) (Str "C") = (Num 273.15, Str "K") ∧
  _convert_one (Num 32) (Str "F") = (Num 273.15, Str "K") ∧
  ∃ out vals' units',
    convert_units_to_SI temperatures = Some out ∧
    ("t_value", vals') ∈ out ∧ ("t_unit", units') ∈ out ∧
    values vals' !! 1 = Some (Num 273.15) ∧ values units' !! 1 = Some (Str "K").
Proof.
  destruct (temperature_to_kelvin temperatures "t_value"
              (Float64 [0; 32]%float) (Object [Str "C"; Str "F"]) 0
              (Num 0) (Str "C") 0%float)
    as (o1 & v1 & u1 & _ & _ & _ & HC & _);
    [compute_done| reflexivity | unfold temperatures; member ..
    | reflexivity | reflexivity | reflexivity | reflexivity | reflexivity |].
  destruct (temperature_to_kelvin temperatures "t_value"
              (Float64 [0; 32]%float) (Object [Str "C"; Str "F"]) 1
              (Num 32) (Str "F") 32%float)
    as (out & vals' & units' & Hout & H1 & H2 & _ & HF);
    [compute_done| reflexivity | unfold temperatures; member ..
    | reflexivity | reflexivity | reflexivity | reflexivity | reflexivity |].
  split; [apply HC; compute_done|].
  split; [apply HF; compute_done|].
  exists out, vals', units'. repeat split; try done; apply HF; compute_done.
Defined.

(** C2.  The converter run a second time: in a table whose labels are not
    repeated, every row of a pair holds after the second run the magnitude
    and the unit it held after the first.  [_convert_one] applied to the
    pair it returned returns that pair again.  A row that holds a number
    and a canonical unit token (K, m, kg, s, Pa, N, J or 1) holds them after
    one run and after two. *)
Theorem canonical_pair_is_fixed df col vals units i value unit :
  NoDup (columns df) →
  Text.endswith col "_value" = true →
  (col, vals) ∈ df → (unit_col_of col, units) ∈ df →
  values vals !! i = Some value → values units !! i = Some unit →
  ∃ once twice vals1 units1 vals2 units2,
    convert_units_to_SI df = Some once ∧
    convert_units_to_SI once = Some twice ∧
    (col, vals1) ∈ once ∧ (unit_col_of col, units1) ∈ once ∧
    (col, vals2) ∈ twice ∧ (unit_col_of col, units2) ∈ twice ∧
    values vals2 !! i = values vals1 !! i ∧
    values units2 !! i = values units1 !! i ∧
    _convert_one (_convert_one value unit).1 (_convert_one value unit).2
      = _convert_one value unit ∧
    (∀ f u, value = Num f → unit = Str u → u ∈ canonical_units →
       _convert_one value unit = (value, unit) ∧
       values vals1 !! i = Some value ∧ values units1 !! i = Some unit ∧
       values vals2 !! i = Some value ∧ values units2 !! i = Some unit).
Proof.
  intros Hnd He Hvals Hunits Hv Hu.
  destruct (convert_units_to_SI_row df col vals units i value unit)
    as (once & vals1 & units1 & Honce & H1 & H2 & H3 & H4); try done.
  assert (NoDup (columns once)) as Hnd'.
  { rewrite (convert_units_to_SI_converted df Hnd) in Honce.
    injection Honce as <-. by rewrite columns_relabel. }
  destruct (convert_units_to_SI_row once col vals1 units1 i _ _ Hnd' He H1 H2 H3 H4)
    as (twice & vals2 & units2 & Htwice & H5 & H6 & H7 & H8).
  rewrite convert_one_coerced in H7, H8. simpl in H7, H8.
  exists once, twice, vals1, units1, vals2, units2.
  repeat split; try done.
  - by rewrite H7, H3.
  - by rewrite H8, H4.
  - apply convert_one_idempotent.
  - subst. by apply convert_one_canonical.
  - subst. by rewrite H3, convert_one_canonical.
  - subst. by rewrite H4, convert_one_canonical.
  - subst. by rewrite H7, convert_one_canonical.
  - subst. by rewrite H8, convert_one_canonical.
Qed.

Lemma canonical_pair_is_fixed_witness :
  _convert_one (Num 100) (Str "K") = (Num 100, Str "K") ∧
  ∃ once twice vals2 units2,
    convert_units_to_SI kelvins = Some once ∧
    convert_units_to_SI once = Some twice ∧
    ("t_value", vals2) ∈ twice ∧ ("t_unit", units2) ∈ twice ∧
    values vals2 !! 0 = Some (Num 100) ∧ values units2 !! 0 = Some (Str "K").
Proof.
  destruct (canonical_pair_is_fixed kelvins "t_value"
              (Float64 [100]%float) (Object [Str "K"]) 0 (Num 100) (Str "K"))
    as (once & twice & vals1 & units1 & vals2 & units2
        & Honce & Htwice & _ & _ & H1 & H2 & _ & _ & _ & H);
    [compute_done | reflexivity | unfold kelvins; member ..
    | reflexivity | reflexivity |].
  destruct (H 100%float "K" eq_refl eq_refl) as (H3 & _ & _ & H4 & H5);
    [compute_done|].
  split; [exact H3|]. by exists once, twice, vals2, units2.
Defined.







(** C8.  On a table whose labels are not repeated, the converter returns a
    table with the same labels in the same order; a column that belongs to
    no pair is the same column in the result; the two columns of a pair are
    in the result what [convert_pair] makes of these two columns alone, so
    no pair depends on another. *)
Theorem converter_writes_only_pairs df :
  NoDup (columns df) →
  ∃ out,
    convert_units_to_SI df = Some out ∧
    columns out = columns df ∧
    (∀ n s, (n, s) ∈ df → in_pair df n = false → (n, s) ∈ out) ∧
    (∀ col vals units,
       Text.endswith col "_value" = true →
       (col, vals) ∈ df → (unit_col_of col, units) ∈ df →
       (col, (convert_pair vals units).1) ∈ out ∧
       (unit_col_of col, (convert_pair vals units).2) ∈ out).
Proof.
  intros Hnd. exists (relabel (converted df) df).
  split; [by apply convert_units_to_SI_converted|].
  split; [apply columns_relabel|]. split.
  - intros n s Hin Hp. apply list_elem_of_fmap. exists (n, s). split; [|done].
    simpl. rewrite converted_other; [done| |done].
    apply list_elem_of_fmap. by exists (n, s).
  - intros col vals units He Hvals Hunits.
    assert (is_value_col df col = true) as Hvc.
    { unfold is_value_col. rewrite He. simpl. apply bool_decide_eq_true.
      apply list_elem_of_fmap. by exists (unit_col_of col, units). }
    split.
    + apply list_elem_of_fmap. exists (col, vals). split; [|done]. simpl.
      by rewrite (converted_value df col vals units); eauto using getitem_elem_of.
    + apply list_elem_of_fmap. exists (unit_col_of col, units). split; [|done]. simpl.
      rewrite (converted_unit df col vals units); eauto using getitem_elem_of.
      apply list_elem_of_fmap. by exists (col, vals).
Qed.

Lemma converter_writes_only_pairs_witness :
  ∃ out,
    convert_units_to_SI measurements = Some out ∧
    columns out = ["id"; "len_value"; "len_unit"; "temp_value"; "temp_unit"; "count"] ∧
    ("id", Object [Str "a"; Str "b"]) ∈ out ∧
    ("count", Float64 [1; 2]%float) ∈ out ∧
    ("temp_value", Float64 [273.15; 273.15]%float) ∈ out ∧
    ("temp_unit", Object [Str "K"; Str "K"]) ∈ out.
Proof.
  destruct (converter_writes_only_pairs measurements) as (out & Hout & Hc & Hf & Hp);
    [compute_done|].
  exists out. split; [done|]. split; [done|].
  split; [apply Hf; [unfold measurements; member | reflexivity]|].
  split; [apply Hf; [unfold measurements; member | reflexivity]|].
  apply (Hp "temp_value" (Float64 [0; 32]%float) (Object [Str "C"; Str "F"]));
    [reflexivity | unfold measurements; member ..].
Defined.

(** ** Loops over the columns

    A loop whose body rewrites the column it visits, and no other, maps the
    table column by column. *)

Lemma update_middle f n s (pre post : DataFrame) :
  n ∉ columns pre → n ∉ columns post →
  update f n (pre ++ (n, s) :: post) = pre ++ (n, f s) :: post.
Proof.
  intros H1 H2. unfold update. rewrite fmap_app, fmap_cons. simpl.
  rewrite bool_decide_true by done. f_equal; [|f_equal].
  - rewrite <- (list_fmap_id pre) at 2. apply list_fmap_ext.
    intros i [m t] Hi. simpl. rewrite bool_decide_false; [done|].
    intros ->. apply H1. apply list_elem_of_fmap. exists (n, t).
    split; [done|]. by eapply list_elem_of_lookup_2.
  - rewrite <- (list_fmap_id post) at 2. apply list_fmap_ext.
    intros i [m t] Hi. simpl. rewrite bool_decide_false; [done|].
    intros ->. apply H2. apply list_elem_of_fmap. exists (n, t).
    split; [done|]. by eapply list_elem_of_lookup_2.
Qed.

Lemma for_each_columns_from body (g : Series → option Series) (pre rest : DataFrame) :
  (∀ d col s, getitem d col = Some s →
     body d col = s' ← g s; Some (update (λ _, s') col d)) →
  NoDup (columns (pre ++ rest)) →
  for_each (columns rest) body (pre ++ rest)
  = rest' ← mapM (λ c, s' ← g c.2; Some (c.1, s')) rest; Some (pre ++ rest').
Proof.
  intros Hbody. revert pre. induction rest as [|[n s] rest IH]; intros pre Hnd.
  { simpl. done. }
  unfold columns in *. rewrite fmap_cons. simpl.
  assert ((n ∉ pre.*1) ∧ (n ∉ rest.*1)) as [Hpre Hrest].
  { rewrite fmap_app, fmap_cons in Hnd. simpl in Hnd.
    apply NoDup_app in Hnd as (_ & Hd & Hr). apply NoDup_cons in Hr as [Hr _].
    split; [|done]. intros Hin. apply (Hd n Hin). apply list_elem_of_here. }
  rewrite (Hbody _ n s).
  2:{ apply getitem_elem_of; [done|]. apply elem_of_app. right. apply list_elem_of_here. }
  destruct (g s) as [s'|]; simpl; [|done].
  rewrite update_middle by done.
  rewrite (cons_middle (n, s') pre rest), app_assoc.
  rewrite IH.
  2:{ rewrite <- app_assoc, <- cons_middle.
      rewrite fmap_app, fmap_cons in *. simpl in *. done. }
  destruct (mapM _ rest) as [rest'|]; simpl; [|done].
  by rewrite <- app_assoc.
Qed.

(** A loop over the columns whose body [body] rewrites the column [n] with
    [f] yields the table mapped by [f]; it raises when [f] does. *)
Lemma for_each_columns body (g : Series → option Series) (df : DataFrame) :
  (∀ d col s, getitem d col = Some s →
     body d col = s' ← g s; Some (update (λ _, s') col d)) →
  NoDup (columns df) →
  for_each (columns df) body df = mapM (λ c, s' ← g c.2; Some (c.1, s')) df.
Proof.
  intros Hbody Hnd. pose proof (for_each_columns_from body g [] df Hbody Hnd) as H.
  simpl in H. rewrite H. by destruct (mapM _ df).
Qed.

Lemma update_same df col s :
  getitem df col = Some s → update (λ _, s) col df = df.
Proof.
  intros H. rewrite update_relabel. apply relabel_id. intros n t Hin.
  case_bool_decide; [|done]. subst. symmetry. by eapply getitem_Some_unique.
Qed.

Lemma setitem_present df col s s' :
  getitem df col = Some s → setitem df col s' = update (λ _, s') col df.
Proof.
  intros H. unfold setitem. by rewrite bool_decide_true by (by eapply getitem_Some_column).
Qed.

Lemma getitem_update df col f s :
  getitem df col = Some s → getitem (update f col df) col = Some (f s).
Proof.
  intros H. rewrite update_relabel, getitem_relabel, H. simpl.
  by rewrite bool_decide_true.
Qed.

Lemma update_update f g col df :
  update f col (update g col df) = update (λ s, f (g s)) col df.
Proof.
  rewrite !update_relabel, relabel_relabel. apply relabel_ext.
  intros n s _. by case_bool_decide.
Qed.

(** ** The decimal repairer *)

Lemma fix_column_series d col s :
  getitem d col = Some s →
  fix_column d col = s' ← fix_series s; Some (update (λ _, s') col d).
Proof.
  intros H. unfold fix_column, fix_series. rewrite H. simpl.
  case_bool_decide; simpl.
  - destruct (str_map _ s) as [s1|]; simpl; [|done].
    rewrite (setitem_present _ _ s) by done.
    rewrite (getitem_update _ _ _ s) by done. simpl.
    rewrite (setitem_present _ _ s1) by (by apply getitem_update with (s := s)).
    by rewrite update_update.
  - by rewrite update_same.
Qed.

Lemma fix_decimal_commas_series df :
  NoDup (columns df) →
  fix_decimal_commas df = mapM (λ c, s' ← fix_series c.2; Some (c.1, s')) df.
Proof.
  intros Hnd. unfold fix_decimal_commas.
  apply for_each_columns; [|done]. apply fix_column_series.
Qed.



Lemma mapM_columns (g : Series → option Series) (h : Series → Series) (df : DataFrame) :
  (∀ n s, (n, s) ∈ df → g s = Some (h s)) →
  mapM (λ c, s' ← g c.2; Some (c.1, s')) df = Some (relabel (λ _, h) df).
Proof.
  intros H. apply mapM_Some. unfold relabel.
  apply Forall2_fmap_r. apply Forall_Forall2_diag. apply Forall_forall.
  intros [n s] Hin. simpl. by rewrite (H n s Hin).
Qed.

Lemma relabel_lookup g (df : DataFrame) i n s :
  df !! i = Some (n, s) → relabel g df !! i = Some (n, g n s).
Proof. intros H. unfold relabel. by rewrite list_lookup_fmap, H. Qed.

Lemma sub_decimal_comma_chars_from b t k :
  Text.chars (sub_decimal_comma b t) !! k
  = (λ c, if bool_decide (c = ","%char)
             && match k with 0 => b | S k' => digit_at (Text.chars t) k' end
             && digit_at (Text.chars t) (S k)
          then "."%char else c) <$> Text.chars t !! k.
Proof.
  revert b k. induction t as [|c t IH]; intros b k; [done|].
  destruct k as [|k].
  - simpl. unfold digit_at. destruct t; done.
  - change (Text.chars (sub_decimal_comma b (String c t)) !! S k)
      with (Text.chars (sub_decimal_comma (Text.is_digit c) t) !! k).
    change (Text.chars (String c t) !! S k) with (Text.chars t !! k).
    rewrite IH. destruct (Text.chars t !! k) as [c'|]; [|done]. simpl.
    do 2 f_equal. destruct k; done.
Qed.

Lemma sub_decimal_comma_chars t k :
  Text.chars (sub_decimal_comma false t) !! k
  = (λ c, if decimal_comma (Text.chars t) k then "."%char else c)
    <$> Text.chars t !! k.
Proof.
  rewrite sub_decimal_comma_chars_from. unfold decimal_comma.
  destruct (Text.chars t !! k) as [c|] eqn:E; [|done]. simpl.
  destruct (decide (c = ","%char)) as [->|Hc].
  - by rewrite !bool_decide_true.
  - rewrite !bool_decide_false; [done|congruence|done].
Qed.



(** The [.str] accessor refuses an object column that holds numbers only:
    this is the case that [text_columns] leaves out. *)
Example numbers_in_object_column_are_refused :
  fix_decimal_commas [("a", Object [Num 1; Num 2])] = None.
Proof. reflexivity. Qed.

(** ** The missing-value tagger *)

Lemma replace_cells_foldl ps (df : DataFrame) :
  foldl (λ d p, replace_regex p d) df ps
  = relabel (λ _ s, match s with
                    | Object cells =>
                        Object ((λ c, foldl (λ c p, replace_cell p c) c ps) <$> cells)
                    | Float64 _ => s
                    end) df.
Proof.
  revert df. induction ps as [|p ps IH]; intros df; simpl.
  - symmetry. apply relabel_id. intros n [cells|] _; [|done].
    by rewrite list_fmap_id.
  - rewrite IH. unfold replace_regex. fold (relabel (λ _ s, match s with
      | Object cells => Object (replace_cell p <$> cells) | Float64 _ => s end) df).
    rewrite relabel_relabel. apply relabel_ext. intros n [cells|] _; [|done].
    by rewrite <- list_fmap_compose.
Qed.

Lemma replace_cell_NA ps : foldl (λ c p, replace_cell p c) NA ps = NA.
Proof. induction ps; simpl; done. Qed.

Lemma replace_cell_Num ps f : foldl (λ c p, replace_cell p c) (Num f) ps = Num f.
Proof. induction ps; simpl; done. Qed.

Lemma replace_cell_Str ps t :
  foldl (λ c p, replace_cell p c) (Str t) ps
  = if existsb (λ p, search p t) ps then NA else Str t.
Proof.
  induction ps as [|p ps IH]; simpl; [done|].
  destruct (search p t); simpl; [apply replace_cell_NA|apply IH].
Qed.

Lemma is_sentinel_patterns t :
  existsb (λ p, search p t) missing_patterns = is_sentinel t.
Proof.
  unfold is_sentinel, missing_patterns. cbn [existsb search].
  rewrite !orb_false_r, !orb_assoc. done.
Qed.

Lemma replace_cell_tagged c :
  foldl (λ c p, replace_cell p c) c missing_patterns = tagged c.
Proof.
  destruct c as [|t|f].
  - apply replace_cell_NA.
  - rewrite replace_cell_Str, is_sentinel_patterns. done.
  - apply replace_cell_Num.
Qed.




(** ** The whitespace stripper *)

Lemma set_columns_strip (df : DataFrame) :
  set_columns (Text.strip <$> columns df) df = (λ c, (Text.strip c.1, c.2)) <$> df.
Proof.
  unfold set_columns, columns. induction df as [|[n s] df IH]; [done|].
  rewrite !fmap_cons. simpl. by rewrite IH.
Qed.

Lemma str_accepts_astype_str s : str_accepts (astype_str s) = true.
Proof.
  unfold astype_str, str_accepts. destruct (values s) as [|c l]; [done|].
  rewrite fmap_cons, filter_cons. rewrite decide_True by done.
  rewrite bool_decide_false by done. done.
Qed.

Lemma strip_column_series d col s :
  getitem d col = Some s →
  strip_column d col = s' ← Some (strip_series s); Some (update (λ _, s') col d).
Proof.
  intros H. unfold strip_column. rewrite H. simpl.
  case_bool_decide as Hd; simpl.
  - unfold str_map. rewrite str_accepts_astype_str. simpl.
    rewrite (setitem_present _ _ s) by done. do 2 f_equal.
    destruct s as [cells|]; [|done]. simpl.
    by rewrite <- list_fmap_compose.
  - destruct s; [done|]. simpl. by rewrite update_same.
Qed.

Lemma strip_whitespace_series df :
  NoDup (Text.strip <$> columns df) →
  strip_whitespace df = Some ((λ c, (Text.strip c.1, strip_series c.2)) <$> df).
Proof.
  intros Hnd. unfold strip_whitespace. rewrite set_columns_strip.
  assert (columns ((λ c : string * Series, (Text.strip c.1, c.2)) <$> df)
          = Text.strip <$> columns df) as Hc.
  { unfold columns. rewrite <- !list_fmap_compose. done. }
  rewrite (for_each_columns _ (λ s, Some (strip_series s))).
  - etransitivity;
      [apply (mapM_columns (λ s, Some (strip_series s)) strip_series); done|].
    f_equal. unfold relabel. rewrite <- list_fmap_compose. done.
  - apply strip_column_series.
  - by rewrite Hc.
Qed.

Lemma float_repr_nan f : PrimFloat.is_nan f = true → Numeral.float_repr f = "nan".
Proof. intros H. unfold Numeral.float_repr, Prim2SF. by rewrite H. Qed.

Lemma stripped_missing c :
  isna c = true → stripped c = Str "<NA>" ∨ stripped c = Str "nan".
Proof.
  destruct c as [|t|f]; simpl; [by left|done|].
  intros H. right. unfold stripped. simpl. by rewrite float_repr_nan.
Qed.

(** C10.  When the stripped labels are not repeated, the stripper does not
    raise; an object column comes back with the stripped label and every
    cell [c] as the text [str(c).strip()].  A missing cell comes back as one
    of the texts <NA> and nan, which is not missing. *)
Theorem strip_loses_missingness df :
  NoDup (Text.strip <$> columns df) →
  ∃ out,
    strip_whitespace df = Some out ∧
    ∀ i n cells, df !! i = Some (n, Object cells) →
      out !! i = Some (Text.strip n, Object (stripped <$> cells)) ∧
      ∀ j c, cells !! j = Some c → isna c = true →
        (stripped <$> cells) !! j = Some (stripped c) ∧
        (stripped c = Str "<NA>" ∨ stripped c = Str "nan") ∧
        isna (stripped c) = false.
Proof.
  intros Hnd. eexists. split; [by apply strip_whitespace_series|].
  intros i n cells Hi. split.
  - by rewrite list_lookup_fmap, Hi.
  - intros j c Hj Hc. split; [by rewrite list_lookup_fmap, Hj|].
    split; [by apply stripped_missing|done].
Qed.

Lemma strip_loses_missingness_witness :
  ∃ out,
    strip_whitespace survey = Some out ∧
    out !! 0 = Some ("name", Object [Str "Ada"; Str "<NA>"; Str "nan"]).
Proof.
  destruct (strip_loses_missingness survey) as (out & Hout & H); [compute_done|].
  exists out. split; [done|].
  destruct (H 0 " name " [Str " Ada "; NA; NaN] eq_refl) as [-> _]. reflexivity.
Defined.

(** ** The unit extractor *)

Lemma str_extract_astype_str s :
  str_extract (astype_str s)
  = Some (Object ((λ c, group fst (py_str c)) <$> values s),
          Object ((λ c, group snd (py_str c)) <$> values s)).
Proof.
  unfold str_extract, str_map. rewrite str_accepts_astype_str. simpl.
  by rewrite <- !list_fmap_compose.
Qed.

Lemma group_isna pick t :
  isna (group pick t) = negb (bool_decide (is_Some (numeral_with_unit t))).
Proof.
  unfold group. destruct (numeral_with_unit t) as [g|].
  - rewrite bool_decide_true by done. done.
  - rewrite bool_decide_false by (by intros [??]). done.
Qed.

Lemma forallb_isna_group pick (cells : list cell) :
  forallb isna ((λ c, group pick (py_str c)) <$> cells) = negb (existsb matches cells).
Proof.
  induction cells as [|c cells IH]; [done|].
  rewrite fmap_cons. simpl. rewrite IH, group_isna. unfold matches.
  by rewrite negb_orb.
Qed.

Lemma any_match_promoted (cells : list cell) :
  any_match (Object ((λ c, group fst (py_str c)) <$> cells),
             Object ((λ c, group snd (py_str c)) <$> cells))
  = existsb matches cells.
Proof.
  unfold any_match. simpl. rewrite !forallb_isna_group.
  by destruct (existsb matches cells).
Qed.

Lemma str_accepts_groups (cells : list cell) :
  existsb matches cells = true →
  str_accepts (Object ((λ c, group fst (py_str c)) <$> cells)) = true.
Proof.
  intros H. simpl. apply orb_true_intro. right.
  induction cells as [|c cells IH]; [done|].
  rewrite fmap_cons, filter_cons. simpl in H.
  destruct (matches c) eqn:E.
  - unfold matches in E. apply bool_decide_eq_true in E as [g E].
    rewrite decide_True by (unfold group; by rewrite E).
    simpl. unfold group. by rewrite E.
  - simpl in H. destruct (decide _); simpl; [|by apply IH].
    rewrite (IH H). by rewrite orb_true_r.
Qed.

Lemma extract_column_spec d order n s :
  getitem d n = Some s →
  extract_column (d, order) n
  = Some (if promoted s then
            (setitem (setitem d (n +:+ "_value") (value_column s))
                     (n +:+ "_unit") (unit_column s),
             order ++ [n +:+ "_value"; n +:+ "_unit"])
          else (d, order ++ [n])).
Proof.
  intros H. unfold extract_column. rewrite H. simpl.
  destruct s as [cells|numbers]; [|done].
  rewrite bool_decide_true by done.
  rewrite str_extract_astype_str. simpl.
  rewrite any_match_promoted.
  destruct (existsb matches cells) eqn:E; [|done].
  unfold str_map. rewrite str_accepts_groups by done. simpl.
  do 4 f_equal.
  - unfold value_column. simpl. f_equal. rewrite <- !list_fmap_compose.
    apply list_fmap_ext. intros ? c _. simpl.
    unfold group, split_cell. destruct (numeral_with_unit (py_str c)) as [[m u]|]; done.
  - unfold unit_column. simpl. f_equal.
    apply list_fmap_ext. intros ? c _. simpl.
    unfold group, split_cell. destruct (numeral_with_unit (py_str c)) as [[m u]|]; done.
Qed.

Lemma fresh_names_elem_of df n s :
  fresh_names df = true → (n, s) ∈ df → promoted s = true →
  (n +:+ "_value" ∉ columns df) ∧ (n +:+ "_unit" ∉ columns df).
Proof.
  unfold fresh_names. intros H Hin Hp.
  rewrite forallb_forall in H. apply list_elem_of_In in Hin.
  specialize (H _ Hin). simpl in H. rewrite Hp in H. simpl in H.
  by apply bool_decide_eq_true in H.
Qed.

Lemma value_name_not_unit_name a b : a +:+ "_value" ≠ b +:+ "_unit".
Proof.
  intros H. pose proof (endswith_app a "_value") as H1.
  apply value_not_unit in H1. by rewrite H, endswith_app in H1.
Qed.

Lemma added_cons c l :
  added (c :: l) = (if promoted c.2 then extracted_columns c else []) ++ added l.
Proof. reflexivity. Qed.

Lemma added_app l k : added (l ++ k) = added l ++ added k.
Proof. unfold added. apply bind_app. Qed.

Lemma columns_app (l k : DataFrame) : columns (l ++ k) = columns l ++ columns k.
Proof. unfold columns. apply fmap_app. Qed.

Lemma elem_of_columns_added x l :
  x ∈ columns (added l) →
  ∃ n s, (n, s) ∈ l ∧ promoted s = true ∧ (x = n +:+ "_value" ∨ x = n +:+ "_unit").
Proof.
  induction l as [|[n s] l IH]; [by intros H%elem_of_nil|].
  rewrite added_cons, columns_app. intros [H|H]%elem_of_app.
  - exists n, s. split; [apply list_elem_of_here|]. simpl in H.
    unfold extracted_columns in H. simpl in H. revert H.
    destruct (promoted s); intros H.
    + split; [done|].
      apply elem_of_cons in H as [H|H]; [by left|].
      apply elem_of_cons in H as [H|H]; [by right|]. by apply elem_of_nil in H.
    + by apply elem_of_nil in H.
  - destruct (IH H) as (m & t & Hin & Hp & Hx). exists m, t.
    split; [by apply list_elem_of_further|done].
Qed.

Lemma NoDup_columns_added l : NoDup (columns l) → NoDup (columns (added l)).
Proof.
  induction l as [|[n s] l IH]; [intros _; constructor|].
  intros Hnd. unfold columns in Hnd. rewrite fmap_cons in Hnd. simpl in Hnd.
  apply NoDup_cons in Hnd as [Hn Hl].
  rewrite added_cons, columns_app. apply NoDup_app. split; [|split].
  - simpl. unfold extracted_columns. simpl. destruct (promoted s); [|constructor].
    apply NoDup_cons. split; [|apply NoDup_singleton].
    intros H%list_elem_of_singleton. by apply value_name_not_unit_name in H.
  - intros x Hx Hx'. apply elem_of_columns_added in Hx' as (m & t & Hin & _ & Hm).
    assert (m ≠ n) as Hne.
    { intros ->. apply Hn. apply list_elem_of_fmap. by exists (n, t). }
    simpl in Hx. unfold extracted_columns in Hx. simpl in Hx. revert Hx.
    destruct (promoted s); intros Hx; [|by apply elem_of_nil in Hx].
    apply elem_of_cons in Hx as [->|Hx].
    + destruct Hm as [Hm|Hm]; [by apply append_inj_r in Hm|].
      by apply value_name_not_unit_name in Hm.
    + apply list_elem_of_singleton in Hx as ->.
      destruct Hm as [Hm|Hm]; [|by apply append_inj_r in Hm].
      symmetry in Hm. by apply value_name_not_unit_name in Hm.
  - by apply IH.
Qed.

Lemma NoDup_columns_with_added df :
  NoDup (columns df) → fresh_names df = true → NoDup (columns (df ++ added df)).
Proof.
  intros Hnd Hf. rewrite columns_app. apply NoDup_app. split; [done|split].
  - intros x Hx Hx'. apply elem_of_columns_added in Hx' as (n & s & Hin & Hp & Hn).
    destruct (fresh_names_elem_of df n s Hf Hin Hp) as [H1 H2].
    destruct Hn as [->| ->]; done.
  - by apply NoDup_columns_added.
Qed.

Lemma select_all (d l : DataFrame) :
  (∀ n s, (n, s) ∈ l → getitem d n = Some s) → select d (columns l) = Some l.
Proof.
  intros H. unfold select, columns. apply mapM_Some.
  apply Forall2_fmap_l. apply Forall_Forall2_diag. apply Forall_forall.
  intros [n s] Hin. simpl. by rewrite (H n s Hin).
Qed.

(** The invariant of the loop of the extractor: after the columns [pre],
    the table holds the columns it had, followed by those that the promoted
    columns of [pre] added, and the new order lists what replaces [pre]. *)
Lemma extract_loop df pre rest order :
  df = pre ++ rest →
  NoDup (columns (df ++ added df)) →
  for_each (columns rest) extract_column (df ++ added pre, order)
  = Some (df ++ added df, order ++ columns (rest ≫= extracted_columns)).
Proof.
  intros Hdf Hnd. revert pre order Hdf.
  induction rest as [|[n s] rest IH]; intros pre order Hdf.
  { simpl. rewrite app_nil_r in *. by subst. }
  change (columns ((n, s) :: rest)) with (n :: columns rest). cbn [for_each].
  assert (NoDup (columns (df ++ added (pre ++ [(n, s)])))) as Hnd'.
  { rewrite Hdf in Hnd at 2. rewrite (cons_middle (n, s) pre rest), app_assoc in Hnd.
    rewrite added_app, app_assoc, columns_app in Hnd.
    by apply NoDup_app in Hnd as [Hnd _]. }
  assert (NoDup (columns (df ++ added pre))) as Hnd''.
  { rewrite added_app, app_assoc, columns_app in Hnd'.
    by apply NoDup_app in Hnd' as [Hnd' _]. }
  rewrite (extract_column_spec _ _ _ s).
  2:{ apply getitem_elem_of; [done|]. apply elem_of_app. left. rewrite Hdf.
      apply elem_of_app. right. apply list_elem_of_here. }
  cbn [mbind option_bind].
  assert ((if promoted s
           then (setitem (setitem (df ++ added pre) (n +:+ "_value") (value_column s))
                   (n +:+ "_unit") (unit_column s),
                 order ++ [n +:+ "_value"; n +:+ "_unit"])
           else (df ++ added pre, order ++ [n]))
          = (df ++ added (pre ++ [(n, s)]),
             order ++ columns (extracted_columns (n, s)))) as ->.
  { rewrite added_app. unfold added at 3. simpl. rewrite app_nil_r.
    unfold extracted_columns. simpl.
    destruct (promoted s) eqn:Hp; [|by rewrite app_nil_r].
    rewrite added_app in Hnd'. unfold added at 2 in Hnd'. simpl in Hnd'.
    rewrite app_nil_r in Hnd'. unfold extracted_columns in Hnd'. simpl in Hnd'.
    rewrite Hp in Hnd'. rewrite app_assoc, columns_app in Hnd'.
    apply NoDup_app in Hnd' as (_ & Hd & _).
    f_equal. unfold setitem at 2.
    rewrite bool_decide_false.
    2:{ intros Hin. apply (Hd _ Hin). apply list_elem_of_here. }
    unfold setitem. rewrite bool_decide_false.
    2:{ rewrite columns_app. intros [Hin|Hin]%elem_of_app.
        - apply (Hd _ Hin). apply list_elem_of_further, list_elem_of_here.
        - apply list_elem_of_singleton in Hin.
          symmetry in Hin. by apply value_name_not_unit_name in Hin. }
    by rewrite <- !app_assoc. }
  rewrite (IH (pre ++ [(n, s)])).
  - f_equal. f_equal. rewrite <- app_assoc. f_equal.
    change ((n, s) :: rest) with ([(n, s)] ++ rest).
    rewrite bind_app, columns_app. simpl. by rewrite app_nil_r.
  - by rewrite <- app_assoc.
Qed.




(** ** The stages over the store

    Each stage copies the table it receives and works on the copy. *)

Lemma bind_Some {A B} (m : M A) (f : A → M B) (σ σ' : store) x :
  m σ = Some (x, σ') → (m ≫= f) σ = f x σ'.
Proof. intros H. unfold mbind, M_bind. by rewrite H. Qed.

Lemma bind_None {A B} (m : M A) (f : A → M B) (σ : store) :
  m σ = None → (m ≫= f) σ = None.
Proof. intros H. unfold mbind, M_bind. by rewrite H. Qed.

Lemma fresh_None (σ : store) : σ !! fresh (dom σ) = None.
Proof. apply not_elem_of_dom. apply is_fresh. Qed.

Lemma read_Some (σ : store) r t : σ !! r = Some t → read r σ = Some (t, σ).
Proof. intros H. unfold read. by rewrite H. Qed.

Lemma copy_Some (σ : store) df t :
  σ !! df = Some t →
  copy df σ = Some (fresh (dom σ), <[fresh (dom σ) := t]> σ).
Proof. intros H. unfold copy. by rewrite (bind_Some _ _ _ _ _ (read_Some _ _ _ H)). Qed.

Lemma mutate_Some (σ : store) r f t :
  σ !! r = Some t →
  mutate r f σ = t' ← f t; Some ((), <[r := t']> σ).
Proof.
  intros H. unfold mutate, modify. rewrite H. simpl. by destruct (f t).
Qed.

Lemma for_st_mutate {A} (xs : list A) (body : DataFrame → A → option DataFrame)
    r (σ : store) t :
  σ !! r = Some t →
  for_st xs (λ _ x, mutate r (λ t, body t x)) () σ
  = t' ← for_each xs body t; Some ((), <[r := t']> σ).
Proof.
  revert σ t. induction xs as [|x xs IH]; intros σ t H; simpl.
  - by rewrite insert_id.
  - destruct (body t x) as [t1|] eqn:E; simpl.
    + rewrite (bind_Some _ _ _ (<[r := t1]> σ) ()).
      2:{ rewrite (mutate_Some _ _ _ t) by done. by rewrite E. }
      rewrite (IH _ t1) by apply lookup_insert_eq.
      destruct (for_each xs body t1); simpl; [|done].
      by rewrite insert_insert_eq.
    + apply bind_None. rewrite (mutate_Some _ _ _ t) by done. by rewrite E.
Qed.

Lemma for_st_modify {A S} (xs : list A) (body : DataFrame * S → A → option (DataFrame * S))
    r (σ : store) t (s : S) :
  σ !! r = Some t →
  for_st xs (λ s x, modify r (λ t, body (t, s) x)) s σ
  = ts ← for_each xs body (t, s); Some (ts.2, <[r := ts.1]> σ).
Proof.
  revert σ t s. induction xs as [|x xs IH]; intros σ t s H; simpl.
  - by rewrite insert_id.
  - destruct (body (t, s) x) as [[t1 s1]|] eqn:E; simpl.
    + rewrite (bind_Some _ _ _ (<[r := t1]> σ) s1).
      2:{ unfold modify. rewrite H. simpl. by rewrite E. }
      rewrite (IH _ t1) by apply lookup_insert_eq.
      destruct (for_each xs body (t1, s1)); simpl; [|done].
      by rewrite insert_insert_eq.
    + apply bind_None. unfold modify. rewrite H. simpl. by rewrite E.
Qed.

Lemma for_st_alloc {A} (xs : list A) (step : A → DataFrame → DataFrame)
    r (σ : store) t :
  σ !! r = Some t →
  ∃ r' σ', for_st xs (λ r x, t ← read r; alloc (step x t)) r σ = Some (r', σ') ∧
           σ ⊆ σ' ∧ σ' !! r' = Some (foldl (λ d x, step x d) t xs) ∧
           (r' = r ∨ σ !! r' = None).
Proof.
  revert r σ t. induction xs as [|x xs IH]; intros r σ t H; simpl.
  - exists r, σ. repeat split; try done. by left.
  - set (r1 := fresh (dom σ)). set (σ1 := <[r1 := step x t]> σ).
    destruct (IH r1 σ1 (step x t)) as (r' & σ' & Hrun & Hsub & Hr' & Hfresh).
    { apply lookup_insert_eq. }
    exists r', σ'. split; [|split; [|split]].
    + rewrite (bind_Some _ _ _ σ1 r1); [done|].
      by rewrite (bind_Some _ _ _ _ _ (read_Some _ _ _ H)).
    + etrans; [|exact Hsub]. apply insert_subseteq, fresh_None.
    + done.
    + right. destruct Hfresh as [->|Hn]; [apply fresh_None|].
      unfold σ1 in Hn. apply lookup_insert_None in Hn. tauto.
Qed.

Lemma insert_fresh_subseteq (σ : store) t : σ ⊆ <[fresh (dom σ) := t]> σ.
Proof. apply insert_subseteq, fresh_None. Qed.

Lemma lookup_None_subseteq (σ σ' : store) r : σ ⊆ σ' → σ' !! r = None → σ !! r = None.
Proof. intros Hs Hn. by eapply lookup_weaken_None. Qed.

Lemma remove_empty_runs :
  runs_as remove_empty_rows_and_columns_st (λ t, Some (remove_empty_rows_and_columns t)).
Proof.
  intros σ df t H. simpl. unfold remove_empty_rows_and_columns_st.
  set (r1 := fresh (dom σ)). set (σ1 := <[r1 := t]> σ).
  set (t2 := replace_regex Blank t).
  set (r2 := fresh (dom σ1)). set (σ2 := <[r2 := t2]> σ1).
  set (t3 := remove_empty_rows_and_columns t).
  set (r3 := fresh (dom σ2)). set (σ3 := <[r3 := t3]> σ2).
  exists r3, σ3.
  assert (σ ⊆ σ3) as Hsub.
  { etrans; [apply insert_fresh_subseteq|]. etrans; apply insert_fresh_subseteq. }
  split; [|split; [done|split]].
  - rewrite (bind_Some _ _ _ σ1 r1) by (by apply copy_Some).
    rewrite (bind_Some _ _ _ σ1 t) by apply read_Some, lookup_insert_eq.
    rewrite (bind_Some _ _ _ σ2 r2) by done.
    rewrite (bind_Some _ _ _ σ2 t2) by apply read_Some, lookup_insert_eq.
    rewrite (bind_Some _ _ _ σ3 r3) by done. done.
  - apply (lookup_None_subseteq _ σ2); [|apply fresh_None].
    etrans; apply insert_fresh_subseteq.
  - apply lookup_insert_eq.
Qed.

Lemma in_place_runs (stage_st : ref → M ref) (stage : DataFrame → option DataFrame) :
  (∀ (σ : store) df t, σ !! df = Some t →
     stage_st df σ
     = t' ← stage t; Some (fresh (dom σ), <[fresh (dom σ) := t']> σ)) →
  runs_as stage_st stage.
Proof.
  intros Hrun σ df t H. rewrite (Hrun σ df t H).
  destruct (stage t) as [t'|]; simpl; [|done].
  eexists _, _. split; [done|]. split; [apply insert_fresh_subseteq|].
  split; [apply fresh_None|apply lookup_insert_eq].
Qed.

Lemma strip_whitespace_runs : runs_as strip_whitespace_st strip_whitespace.
Proof.
  apply in_place_runs. intros σ df t H. unfold strip_whitespace_st, strip_whitespace.
  set (r := fresh (dom σ)). set (t1 := set_columns (Text.strip <$> columns t) t).
  rewrite (bind_Some _ _ _ (<[r := t]> σ) r) by (by apply copy_Some).
  rewrite (bind_Some _ _ _ (<[r := t1]> σ) ()).
  2:{ rewrite (mutate_Some _ _ _ t) by apply lookup_insert_eq. simpl.
      by rewrite insert_insert_eq. }
  rewrite (bind_Some _ _ _ (<[r := t1]> σ) t1) by apply read_Some, lookup_insert_eq.
  unfold mbind at 1, M_bind.
  rewrite (for_st_mutate _ strip_column r _ t1) by apply lookup_insert_eq.
  destruct (for_each (columns t1) strip_column t1); simpl; [|done].
  by rewrite insert_insert_eq.
Qed.

Lemma fix_decimal_commas_runs : runs_as fix_decimal_commas_st fix_decimal_commas.
Proof.
  apply in_place_runs. intros σ df t H. unfold fix_decimal_commas_st, fix_decimal_commas.
  set (r := fresh (dom σ)).
  rewrite (bind_Some _ _ _ (<[r := t]> σ) r) by (by apply copy_Some).
  rewrite (bind_Some _ _ _ (<[r := t]> σ) t) by apply read_Some, lookup_insert_eq.
  unfold mbind at 1, M_bind.
  rewrite (for_st_mutate _ fix_column r _ t) by apply lookup_insert_eq.
  destruct (for_each (columns t) fix_column t); simpl; [|done].
  by rewrite insert_insert_eq.
Qed.

Lemma convert_units_to_SI_runs : runs_as convert_units_to_SI_st convert_units_to_SI.
Proof.
  apply in_place_runs. intros σ df t H. unfold convert_units_to_SI_st, convert_units_to_SI.
  set (r := fresh (dom σ)).
  rewrite (bind_Some _ _ _ (<[r := t]> σ) r) by (by apply copy_Some).
  rewrite (bind_Some _ _ _ (<[r := t]> σ) t) by apply read_Some, lookup_insert_eq.
  unfold mbind at 1, M_bind.
  rewrite (for_st_mutate _ convert_column r _ t) by apply lookup_insert_eq.
  destruct (for_each (columns t) convert_column t); simpl; [|done].
  by rewrite insert_insert_eq.
Qed.

Lemma normalize_missing_values_runs :
  runs_as normalize_missing_values_st (λ t, Some (normalize_missing_values t)).
Proof.
  intros σ df t H. simpl. unfold normalize_missing_values_st.
  set (r := fresh (dom σ)). set (σ1 := <[r := t]> σ).
  destruct (for_st_alloc missing_patterns replace_regex r σ1 t)
    as (r' & σ' & Hrun & Hsub & Hr' & Hfresh); [apply lookup_insert_eq|].
  exists r', σ'. split; [|split; [|split]].
  - by rewrite (bind_Some _ _ _ σ1 r) by (by apply copy_Some).
  - etrans; [apply insert_fresh_subseteq|done].
  - destruct Hfresh as [->|Hn]; [apply fresh_None|].
    eapply lookup_None_subseteq; [apply insert_fresh_subseteq|done].
  - done.
Qed.

Lemma extract_numeric_and_unit_runs :
  runs_as extract_numeric_and_unit_st extract_numeric_and_unit.
Proof.
  intros σ df t H. unfold extract_numeric_and_unit_st, extract_numeric_and_unit.
  set (r := fresh (dom σ)). set (σ1 := <[r := t]> σ).
  assert (σ ⊆ σ1) as Hs1 by apply insert_fresh_subseteq.
  rewrite (bind_Some _ _ _ σ1 r) by (by apply copy_Some).
  rewrite (bind_Some _ _ _ σ1 t) by apply read_Some, lookup_insert_eq.
  pose proof (for_st_modify (columns t) extract_column r σ1 t [] (lookup_insert_eq _ _ _))
    as Hloop.
  destruct (for_each (columns t) extract_column (t, [])) as [[t1 order]|];
    cbn [mbind option_bind fst snd] in *.
  - set (σ2 := <[r := t1]> σ1) in *.
    rewrite (bind_Some _ _ _ σ2 order) by done.
    rewrite (bind_Some _ _ _ σ2 t1) by apply read_Some, lookup_insert_eq.
    destruct (select t1 order) as [t2|] eqn:E.
    + set (r2 := fresh (dom σ2)).
      exists r2, (<[r2 := t2]> σ2). split; [|split; [|split]].
      * rewrite (bind_Some _ _ _ σ2 t2) by done.
        by rewrite (bind_Some _ _ _ (<[r2 := t2]> σ2) r2).
      * etrans; [|apply insert_fresh_subseteq]. unfold σ2, σ1.
        rewrite insert_insert_eq. apply insert_fresh_subseteq.
      * apply (lookup_None_subseteq _ σ2); [|apply fresh_None].
        unfold σ2, σ1. rewrite insert_insert_eq. apply insert_fresh_subseteq.
      * apply lookup_insert_eq.
    + by apply bind_None.
  - by apply bind_None.
Qed.

(** C9.  Each of the six stages, run over the store on a reference to a
    table, returns a reference that is new and leaves every table that the
    store held, the input among them, as it was. *)
Theorem stages_leave_input_unchanged :
  runs_as remove_empty_rows_and_columns_st (λ t, Some (remove_empty_rows_and_columns t)) ∧
  runs_as strip_whitespace_st strip_whitespace ∧
  runs_as normalize_missing_values_st (λ t, Some (normalize_missing_values t)) ∧
  runs_as fix_decimal_commas_st fix_decimal_commas ∧
  runs_as extract_numeric_and_unit_st extract_numeric_and_unit ∧
  runs_as convert_units_to_SI_st convert_units_to_SI.
Proof.
  repeat split.
  - apply remove_empty_runs.
  - apply strip_whitespace_runs.
  - apply normalize_missing_values_runs.
  - apply fix_decimal_commas_runs.
  - apply extract_numeric_and_unit_runs.
  - apply convert_units_to_SI_runs.
Qed.

Lemma stages_leave_input_unchanged_witness :
  ∃ r σ',
    strip_whitespace_st 0 {[0 := survey]} = Some (r, σ') ∧
    σ' !! 0 = Some survey ∧ r ≠ 0 ∧
    σ' !! r = Some [("name", Object [Str "Ada"; Str "<NA>"; Str "nan"]);
                    ("age", Float64 [36; 41; 29]%float)].
Proof.
  destruct stages_leave_input_unchanged as (_ & H & _).
  specialize (H {[0 := survey]} 0 survey (lookup_singleton_eq _ _)).
  change (strip_whitespace survey)
    with (Some [("name", Object [Str "Ada"; Str "<NA>"; Str "nan"]);
                ("age", Float64 [36; 41; 29]%float)]) in H.
  destruct H as (r & σ' & Hrun & Hsub & Hfresh & Hr).
  exists r, σ'. split; [done|]. split; [|split; [|done]].
  - eapply lookup_weaken; [|exact Hsub]. apply lookup_singleton_eq.
  - intros ->. by rewrite lookup_singleton_eq in Hfresh.
Defined.

(** * Further properties of the stages *)

(** ** remove_empty_rows_and_columns: masks *)

Lemma masked_nil_l {A} (l : list A) : masked [] l = [].
Proof. reflexivity. Qed.

Lemma masked_cons {A} b m (x : A) l :
  masked (b :: m) (x :: l) = (if b then [x] else []) ++ masked m l.
Proof. reflexivity. Qed.

Lemma masked_fmap {A B} (f : A → B) m (l : list A) :
  masked m (f <$> l) = f <$> masked m l.
Proof.
  revert l. induction m as [|b m IH]; intros [|x l]; try done.
  rewrite fmap_cons, !masked_cons, fmap_app, IH. by destruct b.
Qed.

Lemma masked_pred {A} (p : A → bool) (l : list A) :
  masked (p <$> l) l = filter (λ x, p x = true) l.
Proof.
  induction l as [|x l IH]; [done|].
  rewrite fmap_cons, masked_cons, filter_cons, IH.
  destruct (decide (p x = true)) as [->|H]; [done|]. by destruct (p x).
Qed.


(** The rows that a mask keeps, counted from [k]. *)
Lemma masked_lookup {A} m (l : list A) k j :
  length l = length m →
  masked m l !! j = masked m (seq k (length m)) !! j ≫= λ i, l !! (i - k).
Proof.
  revert l k j. induction m as [|b m IH]; intros [|x l] k j Hlen; try done.
  simpl length. rewrite <- cons_seq, !masked_cons.
  assert (∀ j, masked m (seq (S k) (length m)) !! j ≫= (λ i, (x :: l) !! (i - k))
               = masked m (seq (S k) (length m)) !! j ≫= (λ i, l !! (i - S k))) as Hshift.
  { intros j'. destruct (masked m (seq (S k) (length m)) !! j') as [i|] eqn:E; [|done].
    simpl. assert (S k ≤ i) as Hi.
    { apply list_elem_of_lookup_2 in E.
      clear -E. revert k E. generalize (length m) at 1.
      induction m as [|b m IH]; intros n k E; [by apply elem_of_nil in E|].
      destruct n as [|n]; [by apply elem_of_nil in E|].
      rewrite <- cons_seq, masked_cons in E. apply elem_of_app in E as [E|E].
      - destruct b; [|by apply elem_of_nil in E].
        apply list_elem_of_singleton in E. lia.
      - apply IH in E. lia. }
    replace (i - k) with (S (i - S k)) by lia. done. }
  destruct b; simpl.
  - destruct j as [|j]; simpl.
    + by rewrite Nat.sub_diag.
    + rewrite (IH l (S k) j) by (by injection Hlen). apply eq_sym, Hshift.
  - rewrite (IH l (S k) j) by (by injection Hlen). apply eq_sym, Hshift.
Qed.

Lemma masked_seq_elem_of m k i :
  i ∈ masked m (seq k (length m)) ↔ k ≤ i ∧ m !! (i - k) = Some true.
Proof.
  revert k. induction m as [|b m IH]; intros k.
  { simpl. split; [intros H; by apply elem_of_nil in H|by intros [_ ?]]. }
  simpl length. rewrite <- cons_seq, masked_cons, elem_of_app, IH. split.
  - intros [H|[H1 H2]].
    + destruct b; [|by apply elem_of_nil in H].
      apply list_elem_of_singleton in H as ->. by rewrite Nat.sub_diag.
    + split; [lia|]. by replace (i - k) with (S (i - S k)) by lia.
  - intros [H1 H2]. destruct (decide (i = k)) as [->|Hne].
    + rewrite Nat.sub_diag in H2. injection H2 as ->. left. apply list_elem_of_here.
    + right. split; [lia|]. by replace (i - k) with (S (i - S k)) in H2 by lia.
Qed.

Lemma length_masked {A B} m (l : list A) (l' : list B) :
  length l = length m → length l' = length m →
  length (masked m l) = length (masked m l').
Proof.
  revert l l'. induction m as [|b m IH]; intros [|x l] [|y l'] H1 H2; try done.
  rewrite !masked_cons, !length_app.
  rewrite (IH l l') by (simpl in *; lia). by destruct b.
Qed.

(** ** remove_empty_rows_and_columns: the table returned *)

Lemma blank_blank c : replace_cell Blank (replace_cell Blank c) = replace_cell Blank c.
Proof.
  destruct c as [|t|f]; simpl; try done.
  destruct (Text.all Text.is_space t) eqn:E; simpl; [done|]. by rewrite E.
Qed.

Lemma present_blank c : present (replace_cell Blank c) = present c.
Proof. unfold present. by rewrite blank_blank. Qed.

Lemma present_isna c : present c = true → isna c = false.
Proof.
  unfold present. destruct c as [|t|f]; simpl; try done.
  intros H. by apply negb_true_iff in H.
Qed.

Lemma values_blank_series s :
  values (blank_series s) = replace_cell Blank <$> values s.
Proof.
  destruct s as [cells|numbers]; simpl; [done|].
  rewrite <- list_fmap_compose. by apply list_fmap_ext.
Qed.

Lemma values_mask_series m s : values (mask_series m s) = masked m (values s).
Proof. destruct s as [cells|numbers]; simpl; [done|]. by rewrite masked_fmap. Qed.

Lemma replace_regex_blank df :
  replace_regex Blank df = relabel (λ _, blank_series) df.
Proof.
  unfold replace_regex, relabel. apply list_fmap_ext. by intros i [n [cells|numbers]] _.
Qed.

Lemma filter_relabel (P : string * Series → Prop) `{!∀ c, Decision (P c)} g df :
  filter P (relabel g df) = relabel g (filter (λ c, P (c.1, g c.1 c.2)) df).
Proof.
  unfold relabel. induction df as [|[n s] df IH]; [done|].
  rewrite fmap_cons, !filter_cons. simpl.
  destruct (decide (P (n, g n s))); [rewrite fmap_cons|]; by rewrite IH.
Qed.

Lemma n_rows_relabel g df :
  (∀ n s, length (values (g n s)) = length (values s)) →
  n_rows (relabel g df) = n_rows df.
Proof. intros H. destruct df as [|[n s] df]; [done|]. simpl. apply H. Qed.

Lemma forallb_isna_blank l :
  negb (forallb isna (replace_cell Blank <$> l)) = existsb present l.
Proof.
  induction l as [|c l IH]; [done|]. rewrite fmap_cons. simpl.
  rewrite negb_andb, IH. done.
Qed.

Lemma row_kept_blank df i :
  negb (forallb (λ c, from_option isna true (values c.2 !! i))
          (relabel (λ _, blank_series) df))
  = row_kept df i.
Proof.
  unfold row_kept, relabel. induction df as [|[n s] df IH]; [done|].
  rewrite fmap_cons. simpl. rewrite negb_andb, IH. f_equal.
  rewrite values_blank_series, list_lookup_fmap.
  by destruct (values s !! i).
Qed.

(** The table that the stage returns, told from the table it receives. *)
Lemma remove_empty_kept df :
  remove_empty_rows_and_columns df
  = relabel (λ _ s, mask_series (kept_rows df) (blank_series s))
      (filter (λ c, column_kept c = true) df).
Proof.
  unfold remove_empty_rows_and_columns. rewrite replace_regex_blank.
  set (b := relabel (λ _, blank_series) df).
  assert (negb <$> isna_all_rows b = kept_rows df) as ->.
  { unfold isna_all_rows, kept_rows, b.
    rewrite n_rows_relabel
      by (intros; by rewrite values_blank_series, length_fmap).
    rewrite <- list_fmap_compose. apply list_fmap_ext. intros i j _. simpl.
    apply row_kept_blank. }
  assert (masked (negb <$> isna_all_columns b) b
          = relabel (λ _, blank_series) (filter (λ c, column_kept c = true) df)) as Hcols.
  { unfold isna_all_columns. rewrite <- list_fmap_compose.
    rewrite (masked_pred (negb ∘ λ c : string * Series, forallb isna (values c.2)) b).
    unfold b. rewrite filter_relabel. f_equal.
    apply list_filter_iff. intros [n s]. simpl.
    by rewrite values_blank_series, forallb_isna_blank. }
  unfold loc. rewrite Hcols. unfold relabel. rewrite <- list_fmap_compose.
  apply list_fmap_ext. by intros i [n [cells|numbers]] _.
Qed.

Lemma length_kept_rows df : length (kept_rows df) = n_rows df.
Proof. unfold kept_rows. by rewrite length_fmap, length_seq. Qed.

Lemma rectangular_elem_of df n s :
  rectangular df = true → (n, s) ∈ df → length (values s) = n_rows df.
Proof.
  unfold rectangular. rewrite forallb_forall. intros H Hin.
  apply list_elem_of_In, H in Hin. by apply bool_decide_eq_true in Hin.
Qed.

Lemma column_kept_elem_of (df : DataFrame) n s :
  (n, s) ∈ filter (λ c, column_kept c = true) df ↔
  (n, s) ∈ df ∧ existsb present (values s) = true.
Proof. rewrite list_elem_of_filter. unfold column_kept. simpl. tauto. Qed.

Lemma row_kept_true df i :
  row_kept df i = true ↔
  ∃ n s x, (n, s) ∈ df ∧ values s !! i = Some x ∧ present x = true.
Proof.
  unfold row_kept. rewrite existsb_exists. split.
  - intros ([n s] & Hin & H). simpl in H.
    destruct (values s !! i) as [x|] eqn:E; [|done].
    exists n, s, x. by rewrite <- list_elem_of_In in Hin.
  - intros (n & s & x & Hin & Hx & Hp). exists (n, s).
    rewrite <- list_elem_of_In. split; [done|]. simpl. by rewrite Hx.
Qed.

(** The rows and the columns of the result, cell by cell: the cell [j] of
    a column of the result is the cell of the row [i] of the column it
    comes from, where [i] is the [j]-th row kept. *)
Lemma remove_empty_cell df n s j :
  rectangular df = true → (n, s) ∈ df →
  masked (kept_rows df) (values (blank_series s)) !! j
  = masked (kept_rows df) (seq 0 (n_rows df)) !! j
    ≫= λ i, replace_cell Blank <$> values s !! i.
Proof.
  intros Hrect Hin.
  rewrite (masked_lookup (kept_rows df) _ 0 j), length_kept_rows.
  - destruct (_ !! j) as [i|]; [|done]. simpl.
    by rewrite Nat.sub_0_r, values_blank_series, list_lookup_fmap.
  - rewrite values_blank_series, length_fmap, length_kept_rows.
    by apply (rectangular_elem_of df n s).
Qed.

Lemma kept_rows_index df j i :
  masked (kept_rows df) (seq 0 (n_rows df)) !! j = Some i → row_kept df i = true.
Proof.
  intros H. apply list_elem_of_lookup_2 in H.
  rewrite <- (length_kept_rows df) in H. apply masked_seq_elem_of in H as [_ H].
  rewrite Nat.sub_0_r in H. unfold kept_rows in H.
  rewrite list_lookup_fmap in H.
  destruct (seq 0 (n_rows df) !! i) as [i'|] eqn:E; [|done].
  apply lookup_seq in E as [-> _]. by injection H.
Qed.

Lemma row_kept_index df i :
  i < n_rows df → row_kept df i = true →
  ∃ j, masked (kept_rows df) (seq 0 (n_rows df)) !! j = Some i.
Proof.
  intros Hi H. apply list_elem_of_lookup_1.
  rewrite <- (length_kept_rows df). apply masked_seq_elem_of.
  split; [lia|]. rewrite Nat.sub_0_r. unfold kept_rows.
  rewrite list_lookup_fmap, lookup_seq_lt by done. simpl. by rewrite H.
Qed.

Lemma remove_empty_elem_of df n s' :
  (n, s') ∈ remove_empty_rows_and_columns df ↔
  ∃ s, (n, s) ∈ df ∧ existsb present (values s) = true ∧
       s' = mask_series (kept_rows df) (blank_series s).
Proof.
  rewrite remove_empty_kept. unfold relabel. rewrite list_elem_of_fmap. split.
  - intros ([n0 s] & [= -> ->] & Hin). apply column_kept_elem_of in Hin as [? ?].
    by exists s.
  - intros (s & Hin & Hp & ->). exists (n, s). split; [done|].
    by apply column_kept_elem_of.
Qed.

Lemma n_rows_remove_empty df n s' :
  rectangular df = true → (n, s') ∈ remove_empty_rows_and_columns df →
  length (values s')
  = length (masked (kept_rows df) (seq 0 (n_rows df))).
Proof.
  intros Hrect Hin. apply remove_empty_elem_of in Hin as (s & Hin & _ & ->).
  rewrite values_mask_series. apply length_masked.
  - rewrite values_blank_series, length_fmap, length_kept_rows.
    by apply (rectangular_elem_of df n s).
  - by rewrite length_seq, length_kept_rows.
Qed.

Lemma rectangular_remove_empty df :
  rectangular df = true →
  rectangular (remove_empty_rows_and_columns df) = true ∧
  (remove_empty_rows_and_columns df ≠ [] →
   n_rows (remove_empty_rows_and_columns df)
   = length (masked (kept_rows df) (seq 0 (n_rows df)))).
Proof.
  intros Hrect.
  assert (remove_empty_rows_and_columns df ≠ [] →
          n_rows (remove_empty_rows_and_columns df)
          = length (masked (kept_rows df) (seq 0 (n_rows df)))) as Hn.
  { pose proof (n_rows_remove_empty df) as H.
    destruct (remove_empty_rows_and_columns df) as [|[n s] out]; [done|].
    intros _. simpl. apply (H n s Hrect). apply list_elem_of_here. }
  split; [|done]. unfold rectangular. apply forallb_forall. intros [n s] Hin.
  apply list_elem_of_In in Hin. apply bool_decide_eq_true. simpl.
  rewrite Hn by (intros E; rewrite E in Hin; by apply elem_of_nil in Hin).
  by apply (n_rows_remove_empty df n s).
Qed.

Lemma remove_empty_columns_present df :
  rectangular df = true →
  ∀ n s, (n, s) ∈ remove_empty_rows_and_columns df →
    existsb present (values s) = true.
Proof.
  intros Hrect n s' Hin.
  apply remove_empty_elem_of in Hin as (s & Hin & Hp & ->).
  apply existsb_exists in Hp as (x & Hx & Hp).
  apply list_elem_of_In, list_elem_of_lookup_1 in Hx as [i Hi].
  assert (i < n_rows df) as Hlt.
  { rewrite <- (rectangular_elem_of df n s Hrect Hin).
    by apply lookup_lt_Some in Hi. }
  destruct (row_kept_index df i Hlt) as [j Hj].
  { apply row_kept_true. by exists n, s, x. }
  apply existsb_exists. exists (replace_cell Blank x).
  split; [|by rewrite present_blank].
  apply list_elem_of_In, (list_elem_of_lookup_2 _ j).
  rewrite values_mask_series, (remove_empty_cell df n s j Hrect Hin), Hj.
  simpl. by rewrite Hi.
Qed.

Lemma remove_empty_rows_present df :
  rectangular df = true →
  ∀ j, j < n_rows (remove_empty_rows_and_columns df) →
    row_kept (remove_empty_rows_and_columns df) j = true.
Proof.
  intros Hrect j Hj.
  destruct (rectangular_remove_empty df Hrect) as [_ Hn].
  assert (remove_empty_rows_and_columns df ≠ []) as Hne.
  { intros E. rewrite E in Hj. simpl in Hj. lia. }
  rewrite (Hn Hne) in Hj. apply lookup_lt_is_Some_2 in Hj as [i Hi].
  pose proof (kept_rows_index df j i Hi) as Hk.
  apply row_kept_true in Hk as (n & s & x & Hin & Hx & Hp).
  apply row_kept_true. exists n, (mask_series (kept_rows df) (blank_series s)),
    (replace_cell Blank x).
  split; [|split].
  - apply remove_empty_elem_of. exists s. split; [done|]. split; [|done].
    apply existsb_exists. exists x. split; [|done].
    apply list_elem_of_In. by apply list_elem_of_lookup_2 in Hx.
  - rewrite values_mask_series, (remove_empty_cell df n s j Hrect Hin), Hi.
    simpl. by rewrite Hx.
  - by rewrite present_blank.
Qed.

(** X1.  On a rectangular table the stage returns a rectangular table that
    has no empty column and no empty row: every column and every row of
    it holds a cell that is neither missing nor a blank text. *)
Theorem remove_empty_leaves_no_empty df :
  rectangular df = true →
  rectangular (remove_empty_rows_and_columns df) = true ∧
  (∀ n s, (n, s) ∈ remove_empty_rows_and_columns df →
     existsb present (values s) = true) ∧
  (∀ j, j < n_rows (remove_empty_rows_and_columns df) →
     row_kept (remove_empty_rows_and_columns df) j = true).
Proof.
  intros Hrect. split; [|split].
  - by apply rectangular_remove_empty.
  - by apply remove_empty_columns_present.
  - by apply remove_empty_rows_present.
Qed.

Lemma remove_empty_leaves_no_empty_witness :
  remove_empty_rows_and_columns sparse
  = [("id", Object [Str "a"; Str "c"]); ("n", Float64 [1; 3]%float)] ∧
  rectangular (remove_empty_rows_and_columns sparse) = true.
Proof.
  split; [reflexivity|].
  apply (remove_empty_leaves_no_empty sparse). reflexivity.
Defined.












(** ** strip_whitespace: stripping twice *)

Lemma chars_rev_app s1 s2 :
  Text.chars (String.rev_app s1 s2) = reverse (Text.chars s1) ++ Text.chars s2.
Proof.
  revert s2. induction s1 as [|c s1 IH]; intros s2; simpl; [done|].
  rewrite IH. simpl. rewrite reverse_cons, <- app_assoc. done.
Qed.

Lemma chars_rev s : Text.chars (String.rev s) = reverse (Text.chars s).
Proof. unfold String.rev. rewrite chars_rev_app. simpl. by rewrite app_nil_r. Qed.

Lemma rev_rev s : String.rev (String.rev s) = s.
Proof. apply chars_inj. by rewrite !chars_rev, reverse_involutive. Qed.

Lemma rev_append a b : String.rev (a +:+ b) = String.rev b +:+ String.rev a.
Proof.
  apply chars_inj. by rewrite chars_rev, !chars_app, !chars_rev, reverse_app.
Qed.

Lemma rev_cons c s : String.rev (String c s) = String.rev s +:+ String c "".
Proof. apply (rev_append (String c "") s). Qed.

Lemma lstrip_fixed c s :
  Text.is_space c = false → Text.lstrip (String c s) = String c s.
Proof. intros H. simpl. by rewrite H. Qed.

Lemma lstrip_head s :
  Text.lstrip s = "" ∨
  ∃ c s', Text.lstrip s = String c s' ∧ Text.is_space c = false.
Proof.
  induction s as [|c s IH]; simpl; [by left|].
  destruct (Text.is_space c) eqn:E; [done|]. right. by exists c, s.
Qed.

Lemma lstrip_lstrip s : Text.lstrip (Text.lstrip s) = Text.lstrip s.
Proof.
  destruct (lstrip_head s) as [->|(c & s' & -> & H)]; [done|].
  by apply lstrip_fixed.
Qed.

Lemma rstrip_rstrip s : Text.rstrip (Text.rstrip s) = Text.rstrip s.
Proof. unfold Text.rstrip. by rewrite rev_rev, lstrip_lstrip. Qed.

Lemma lstrip_snoc a c :
  Text.is_space c = false →
  Text.lstrip (a +:+ String c "") = Text.lstrip a +:+ String c "".
Proof.
  intros H. induction a as [|d a IH]; simpl; [by rewrite H|].
  by destruct (Text.is_space d).
Qed.

Lemma rstrip_cons c s :
  Text.is_space c = false → Text.rstrip (String c s) = String c (Text.rstrip s).
Proof.
  intros H. unfold Text.rstrip.
  rewrite rev_cons, lstrip_snoc, rev_append by done. reflexivity.
Qed.

Lemma strip_strip s : Text.strip (Text.strip s) = Text.strip s.
Proof.
  unfold Text.strip.
  destruct (lstrip_head s) as [->|(c & s' & -> & H)]; [done|].
  rewrite rstrip_cons by done. rewrite lstrip_fixed by done.
  rewrite <- rstrip_cons by done. apply rstrip_rstrip.
Qed.

Lemma stripped_stripped c : stripped (stripped c) = stripped c.
Proof. unfold stripped. simpl. by rewrite strip_strip. Qed.

Lemma strip_series_strip_series s : strip_series (strip_series s) = strip_series s.
Proof.
  destruct s as [cells|numbers]; simpl; [|done].
  rewrite <- list_fmap_compose. f_equal. apply list_fmap_ext.
  intros i c _. apply stripped_stripped.
Qed.

(** ** strip_whitespace: labels borne by two columns *)

Lemma occurrences_columns x (d : DataFrame) :
  occurrences x (columns d) = length (filter (λ c, c.1 = x) d).
Proof.
  unfold occurrences, columns. induction d as [|[n s] d IH]; [done|].
  rewrite fmap_cons, !filter_cons. simpl.
  destruct (decide (n = x)); simpl; by rewrite IH.
Qed.

Lemma getitem_Some_once d col :
  is_Some (getitem d col) → occurrences col (columns d) = 1.
Proof.
  rewrite occurrences_columns. unfold getitem. intros [s H].
  destruct (filter _ d) as [|[n s'] [|? ?]]; done.
Qed.

Lemma occurrences_elem_of x l : x ∈ l → 0 < occurrences x l.
Proof.
  unfold occurrences. intros H.
  assert (x ∈ filter (λ n, n = x) l) as Hin by (by apply list_elem_of_filter).
  destruct (filter _ l); [by apply elem_of_nil in Hin | simpl; lia].
Qed.

Lemma NoDup_occurrences l :
  (∀ x, x ∈ l → occurrences x l = 1) → NoDup l.
Proof.
  induction l as [|a l IH]; intros H; [constructor|].
  assert (∀ x, occurrences x (a :: l)
               = (if decide (a = x) then 1 else 0) + occurrences x l) as Hc.
  { intros x. unfold occurrences. rewrite filter_cons.
    by destruct (decide (a = x)). }
  constructor.
  - intros Hin. apply occurrences_elem_of in Hin.
    specialize (H a (list_elem_of_here _ _)). rewrite Hc in H.
    destruct (decide (a = a)); [lia|done].
  - apply IH. intros x Hx. pose proof (occurrences_elem_of x l Hx).
    specialize (H x (list_elem_of_further _ _ _ Hx)). rewrite Hc in H.
    destruct (decide (a = x)); lia.
Qed.

Lemma occurrences_NoDup x l : NoDup l → x ∈ l → occurrences x l = 1.
Proof.
  induction 1 as [|a l Ha Hnd IH]; intros Hx; [by apply elem_of_nil in Hx|].
  unfold occurrences in *. rewrite filter_cons.
  destruct (decide (a = x)) as [->|Hne]; simpl.
  - f_equal. destruct (filter _ l) as [|y ?] eqn:E; [done|].
    assert (y ∈ filter (λ n, n = x) l) as Hy by (rewrite E; apply list_elem_of_here).
    apply list_elem_of_filter in Hy as [-> Hy]. done.
  - apply IH. apply elem_of_cons in Hx as [->|Hx]; done.
Qed.

(** A loop whose body reads the column it visits and keeps the labels ends
    only when every label it visits is borne by one column. *)
Lemma for_each_Some_once (body : DataFrame → string → option DataFrame) xs d d' :
  (∀ d col d', body d col = Some d' →
     is_Some (getitem d col) ∧ columns d' = columns d) →
  for_each xs body d = Some d' →
  ∀ x, x ∈ xs → occurrences x (columns d) = 1.
Proof.
  intros Hbody. revert d. induction xs as [|a xs IH]; intros d Hrun x Hx.
  { by apply elem_of_nil in Hx. }
  simpl in Hrun. destruct (body d a) as [d1|] eqn:E; [|done]. simpl in Hrun.
  destruct (Hbody d a d1 E) as [Hget Hcols].
  apply elem_of_cons in Hx as [->|Hx].
  - by apply getitem_Some_once.
  - rewrite <- Hcols. by apply (IH d1).
Qed.

Lemma for_each_Some_NoDup (body : DataFrame → string → option DataFrame) d d' :
  (∀ d col d', body d col = Some d' →
     is_Some (getitem d col) ∧ columns d' = columns d) →
  for_each (columns d) body d = Some d' → NoDup (columns d).
Proof.
  intros Hbody Hrun. apply NoDup_occurrences.
  by apply (for_each_Some_once body (columns d) d d').
Qed.

Lemma columns_update f col d : columns (update f col d) = columns d.
Proof. by rewrite update_relabel, columns_relabel. Qed.

Lemma strip_column_Some d col d' :
  strip_column d col = Some d' →
  is_Some (getitem d col) ∧ columns d' = columns d.
Proof.
  intros H. destruct (getitem d col) as [s|] eqn:E.
  - split; [done|]. rewrite (strip_column_series d col s E) in H.
    simpl in H. injection H as <-. apply columns_update.
  - unfold strip_column in H. by rewrite E in H.
Qed.

Lemma columns_set_columns_strip (df : DataFrame) :
  columns (set_columns (Text.strip <$> columns df) df) = Text.strip <$> columns df.
Proof.
  rewrite set_columns_strip. unfold columns. by rewrite <- !list_fmap_compose.
Qed.

Lemma strip_whitespace_Some_NoDup df out :
  strip_whitespace df = Some out → NoDup (Text.strip <$> columns df).
Proof.
  unfold strip_whitespace. intros H.
  rewrite <- columns_set_columns_strip.
  apply (for_each_Some_NoDup strip_column _ out); [apply strip_column_Some|done].
Qed.


(** X6.  A table that the stripper returns is stripped: the stripper
    returns it as it is.  Its labels are the stripped labels, no text of
    its object columns has a blank at either end, and its columns of
    floats are those of the table received. *)
Theorem stripper_is_idempotent df out :
  strip_whitespace df = Some out →
  strip_whitespace out = Some out ∧
  columns out = Text.strip <$> columns df ∧
  (∀ n cells t, (n, Object cells) ∈ out → Str t ∈ cells → Text.strip t = t) ∧
  (∀ i n numbers, df !! i = Some (n, Float64 numbers) →
     out !! i = Some (Text.strip n, Float64 numbers)).
Proof.
  intros H. pose proof (strip_whitespace_Some_NoDup df out H) as Hnd.
  rewrite strip_whitespace_series in H by done. injection H as <-.
  assert (columns ((λ c : string * Series, (Text.strip c.1, strip_series c.2)) <$> df)
          = Text.strip <$> columns df) as Hcols.
  { unfold columns. by rewrite <- !list_fmap_compose. }
  split; [|split; [done|split]].
  - rewrite strip_whitespace_series.
    + f_equal. rewrite <- list_fmap_compose. apply list_fmap_ext.
      intros i [n s] _. simpl. by rewrite strip_strip, strip_series_strip_series.
    + rewrite Hcols, <- list_fmap_compose.
      rewrite (list_fmap_ext _ Text.strip (columns df)); [done|].
      intros i n _. simpl. apply strip_strip.
  - intros n cells t Hin Ht.
    apply list_elem_of_fmap in Hin as ([n' s] & Heq & _). simpl in Heq.
    injection Heq as -> Hs. destruct s as [cells'|numbers]; simpl in Hs; [|done].
    injection Hs as ->. apply list_elem_of_fmap in Ht as (c & Hc & _).
    unfold stripped in Hc. injection Hc as ->. apply strip_strip.
  - intros i n numbers Hi. by rewrite list_lookup_fmap, Hi.
Qed.

Lemma stripper_is_idempotent_witness :
  strip_whitespace [("name", Object [Str "Ada"; Str "<NA>"; Str "nan"]);
                    ("age", Float64 [36; 41; 29]%float)]
  = Some [("name", Object [Str "Ada"; Str "<NA>"; Str "nan"]);
          ("age", Float64 [36; 41; 29]%float)].
Proof.
  apply (stripper_is_idempotent survey). reflexivity.
Defined.

(** ** normalize_missing_values *)

Lemma normalize_missing_values_tagged df :
  normalize_missing_values df = relabel (λ _, tag_series) df.
Proof.
  unfold normalize_missing_values. rewrite replace_cells_foldl.
  apply relabel_ext. intros n [cells|numbers] _; simpl; [|done].
  f_equal. apply list_fmap_ext. intros i c _. apply replace_cell_tagged.
Qed.

Lemma tagged_not_sentinel c t : tagged c = Str t → is_sentinel t = false.
Proof.
  destruct c as [|t'|f]; simpl; try done.
  destruct (is_sentinel t') eqn:E; [done|]. by intros [= <-].
Qed.

Lemma tagged_tagged c : tagged (tagged c) = tagged c.
Proof.
  destruct c as [|t|f]; simpl; try done.
  destruct (is_sentinel t) eqn:E; simpl; [done|]. by rewrite E.
Qed.

Lemma tag_series_tag_series s : tag_series (tag_series s) = tag_series s.
Proof.
  destruct s as [cells|numbers]; simpl; [|done].
  rewrite <- list_fmap_compose. f_equal. apply list_fmap_ext.
  intros i c _. apply tagged_tagged.
Qed.

(** X7.  The tagger is idempotent, and the table it returns holds no
    sentinel: every text left in it is a text that no pattern finds.  A
    cell that is not a text, missing or a number, is never changed. *)
Theorem tagger_is_idempotent df :
  normalize_missing_values (normalize_missing_values df)
  = normalize_missing_values df ∧
  (∀ n s t, (n, s) ∈ normalize_missing_values df → Str t ∈ values s →
     is_sentinel t = false) ∧
  (∀ i n s, df !! i = Some (n, s) →
     ∃ s', normalize_missing_values df !! i = Some (n, s') ∧
       ∀ j c, values s !! j = Some c → is_text c = false →
         values s' !! j = Some c).
Proof.
  split; [|split].
  - rewrite !normalize_missing_values_tagged, relabel_relabel.
    apply relabel_ext. intros n s _. apply tag_series_tag_series.
  - intros n s t Hin Ht. rewrite normalize_missing_values_tagged in Hin.
    apply list_elem_of_fmap in Hin as ([n' s'] & [= -> ->] & _). simpl in Ht.
    destruct s' as [cells|numbers]; simpl in Ht.
    + apply list_elem_of_fmap in Ht as (c & Hc & _).
      by apply (tagged_not_sentinel c).
    + apply list_elem_of_fmap in Ht as (f & Hf & _). discriminate Hf.
  - intros i n s Hi. exists (tag_series s).
    rewrite normalize_missing_values_tagged.
    split; [by apply (relabel_lookup (λ _, tag_series))|].
    intros j c Hj Hc. destruct s as [cells|numbers]; simpl in *; [|done].
    rewrite list_lookup_fmap, Hj. simpl. by destruct c.
Qed.



(** ** fix_decimal_commas *)

Lemma fix_series_Object cells :
  fix_series (Object cells)
  = if str_accepts (Object cells)
    then Some (to_numeric (Object (repaired <$> cells)) ignore)
    else None.
Proof.
  unfold fix_series, str_map. cbn [dtype].
  rewrite bool_decide_true by done.
  by destruct (str_accepts (Object cells)).
Qed.

Lemma fix_series_None s :
  fix_series s = None ↔ dtype s = object ∧ str_accepts s = false.
Proof.
  destruct s as [cells|numbers].
  - rewrite fix_series_Object.
    destruct (str_accepts (Object cells)); split; try done. by intros [_ ?].
  - unfold fix_series. simpl. split; [done|]. by intros [? _].
Qed.

Lemma fix_column_Some d col d' :
  fix_column d col = Some d' →
  is_Some (getitem d col) ∧ columns d' = columns d.
Proof.
  intros H. destruct (getitem d col) as [s|] eqn:E.
  - split; [done|]. rewrite (fix_column_series d col s E) in H.
    destruct (fix_series s); simpl in H; [|done].
    injection H as <-. apply columns_update.
  - unfold fix_column in H. by rewrite E in H.
Qed.

Lemma fix_decimal_commas_Some_NoDup df out :
  fix_decimal_commas df = Some out → NoDup (columns df).
Proof. apply for_each_Some_NoDup, fix_column_Some. Qed.

(** X9.  The repairer raises in two cases and no other: a label is borne
    by two columns, or the [.str] accessor refuses an object column, whose
    cells that are not missing are all numbers. *)
Theorem repairer_raises df :
  fix_decimal_commas df = None ↔
  ¬ NoDup (columns df) ∨
  ∃ n s, (n, s) ∈ df ∧ dtype s = object ∧ str_accepts s = false.
Proof.
  split.
  - intros H. destruct (decide (NoDup (columns df))) as [Hnd|]; [right|by left].
    rewrite fix_decimal_commas_series in H by done.
    apply eq_None_not_Some in H. rewrite mapM_is_Some in H.
    apply not_Forall_Exists in H; [|intros c; unfold compose; apply _].
    apply Exists_exists in H as ([n s] & Hin & H).
    exists n, s. split; [done|].
    apply fix_series_None. simpl in H.
    destruct (fix_series s); [|done]. destruct H. by eexists.
  - intros [H|(n & s & Hin & Hs)].
    + destruct (fix_decimal_commas df) as [out|] eqn:E; [|done].
      destruct H. by apply (fix_decimal_commas_Some_NoDup df out).
    + destruct (decide (NoDup (columns df))) as [Hnd|Hnd].
      * rewrite fix_decimal_commas_series by done.
        apply eq_None_not_Some. rewrite mapM_is_Some, Forall_forall.
        intros H. specialize (H (n, s) Hin). simpl in H.
        apply fix_series_None in Hs. rewrite Hs in H.
        by destruct H as [? H].
      * destruct (fix_decimal_commas df) as [out|] eqn:E; [|done].
        destruct Hnd. by apply (fix_decimal_commas_Some_NoDup df out).
Qed.

Lemma digit_at_sub t j :
  digit_at (Text.chars (sub_decimal_comma false t)) j = true →
  digit_at (Text.chars t) j = true.
Proof.
  unfold digit_at. rewrite sub_decimal_comma_chars.
  destruct (Text.chars t !! j) as [c|]; simpl; [|done].
  by destruct (decimal_comma (Text.chars t) j).
Qed.

Lemma decimal_comma_sub t k :
  decimal_comma (Text.chars (sub_decimal_comma false t)) k = false.
Proof.
  destruct (decimal_comma (Text.chars (sub_decimal_comma false t)) k) eqn:E; [|done].
  unfold decimal_comma in E.
  apply andb_prop in E as [E H2]. apply andb_prop in E as [H0 H1].
  apply bool_decide_eq_true in H0. rewrite sub_decimal_comma_chars in H0.
  destruct (Text.chars t !! k) as [c|] eqn:Hc; [|done]. simpl in H0.
  destruct (decimal_comma (Text.chars t) k) eqn:Hd; [done|].
  injection H0 as ->. apply digit_at_sub in H2.
  unfold decimal_comma in Hd. rewrite Hc, bool_decide_true, H2 in Hd by done.
  destruct k as [|k']; [done|]. apply digit_at_sub in H1. by rewrite H1 in Hd.
Qed.

Lemma sub_decimal_comma_sub t :
  sub_decimal_comma false (sub_decimal_comma false t) = sub_decimal_comma false t.
Proof.
  apply chars_inj, list_eq. intros k.
  rewrite (sub_decimal_comma_chars (sub_decimal_comma false t)), decimal_comma_sub.
  by destruct (_ !! k).
Qed.

Lemma repaired_repaired c : repaired (repaired c) = repaired c.
Proof. destruct c as [|t|f]; simpl; try done. by rewrite sub_decimal_comma_sub. Qed.

Lemma numeric_of_not_text c : is_text c = false → is_Some (numeric_of c).
Proof. by destruct c. Qed.

Lemma fix_series_fix_series s s' : fix_series s = Some s' → fix_series s' = Some s'.
Proof.
  destruct s as [cells|numbers]; [|by intros [= <-]].
  rewrite fix_series_Object. destruct (str_accepts (Object cells)); [|done].
  intros [= <-]. simpl.
  destruct (mapM numeric_of (repaired <$> cells)) as [numbers|] eqn:E; [done|].
  rewrite fix_series_Object.
  assert (repaired <$> (repaired <$> cells) = repaired <$> cells) as Hrep.
  { rewrite <- list_fmap_compose. apply list_fmap_ext. intros i c _.
    apply repaired_repaired. }
  assert (str_accepts (Object (repaired <$> cells)) = true) as ->.
  { apply eq_None_not_Some in E. rewrite mapM_is_Some in E.
    apply not_Forall_Exists in E; [|intros c; unfold compose; apply _].
    apply Exists_exists in E as (c & Hin & Hc). simpl in Hc.
    assert (is_text c = true) as Ht.
    { destruct (is_text c) eqn:Ht; [done|]. destruct Hc.
      by apply numeric_of_not_text. }
    unfold str_accepts. apply orb_true_intro. right.
    apply existsb_exists. exists c. split; [|done].
    apply list_elem_of_In, list_elem_of_filter. split; [by destruct c|done]. }
  rewrite Hrep. simpl. by rewrite E.
Qed.

(** X10.  A table that the repairer returns is repaired: the repairer
    returns it as it is.  In particular no text of it holds a comma between
    two digits. *)
Theorem repairer_is_idempotent df out :
  fix_decimal_commas df = Some out →
  fix_decimal_commas out = Some out ∧
  ∀ t k, decimal_comma (Text.chars (sub_decimal_comma false t)) k = false.
Proof.
  intros H. split; [|apply decimal_comma_sub].
  pose proof (fix_decimal_commas_Some_NoDup df out H) as Hnd.
  rewrite fix_decimal_commas_series in H by done.
  assert (columns out = columns df) as Hcols.
  { clear Hnd. revert out H. induction df as [|[n s] df IH]; intros out H.
    - by injection H as <-.
    - cbn [mapM] in H. simpl in H.
      destruct (fix_series s); simpl in H; [|done].
      destruct (mapM _ df) as [l|]; simpl in H; [|done].
      injection H as <-. unfold columns in *. rewrite !fmap_cons. simpl.
      f_equal. by apply IH. }
  rewrite fix_decimal_commas_series by (by rewrite Hcols).
  clear Hnd Hcols. revert out H. induction df as [|[n s] df IH]; intros out H.
  - by injection H as <-.
  - cbn [mapM] in H. simpl in H.
    destruct (fix_series s) as [s'|] eqn:Es; simpl in H; [|done].
    destruct (mapM _ df) as [l|]; simpl in H; [|done].
    injection H as <-. cbn [mapM]. simpl.
    rewrite (fix_series_fix_series s s' Es). simpl.
    by rewrite (IH l eq_refl).
Qed.

Lemma repairer_is_idempotent_witness :
  fix_decimal_commas [("price", Float64 [1.25]%float);
                      ("note", Object [Str "1.5 kg, net"; NaN; Str "a,b"]);
                      ("n", Float64 [1]%float)]
  = Some [("price", Float64 [1.25]%float);
          ("note", Object [Str "1.5 kg, net"; NaN; Str "a,b"]);
          ("n", Float64 [1]%float)].
Proof. apply (repairer_is_idempotent prices). reflexivity. Defined.

(** X11.  A number in an object column that the repairer accepts is lost:
    the [.str] accessor yields NaN for a cell that is not a text. *)
Theorem repairer_loses_numbers df out n cells j f :
  fix_decimal_commas df = Some out →
  (n, Object cells) ∈ df → cells !! j = Some (Num f) →
  ∃ s', (n, s') ∈ out ∧ values s' !! j = Some NaN.
Proof.
  intros H Hin Hj.
  pose proof (fix_decimal_commas_Some_NoDup df out H) as Hnd.
  rewrite fix_decimal_commas_series in H by done.
  assert (∃ s', fix_series (Object cells) = Some s' ∧ (n, s') ∈ out) as (s' & Hs & Hout).
  { clear Hnd. revert out H. induction df as [|[n0 s0] df IH]; intros out H.
    - by apply elem_of_nil in Hin.
    - cbn [mapM] in H. simpl in H.
      destruct (fix_series s0) as [s1|] eqn:Es; simpl in H; [|done].
      destruct (mapM _ df) as [l|]; simpl in H; [|done].
      injection H as <-. apply elem_of_cons in Hin as [[= -> ->]|Hin].
      + exists s1. split; [done|]. apply list_elem_of_here.
      + destruct (IH Hin l eq_refl) as (s' & Hs & Hl).
        exists s'. split; [done|]. by apply list_elem_of_further. }
  exists s'. split; [done|].
  rewrite fix_series_Object in Hs.
  destruct (str_accepts (Object cells)); [|done]. injection Hs as <-. simpl.
  assert ((repaired <$> cells) !! j = Some NaN) as Hr.
  { by rewrite list_lookup_fmap, Hj. }
  destruct (mapM numeric_of (repaired <$> cells)) as [numbers|] eqn:E; simpl; [|done].
  apply mapM_Some in E.
  destruct (Forall2_lookup_l _ _ _ j NaN E Hr) as (x & Hx & Hn).
  rewrite list_lookup_fmap, Hx. simpl in *. by injection Hn as <-.
Qed.

Lemma repairer_loses_numbers_witness :
  ∃ s', (("x", s') : string * Series) ∈ [("x", Float64 [1.5; PrimFloat.nan; 3]%float);
                     ("y", Object [Str "a,b"; NaN])] ∧
        values s' !! 1 = Some NaN.
Proof.
  apply (repairer_loses_numbers mixed _ "x" [Str "1,5"; Num 2; Str "3"] 1 2%float);
    [reflexivity | unfold mixed; member | reflexivity].
Defined.

(** ** extract_numeric_and_unit *)

Lemma extract_numeric_and_unit_extracted df :
  NoDup (columns df) → fresh_names df = true →
  extract_numeric_and_unit df = Some (df ≫= extracted_columns).
Proof.
  intros Hnd Hf. pose proof (NoDup_columns_with_added df Hnd Hf) as Hall.
  unfold extract_numeric_and_unit.
  pose proof (extract_loop df [] df [] eq_refl Hall) as Hloop. simpl in Hloop.
  rewrite app_nil_r in Hloop. rewrite Hloop. simpl.
  apply select_all. intros n s Hin.
  apply getitem_elem_of; [done|].
  apply list_elem_of_bind in Hin as ([m t] & Hin & Hmt).
  unfold extracted_columns in Hin. simpl in Hin.
  destruct (promoted t) eqn:Hp.
  - apply elem_of_app. right. unfold added. apply list_elem_of_bind.
    exists (m, t). split; [|done]. simpl. rewrite Hp. unfold extracted_columns.
    simpl. by rewrite Hp.
  - apply list_elem_of_singleton in Hin as ->. apply elem_of_app. by left.
Qed.

Lemma columns_extracted_submseteq (l : DataFrame) :
  columns (l ≫= extracted_columns) ⊆+ columns (l ++ added l).
Proof.
  unfold columns. induction l as [|[n s] l IH]; [done|].
  rewrite bind_cons, added_cons, <- app_comm_cons, fmap_cons, !fmap_app.
  rewrite fmap_app in IH. cbn [fst snd].
  unfold extracted_columns at 1. cbn [fst snd]. destruct (promoted s) eqn:Hp.
  - apply submseteq_cons.
    rewrite (Permutation_app_swap_app (l.*1)).
    unfold extracted_columns. cbn [snd]. rewrite Hp.
    by apply submseteq_app.
  - simpl. by apply submseteq_skip.
Qed.

Lemma NoDup_columns_extracted df :
  NoDup (columns df) → fresh_names df = true →
  NoDup (columns (df ≫= extracted_columns)).
Proof.
  intros Hnd Hf. pose proof (NoDup_columns_with_added df Hnd Hf) as Hall.
  destruct (submseteq_Permutation _ _ (columns_extracted_submseteq df)) as [k Hk].
  rewrite Hk in Hall. by apply NoDup_app in Hall as [? _].
Qed.

Lemma is_unit_char_head c :
  is_unit_char c = true → Text.is_space c = false ∧ Text.is_digit c = false.
Proof. destruct c as [[] [] [] [] [] [] [] []]; by vm_compute. Qed.

Lemma is_glyph_head c d :
  is_glyph c d = true → Text.is_space c = false ∧ Text.is_digit c = false.
Proof.
  unfold is_glyph. intros [H _]%andb_prop. apply bool_decide_eq_true in H.
  destruct c as [[] [] [] [] [] [] [] []]; by vm_compute in H |- *.
Qed.

Lemma span_unit_head s u r :
  span_unit s = (u, r) →
  u = "" ∨ ∃ c u', u = String c u' ∧ Text.is_space c = false ∧ Text.is_digit c = false.
Proof.
  destruct s as [|c s]; simpl; [intros [= <- <-]; by left|].
  destruct (is_unit_char c) eqn:E.
  - destruct (span_unit s) as [a b]. intros [= <- <-]. right.
    exists c, a. split; [done|]. by apply is_unit_char_head.
  - destruct s as [|d s]; [intros [= <- <-]; by left|].
    destruct (is_glyph c d) eqn:G; [|intros [= <- <-]; by left].
    destruct (span_unit s) as [a b]. intros [= <- <-]. right.
    exists c, (String d a). split; [done|]. by apply (is_glyph_head c d).
Qed.

Lemma numeral_with_unit_head c s :
  Text.is_space c = false → Text.is_digit c = false →
  numeral_with_unit (String c s) = None.
Proof.
  intros Hs Hd. unfold numeral_with_unit. cbn [Text.lstrip]. rewrite Hs.
  cbn [Text.span]. rewrite Hd.
  destruct (if bool_decide (c = "."%char ∨ c = ","%char)
            then (String c "", s) else ("", String c s)) as [mark r].
  destruct (Text.span Text.is_digit r) as [fraction r0].
  destruct (span_unit (Text.lstrip r0)) as [unit r1].
  rewrite bool_decide_false; [done|]. by intros [? _].
Qed.

Lemma numeral_with_unit_unit s n u :
  numeral_with_unit s = Some (n, u) → numeral_with_unit u = None.
Proof.
  unfold numeral_with_unit at 1.
  destruct (Text.span Text.is_digit (Text.lstrip s)) as [whole r].
  destruct (match r with
            | String c r' =>
                if bool_decide (c = "."%char ∨ c = ","%char) then (String c "", r')
                else ("", r)
            | "" => ("", r)
            end) as [mark r1].
  destruct (Text.span Text.is_digit r1) as [fraction r2].
  destruct (span_unit (Text.lstrip r2)) as [unit r3] eqn:E.
  case_bool_decide as H; [|done]. intros [= _ <-].
  destruct (span_unit_head _ _ _ E) as [->|(c & u' & -> & Hs & Hd)].
  - by destruct H as (_ & ? & _).
  - by apply numeral_with_unit_head.
Qed.

Lemma matches_split_cell c : matches (split_cell c).2 = false.
Proof.
  unfold split_cell.
  destruct (numeral_with_unit (py_str c)) as [[n u]|] eqn:E; simpl.
  - unfold matches. simpl. apply bool_decide_eq_false.
    rewrite (numeral_with_unit_unit _ _ _ E). by intros [? ?].
  - by vm_compute.
Qed.

Lemma promoted_unit_column s : promoted (unit_column s) = false.
Proof.
  unfold unit_column, promoted. induction (values s) as [|c l IH]; [done|].
  rewrite fmap_cons. simpl. by rewrite matches_split_cell, IH.
Qed.

Lemma extracted_not_promoted c n s :
  (n, s) ∈ extracted_columns c → promoted s = false.
Proof.
  unfold extracted_columns. destruct (promoted c.2) eqn:Hp.
  - intros H. apply elem_of_cons in H as [[= -> ->]|H]; [done|].
    apply list_elem_of_singleton in H as [= -> ->]. apply promoted_unit_column.
  - intros H. apply list_elem_of_singleton in H as <-. done.
Qed.

Lemma extracted_columns_fixed (l : DataFrame) :
  (∀ n s, (n, s) ∈ l → promoted s = false) → l ≫= extracted_columns = l.
Proof.
  induction l as [|[n s] l IH]; intros H; [done|].
  rewrite bind_cons, IH by (intros; eapply H; by apply list_elem_of_further).
  unfold extracted_columns. simpl. by rewrite (H n s) by apply list_elem_of_here.
Qed.

Lemma fresh_names_not_promoted (l : DataFrame) :
  (∀ n s, (n, s) ∈ l → promoted s = false) → fresh_names l = true.
Proof.
  intros H. unfold fresh_names. apply forallb_forall. intros [n s] Hin.
  apply list_elem_of_In in Hin. simpl. by rewrite (H n s Hin).
Qed.

(** X12.  A table that the extractor returns holds no column to promote,
    and the extractor returns it as it is: the units it has written do not
    match the pattern.  This is for a table whose labels are not repeated
    and where the labels of the new columns are not taken. *)
Theorem extractor_is_idempotent df :
  NoDup (columns df) → fresh_names df = true →
  ∃ out,
    extract_numeric_and_unit df = Some out ∧
    extract_numeric_and_unit out = Some out ∧
    ∀ n s, (n, s) ∈ out → promoted s = false.
Proof.
  intros Hnd Hf. exists (df ≫= extracted_columns).
  assert (∀ n s, (n, s) ∈ df ≫= extracted_columns → promoted s = false) as Hp.
  { intros n s Hin. apply list_elem_of_bind in Hin as (c & Hin & _).
    by apply (extracted_not_promoted c n s). }
  split; [by apply extract_numeric_and_unit_extracted|]. split; [|done].
  rewrite extract_numeric_and_unit_extracted.
  - by rewrite extracted_columns_fixed.
  - by apply NoDup_columns_extracted.
  - by apply fresh_names_not_promoted.
Qed.

Lemma extractor_is_idempotent_witness :
  ∃ out,
    extract_numeric_and_unit lengths = Some out ∧
    extract_numeric_and_unit out = Some out ∧
    columns out = ["len_value"; "len_unit"; "n"; "site"].
Proof.
  destruct (extractor_is_idempotent lengths) as (out & H1 & H2 & _);
    [compute_done | reflexivity |].
  exists out. split; [done|]. split; [done|].
  assert (Some out = Some (lengths ≫= extracted_columns)) as [= ->]; [|reflexivity].
  rewrite <- H1. reflexivity.
Defined.

Lemma columns_setitem d c s :
  columns (setitem d c s)
  = if bool_decide (c ∈ columns d) then columns d else columns d ++ [c].
Proof.
  unfold setitem. case_bool_decide; [apply columns_update|].
  by rewrite columns_app.
Qed.

Lemma setitem_keeps d c s :
  c ∈ columns (setitem d c s) ∧
  (NoDup (columns d) → NoDup (columns (setitem d c s))) ∧
  ∀ x, x ∈ columns d →
    x ∈ columns (setitem d c s) ∧
    occurrences x (columns (setitem d c s)) = occurrences x (columns d).
Proof.
  rewrite columns_setitem. case_bool_decide as Hc; [done|].
  split; [apply elem_of_app; right; apply list_elem_of_here|]. split.
  - intros Hnd. apply NoDup_app. split; [done|]. split; [|apply NoDup_singleton].
    intros x Hx Hx'. by apply list_elem_of_singleton in Hx' as ->.
  - intros x Hx. split; [apply elem_of_app; by left|].
    unfold occurrences. rewrite filter_app, length_app.
    rewrite filter_cons, decide_False; [simpl; lia|]. by intros ->.
Qed.

Lemma extract_column_keeps d order n d' order' :
  extract_column (d, order) n = Some (d', order') →
  is_Some (getitem d n) ∧
  (NoDup (columns d) → NoDup (columns d')) ∧
  (∀ x, x ∈ columns d →
     x ∈ columns d' ∧ occurrences x (columns d') = occurrences x (columns d)) ∧
  ((∀ x, x ∈ order → x ∈ columns d) → ∀ x, x ∈ order' → x ∈ columns d').
Proof.
  intros H. destruct (getitem d n) as [s|] eqn:E.
  2:{ unfold extract_column in H. by rewrite E in H. }
  split; [done|]. rewrite (extract_column_spec d order n s E) in H.
  pose proof (getitem_Some_column d n s E) as Hn.
  destruct (promoted s); injection H as <- <-.
  - set (d1 := setitem d (n +:+ "_value") (value_column s)).
    destruct (setitem_keeps d (n +:+ "_value") (value_column s)) as (Hv & Hnd1 & Hk1).
    destruct (setitem_keeps d1 (n +:+ "_unit") (unit_column s)) as (Hu & Hnd2 & Hk2).
    fold d1 in Hv, Hnd1, Hk1. split; [tauto|]. split.
    + intros x Hx. destruct (Hk1 x Hx) as [Hx1 Ho1].
      destruct (Hk2 x Hx1) as [Hx2 Ho2]. split; [done|]. by rewrite Ho2.
    + intros Ho x Hx. apply elem_of_app in Hx as [Hx|Hx].
      * apply Hk2, Hk1, Ho, Hx.
      * apply elem_of_cons in Hx as [->|Hx]; [by apply Hk2|].
        by apply list_elem_of_singleton in Hx as ->.
  - split; [done|]. split; [done|]. intros Ho x Hx.
    apply elem_of_app in Hx as [Hx|Hx]; [by apply Ho|].
    by apply list_elem_of_singleton in Hx as ->.
Qed.

Lemma extract_loop_total xs d order :
  NoDup (columns d) →
  (∀ x, x ∈ xs → x ∈ columns d) → (∀ x, x ∈ order → x ∈ columns d) →
  ∃ d' order',
    for_each xs extract_column (d, order) = Some (d', order') ∧
    NoDup (columns d') ∧ ∀ x, x ∈ order' → x ∈ columns d'.
Proof.
  revert d order. induction xs as [|n xs IH]; intros d order Hnd Hxs Ho.
  { by exists d, order. }
  assert (n ∈ columns d) as Hn by apply Hxs, list_elem_of_here.
  apply list_elem_of_fmap in Hn as ([n' s] & -> & Hin). cbn [fst] in *.
  pose proof (extract_column_spec d order n' s (getitem_elem_of d n' s Hnd Hin)) as E.
  destruct (extract_column (d, order) n') as [[d1 order1]|] eqn:E1; [|done].
  destruct (extract_column_keeps d order n' d1 order1 E1) as (_ & H1 & H2 & H3).
  cbn [for_each]. rewrite E1. cbn [mbind option_bind].
  apply IH; [by apply H1| |by apply H3].
  intros x Hx. by apply H2, Hxs, list_elem_of_further.
Qed.

Lemma select_total d order :
  NoDup (columns d) → (∀ x, x ∈ order → x ∈ columns d) → is_Some (select d order).
Proof.
  intros Hnd Ho. unfold select. apply mapM_is_Some, Forall_forall.
  intros x Hx. apply Ho, list_elem_of_fmap in Hx as ([n s] & -> & Hin).
  simpl. by rewrite (getitem_elem_of d n s Hnd Hin).
Qed.

Lemma extract_loop_once xs d order st :
  for_each xs extract_column (d, order) = Some st →
  ∀ x, x ∈ xs → x ∈ columns d → occurrences x (columns d) = 1.
Proof.
  revert d order. induction xs as [|n xs IH]; intros d order Hrun x Hx Hd.
  { by apply elem_of_nil in Hx. }
  cbn [for_each] in Hrun.
  destruct (extract_column (d, order) n) as [[d1 order1]|] eqn:E; [|done].
  cbn [mbind option_bind] in Hrun.
  destruct (extract_column_keeps d order n d1 order1 E) as (Hget & _ & Hk & _).
  apply elem_of_cons in Hx as [->|Hx]; [by apply getitem_Some_once|].
  destruct (Hk x Hd) as [Hd1 <-]. by apply (IH d1 order1).
Qed.

(** X13.  The extractor raises exactly when a label is borne by two
    columns.  In particular it does not raise when the label of a new
    column is taken: the column that bears it is overwritten. *)
Theorem extractor_raises_on_repeated_labels df :
  extract_numeric_and_unit df = None ↔ ¬ NoDup (columns df).
Proof.
  unfold extract_numeric_and_unit. split.
  - intros H Hnd.
    destruct (extract_loop_total (columns df) df [] Hnd) as (d & order & Hrun & Hd & Ho);
      [done|by intros x Hx%elem_of_nil|].
    rewrite Hrun in H. simpl in H.
    destruct (select_total d order Hd Ho) as [out Hout]. by rewrite Hout in H.
  - intros Hnd.
    destruct (for_each (columns df) extract_column (df, [])) as [[d order]|] eqn:E;
      [|done].
    destruct Hnd. apply NoDup_occurrences. intros x Hx.
    by apply (extract_loop_once (columns df) df [] (d, order) E).
Qed.

(** ** extract_numeric_and_unit: the pattern *)






























(** ** convert_units_to_SI *)

Lemma convert_one_scaled value unit v tbl si k :
  isna value = false → isna unit = false → py_float value = Some v →
  (tbl, si) ∈ scale_tables → tbl !! normalize_unit unit = Some k →
  _convert_one value unit = (Num (v * k), Str si).
Proof.
  intros Hv Hu Hf Ht Hk. unfold _convert_one. rewrite Hv, Hu, Hf. simpl.
  remember (normalize_unit unit) as u eqn:E. clear E.
  unfold scale_tables in Ht.
  repeat (apply elem_of_cons in Ht as [Ht|Ht]; [injection Ht as -> ->|]);
    [..|by apply elem_of_nil in Ht];
    apply elem_of_list_to_map_2 in Hk;
    repeat (apply elem_of_cons in Hk as [Hk|Hk]; [injection Hk as -> ->|]);
    try (by apply elem_of_nil in Hk); reflexivity.
Qed.

Lemma convert_one_kelvin value unit v :
  isna value = false → isna unit = false → py_float value = Some v →
  normalize_unit unit ∈ ["k"; "degk"] →
  _convert_one value unit = (Num v, Str "K").
Proof.
  intros Hv Hu Hf Hn. unfold _convert_one. rewrite Hv, Hu, Hf. simpl.
  remember (normalize_unit unit) as u eqn:E. clear E.
  repeat (apply elem_of_cons in Hn as [->|Hn]); [..|by apply elem_of_nil in Hn];
    reflexivity.
Qed.

Lemma convert_one_percent value unit v :
  isna value = false → isna unit = false → py_float value = Some v →
  normalize_unit unit ∈ ["%"; "pct"] →
  _convert_one value unit = (Num (v / 100), Str "1").
Proof.
  intros Hv Hu Hf Hn. unfold _convert_one. rewrite Hv, Hu, Hf. simpl.
  remember (normalize_unit unit) as u eqn:E. clear E.
  repeat (apply elem_of_cons in Hn as [->|Hn]); [..|by apply elem_of_nil in Hn];
    reflexivity.
Qed.



(** X15.  A row of a pair whose unit token, once normalized, is a key of one
    of the six tables of factors, and whose magnitude reads as the number
    [v]: the converter returns the row with [v] times the factor of the
    key, and the unit of the table. *)
Theorem known_units_are_scaled df col vals units i value unit v tbl si k :
  NoDup (columns df) →
  Text.endswith col "_value" = true →
  (col, vals) ∈ df → (unit_col_of col, units) ∈ df →
  values vals !! i = Some value → values units !! i = Some unit →
  isna value = false → isna unit = false → py_float value = Some v →
  (tbl, si) ∈ scale_tables → tbl !! normalize_unit unit = Some k →
  ∃ out vals' units',
    convert_units_to_SI df = Some out ∧
    (col, vals') ∈ out ∧ (unit_col_of col, units') ∈ out ∧
    values vals' !! i = Some (Num (v * k)) ∧
    values units' !! i = Some (Str si).
Proof.
  intros Hnd He Hvals Hunits Hv Hu Hna Hnu Hf Ht Hk.
  destruct (convert_units_to_SI_row df col vals units i value unit)
    as (out & vals' & units' & Hout & H1 & H2 & H3 & H4); try done.
  rewrite (convert_one_scaled value unit v tbl si k) in H3, H4 by done.
  by exists out, vals', units'.
Qed.

Lemma known_units_are_scaled_witness :
  ∃ out vals' units',
    convert_units_to_SI journeys = Some out ∧
    ("d_value", vals') ∈ out ∧ ("d_unit", units') ∈ out ∧
    values vals' !! 0 = Some (Num 2500) ∧ values units' !! 0 = Some (Str "m").
Proof.
  destruct (known_units_are_scaled journeys "d_value"
              (Object [Str "2.5"; Num 3; NA; Str "7"])
              (Object [Str " KM "; Str "h"; Str "m"; NaN]) 0
              (Str "2.5") (Str " KM ") 2.5%float length_units "m" 1000%float)
    as (out & vals' & units' & Hout & H1 & H2 & H3 & H4);
    [compute_done | reflexivity | unfold journeys; member ..
    | reflexivity | reflexivity | reflexivity | reflexivity | reflexivity
    | unfold scale_tables; member | reflexivity |].
  by exists out, vals', units'.
Defined.

(** X16.  Kelvin and percent: a unit token that normalizes to [k] or [degk]
    keeps the magnitude and writes the unit K; a token that normalizes to
    the percent sign or [pct] divides the magnitude by 100 and writes the
    unit 1. *)
Theorem kelvin_and_percent df col vals units i value unit v :
  NoDup (columns df) →
  Text.endswith col "_value" = true →
  (col, vals) ∈ df → (unit_col_of col, units) ∈ df →
  values vals !! i = Some value → values units !! i = Some unit →
  isna value = false → isna unit = false → py_float value = Some v →
  ∃ out vals' units',
    convert_units_to_SI df = Some out ∧
    (col, vals') ∈ out ∧ (unit_col_of col, units') ∈ out ∧
    (normalize_unit unit ∈ ["k"; "degk"] →
       values vals' !! i = Some (Num v) ∧ values units' !! i = Some (Str "K")) ∧
    (normalize_unit unit ∈ ["%"; "pct"] →
       values vals' !! i = Some (Num (v / 100)) ∧
       values units' !! i = Some (Str "1")).
Proof.
  intros Hnd He Hvals Hunits Hv Hu Hna Hnu Hf.
  destruct (convert_units_to_SI_row df col vals units i value unit)
    as (out & vals' & units' & Hout & H1 & H2 & H3 & H4); try done.
  exists out, vals', units'. repeat split; try done.
  - by rewrite H3, (convert_one_kelvin value unit v).
  - by rewrite H4, (convert_one_kelvin value unit v).
  - by rewrite H3, (convert_one_percent value unit v).
  - by rewrite H4, (convert_one_percent value unit v).
Qed.

Lemma kelvin_and_percent_witness :
  (∃ out vals' units',
     convert_units_to_SI shares = Some out ∧
     ("p_value", vals') ∈ out ∧ ("p_unit", units') ∈ out ∧
     values vals' !! 0 = Some (Num 0.5) ∧ values units' !! 0 = Some (Str "1")) ∧
  (∃ out vals' units',
     convert_units_to_SI shares = Some out ∧
     ("p_value", vals') ∈ out ∧ ("p_unit", units') ∈ out ∧
     values vals' !! 1 = Some (Num 300) ∧ values units' !! 1 = Some (Str "K")).
Proof.
  split.
  - destruct (kelvin_and_percent shares "p_value"
                (Float64 [50; 300]%float) (Object [Str "%"; Str "k"]) 0
                (Num 50) (Str "%") 50%float)
      as (out & vals' & units' & Hout & H1 & H2 & _ & H);
      [compute_done | reflexivity | unfold shares; member ..
      | reflexivity | reflexivity | reflexivity | reflexivity | reflexivity |].
    exists out, vals', units'. repeat split; try done; apply H; compute_done.
  - destruct (kelvin_and_percent shares "p_value"
                (Float64 [50; 300]%float) (Object [Str "%"; Str "k"]) 1
                (Num 300) (Str "k") 300%float)
      as (out & vals' & units' & Hout & H1 & H2 & H & _);
      [compute_done | reflexivity | unfold shares; member ..
      | reflexivity | reflexivity | reflexivity | reflexivity | reflexivity |].
    exists out, vals', units'. repeat split; try done; apply H; compute_done.
Defined.



Lemma length_foldl_insert {A B} (idx : B → nat) (h : B → A) (rows : list B) (l : list A) :
  length (foldl (λ l row, <[idx row := h row]> l) l rows) = length l.
Proof.
  revert l. induction rows as [|r rows IH]; intros l; simpl; [done|].
  by rewrite IH, length_insert.
Qed.

Lemma length_convert_pair vals units :
  length (values (convert_pair vals units).1) = length (values vals) ∧
  length (values (convert_pair vals units).2) = length (values units).
Proof.
  unfold convert_pair. simpl. split.
  - rewrite values_to_numeric_coerce, length_fmap.
    rewrite (values_foldl_write (λ row, row.1) (λ row, (_convert_one row.2.1 row.2.2).1)).
    apply length_foldl_insert.
  - rewrite (values_foldl_write (λ row, row.1) (λ row, (_convert_one row.2.1 row.2.2).2)).
    apply length_foldl_insert.
Qed.





(** X19.  What the converter writes in a row of a pair: the magnitude comes
    back as a number, NaN included, and the unit comes back as it was
    received or as one of the eight canonical tokens. *)
Theorem converter_units_are_closed df col vals units i value unit :
  NoDup (columns df) →
  Text.endswith col "_value" = true →
  (col, vals) ∈ df → (unit_col_of col, units) ∈ df →
  values vals !! i = Some value → values units !! i = Some unit →
  ∃ out vals' units' f,
    convert_units_to_SI df = Some out ∧
    (col, vals') ∈ out ∧ (unit_col_of col, units') ∈ out ∧
    values vals' !! i = Some (Num f) ∧
    (values units' !! i = Some unit ∨
     ∃ u, u ∈ canonical_units ∧ values units' !! i = Some (Str u)).
Proof.
  intros Hnd He Hvals Hunits Hv Hu.
  destruct (convert_units_to_SI_row df col vals units i value unit)
    as (out & vals' & units' & Hout & H1 & H2 & H3 & H4); try done.
  exists out, vals', units', (default PrimFloat.nan (numeric_of (_convert_one value unit).1)).
  repeat split; try done.
  destruct (convert_one_shape value unit) as [H|(f & u & Hcan & H)];
    rewrite H in H4; simpl in H4; [by left|].
  right. by exists u.
Qed.

Lemma converter_units_are_closed_witness :
  ∃ out vals' units' f,
    convert_units_to_SI journeys = Some out ∧
    ("d_value", vals') ∈ out ∧ ("d_unit", units') ∈ out ∧
    values vals' !! 1 = Some (Num f) ∧
    (values units' !! 1 = Some (Str "h") ∨
     ∃ u, u ∈ canonical_units ∧ values units' !! 1 = Some (Str u)).
Proof.
  apply (converter_units_are_closed journeys "d_value"
           (Object [Str "2.5"; Num 3; NA; Str "7"])
           (Object [Str " KM "; Str "h"; Str "m"; NaN]) 1 (Num 3) (Str "h"));
    [compute_done | reflexivity | unfold journeys; member ..
    | reflexivity | reflexivity].
Defined.

(** ** convert_units_to_SI: unit tokens *)

Lemma chars_lower s : Text.chars (Text.lower s) = Text.to_lower <$> Text.chars s.
Proof.
  induction s as [|c s IH]; [done|]. unfold Text.chars in *.
  cbn [Text.lower list_ascii_of_string]. rewrite fmap_cons. by f_equal.
Qed.

Lemma length_lower s : String.length (Text.lower s) = String.length s.
Proof. by rewrite <- !length_chars, chars_lower, length_fmap. Qed.

Lemma to_lower_to_lower c : Text.to_lower (Text.to_lower c) = Text.to_lower c.
Proof. destruct c as [[] [] [] [] [] [] [] []]; by vm_compute. Qed.

Lemma is_space_to_lower c : Text.is_space (Text.to_lower c) = Text.is_space c.
Proof. destruct c as [[] [] [] [] [] [] [] []]; by vm_compute. Qed.

Lemma lower_lower s : Text.lower (Text.lower s) = Text.lower s.
Proof. induction s as [|c s IH]; [done|]. simpl. by rewrite to_lower_to_lower, IH. Qed.

Lemma lower_append a b : Text.lower (a +:+ b) = Text.lower a +:+ Text.lower b.
Proof. induction a as [|c a IH]; [done|]. simpl. by rewrite IH. Qed.

Lemma lower_of_chars l : Text.lower (Text.of_chars l) = Text.of_chars (Text.to_lower <$> l).
Proof. apply chars_inj. by rewrite chars_lower, !chars_of_chars. Qed.

Lemma lstrip_lower s : Text.lstrip (Text.lower s) = Text.lower (Text.lstrip s).
Proof.
  induction s as [|c s IH]; [done|]. simpl. rewrite is_space_to_lower.
  by destruct (Text.is_space c).
Qed.

Lemma rev_lower s : String.rev (Text.lower s) = Text.lower (String.rev s).
Proof.
  apply chars_inj. by rewrite chars_rev, !chars_lower, chars_rev, fmap_reverse.
Qed.

Lemma strip_lower s : Text.strip (Text.lower s) = Text.lower (Text.strip s).
Proof.
  unfold Text.strip, Text.rstrip.
  by rewrite lstrip_lower, rev_lower, lstrip_lower, rev_lower.
Qed.

(** A character that lowering leaves alone and yields from nothing else. *)
Lemma glyph_byte_rigid c :
  c ∈ Text.chars "°" ++ Text.chars "µ" →
  ∀ c', Text.to_lower c' = c ↔ c' = c.
Proof.
  intros Hc c'. simpl in Hc.
  repeat (apply elem_of_cons in Hc as [->|Hc]);
    [..|by apply elem_of_nil in Hc];
    destruct c' as [[] [] [] [] [] [] [] []]; by vm_compute.
Qed.

Lemma fmap_to_lower_rigid (l o : list ascii) :
  (∀ c, c ∈ o → ∀ c', Text.to_lower c' = c ↔ c' = c) →
  Text.to_lower <$> l = o ↔ l = o.
Proof.
  revert o. induction l as [|c l IH]; intros [|d o] Ho; try done.
  rewrite fmap_cons. split.
  - intros [= Hc Hl]. apply (Ho d) in Hc as ->; [|apply list_elem_of_here].
    f_equal. apply (IH o); [|done]. intros x Hx. by apply Ho, list_elem_of_further.
  - intros [= -> ->]. f_equal.
    + by apply (Ho d); [apply list_elem_of_here|].
    + apply (IH o); [|done]. intros x Hx. by apply Ho, list_elem_of_further.
Qed.

Lemma startswith_lower s old :
  (∀ c, c ∈ Text.chars old → ∀ c', Text.to_lower c' = c ↔ c' = c) →
  Text.startswith (Text.lower s) old = Text.startswith s old.
Proof.
  intros Ho. unfold Text.startswith. apply bool_decide_ext.
  rewrite chars_lower, <- fmap_take. by apply fmap_to_lower_rigid.
Qed.

Lemma replace_from_lower fuel old new s :
  (∀ c, c ∈ Text.chars old → ∀ c', Text.to_lower c' = c ↔ c' = c) →
  Text.lower new = new →
  Text.replace_from fuel old new (Text.lower s)
  = Text.lower (Text.replace_from fuel old new s).
Proof.
  intros Ho Hn. revert s. induction fuel as [|fuel IH]; intros s; [done|].
  destruct s as [|c s]; [done|].
  change (Text.lower (String c s)) with (String (Text.to_lower c) (Text.lower s)).
  cbn [Text.replace_from].
  change (String (Text.to_lower c) (Text.lower s)) with (Text.lower (String c s)).
  rewrite startswith_lower by done.
  destruct (Text.startswith (String c s) old).
  - rewrite lower_append, Hn. f_equal.
    rewrite chars_lower, <- fmap_drop, <- lower_of_chars. apply IH.
  - change (Text.lower (String c s)) with (String (Text.to_lower c) (Text.lower s)).
    simpl. f_equal. apply IH.
Qed.

Lemma replace_lower old new s :
  (∀ c, c ∈ Text.chars old → ∀ c', Text.to_lower c' = c ↔ c' = c) →
  Text.lower new = new →
  Text.replace old new (Text.lower s) = Text.lower (Text.replace old new s).
Proof.
  intros Ho Hn. unfold Text.replace. rewrite length_lower.
  by apply replace_from_lower.
Qed.

Lemma normalize_unit_lower_strip s :
  normalize_unit (Str s)
  = Text.replace "µ" "u" (Text.replace "°" "deg" (Text.lower (Text.strip s))).
Proof.
  unfold normalize_unit. cbn [py_str].
  rewrite !replace_lower; try done;
    intros c Hc; apply glyph_byte_rigid, elem_of_app; first [by left|by right].
Qed.

Lemma in_tables_unknown u :
  u ∉ ["degc"; "c"] → u ∉ ["degf"; "f"] → u ∉ ["k"; "degk"] → u ∉ ["%"; "pct"] →
  length_units !! u = None → mass_units !! u = None → time_units !! u = None →
  pressure_units !! u = None → force_units !! u = None → energy_units !! u = None →
  in_tables u = false.
Proof.
  intros H1 H2 H3 H4 E1 E2 E3 E4 E5 E6. unfold in_tables.
  rewrite E1, E2, E3, E4, E5, E6.
  rewrite bool_decide_false; [done|].
  unfold known_tokens. rewrite !elem_of_cons, elem_of_nil in *. tauto.
Qed.

(** The pair that [_convert_one] returns for a unit it knows depends on the
    unit through its normalized token only. *)
Lemma convert_one_known value v unit unit' :
  isna value = false → py_float value = Some v →
  isna unit = false → isna unit' = false →
  normalize_unit unit' = normalize_unit unit →
  in_tables (normalize_unit unit) = true →
  _convert_one value unit' = _convert_one value unit.
Proof.
  intros Hv Hf Hu Hu' He Hk. unfold _convert_one.
  rewrite Hv, Hu, Hu', Hf, He. cbn [orb].
  remember (normalize_unit unit) as u eqn:E. clear E He.
  repeat case_bool_decide; try done.
  destruct (length_units !! u) eqn:E1; [done|].
  destruct (mass_units !! u) eqn:E2; [done|].
  destruct (time_units !! u) eqn:E3; [done|].
  destruct (pressure_units !! u) eqn:E4; [done|].
  destruct (force_units !! u) eqn:E5; [done|].
  destruct (energy_units !! u) eqn:E6; [done|].
  by rewrite in_tables_unknown in Hk.
Qed.

(** X20.  Unit tokens are read without regard to letter case and to blanks
    around them: two unit texts that are the same once stripped and
    lowered have the same normalized token, and the converter returns the
    same pair for them when the token is one it knows. *)
Theorem unit_tokens_ignore_case_and_blanks s1 s2 :
  Text.lower (Text.strip s1) = Text.lower (Text.strip s2) →
  normalize_unit (Str s1) = normalize_unit (Str s2) ∧
  ∀ value v,
    isna value = false → py_float value = Some v →
    in_tables (normalize_unit (Str s1)) = true →
    _convert_one value (Str s1) = _convert_one value (Str s2).
Proof.
  intros H.
  assert (normalize_unit (Str s1) = normalize_unit (Str s2)) as He.
  { by rewrite !normalize_unit_lower_strip, H. }
  split; [done|]. intros value v Hv Hf Hk.
  apply (convert_one_known value v); try done. by rewrite <- He.
Qed.

Lemma unit_tokens_ignore_case_and_blanks_witness :
  _convert_one (Num 2) (Str "mPa") = (Num 2000000, Str "Pa") ∧
  _convert_one (Num 2) (Str " MPA ") = (Num 2000000, Str "Pa").
Proof.
  destruct (unit_tokens_ignore_case_and_blanks " MPA " "mPa" eq_refl) as [_ H].
  split; [reflexivity|].
  rewrite (H (Num 2) 2%float eq_refl eq_refl eq_refl). reflexivity.
Defined.

(** ** convert_units_to_SI: converting twice *)

Lemma write_same idx v s : values s !! idx = Some v → write idx v s = s.
Proof.
  destruct s as [cells|numbers]; simpl; intros H.
  - by rewrite list_insert_id.
  - rewrite list_lookup_fmap in H.
    destruct (numbers !! idx) as [f|] eqn:E; [|done]. injection H as <-.
    by rewrite list_insert_id.
Qed.

Lemma foldl_write_same {A} (idx : A → nat) (h : A → cell) (rows : list A) s :
  (∀ row, row ∈ rows → values s !! idx row = Some (h row)) →
  foldl (λ s row, write (idx row) (h row) s) s rows = s.
Proof.
  induction rows as [|row rows IH]; intros H; [done|]. simpl.
  rewrite write_same by apply H, list_elem_of_here.
  apply IH. intros r Hr. by apply H, list_elem_of_further.
Qed.

Lemma elem_of_iterrows vals units i v u :
  (i, (v, u)) ∈ iterrows vals units →
  values vals !! i = Some v ∧ values units !! i = Some u.
Proof.
  unfold iterrows. intros H. apply list_elem_of_lookup_1 in H as [j Hj].
  rewrite list_lookup_imap in Hj.
  destruct (zip (values vals) (values units) !! j) as [[v' u']|] eqn:E; [|done].
  injection Hj as <- <- <-. by apply lookup_zip_with_Some in E as (? & ? & [= <- <-] & ? & ?).
Qed.

Lemma to_numeric_coerce_twice s :
  to_numeric (to_numeric s coerce) coerce = to_numeric s coerce.
Proof. by destruct s. Qed.

(** The two columns of a converted pair are a pair that the converter
    leaves as it is. *)
Lemma convert_pair_twice vals units :
  convert_pair (convert_pair vals units).1 (convert_pair vals units).2
  = convert_pair vals units.
Proof.
  set (vals1 := (convert_pair vals units).1).
  set (units1 := (convert_pair vals units).2).
  assert (∀ i v1 u1, (i, (v1, u1)) ∈ iterrows vals1 units1 →
            _convert_one v1 u1 = (v1, u1) ∧
            values vals1 !! i = Some v1 ∧ values units1 !! i = Some u1) as Hrows.
  { intros i v1 u1 Hin. apply elem_of_iterrows in Hin as [Hv1 Hu1].
    split; [|done].
    destruct (length_convert_pair vals units) as [Hlv Hlu].
    fold vals1 in Hlv. fold units1 in Hlu.
    destruct (lookup_lt_is_Some_2 (values vals) i) as [a Ha].
    { rewrite <- Hlv. by apply lookup_lt_Some in Hv1. }
    destruct (lookup_lt_is_Some_2 (values units) i) as [b Hb].
    { rewrite <- Hlu. by apply lookup_lt_Some in Hu1. }
    unfold vals1 in Hv1. unfold units1 in Hu1.
    rewrite (convert_pair_value vals units i a b Ha Hb) in Hv1.
    rewrite (convert_pair_unit vals units i a b Ha Hb) in Hu1.
    injection Hv1 as <-. injection Hu1 as <-. apply convert_one_coerced. }
  apply injective_projections; fold vals1 units1.
  - unfold convert_pair at 1. cbn [fst]. rewrite foldl_write_same.
    + unfold vals1, convert_pair. cbn [fst]. apply to_numeric_coerce_twice.
    + intros [i [v1 u1]] Hin. cbn [fst snd].
      destruct (Hrows i v1 u1 Hin) as (-> & Hv1 & _). done.
  - unfold convert_pair at 1. cbn [snd].
    apply foldl_write_same. intros [i [v1 u1]] Hin. cbn [fst snd].
    destruct (Hrows i v1 u1 Hin) as (-> & _ & Hu1). done.
Qed.

Lemma is_value_col_relabel g df col :
  is_value_col (relabel g df) col = is_value_col df col.
Proof. unfold is_value_col. by rewrite columns_relabel. Qed.

Lemma touched_relabel g df seen n :
  touched (relabel g df) seen n = touched df seen n.
Proof.
  unfold touched. induction seen as [|c seen IH]; [done|]. simpl.
  by rewrite is_value_col_relabel, IH.
Qed.

Lemma touched_true df seen n :
  touched df seen n = true →
  ∃ c, c ∈ seen ∧ is_value_col df c = true ∧ (n = c ∨ n = unit_col_of c).
Proof.
  unfold touched. intros (c & Hc & H)%existsb_exists.
  apply andb_prop in H as [Hv H]. apply bool_decide_eq_true in H.
  exists c. by rewrite list_elem_of_In.
Qed.

Lemma converted_twice df n s :
  NoDup (columns df) → (n, s) ∈ df →
  converted (relabel (converted df) df) n (converted df n s) = converted df n s.
Proof.
  intros Hnd Hin. set (out := relabel (converted df) df).
  assert (n ∈ columns df) as Hn.
  { apply list_elem_of_fmap. by exists (n, s). }
  destruct (touched df (columns df) n) eqn:Ht.
  2:{ rewrite (converted_other df n s Hn Ht). apply converted_other.
      - unfold out. by rewrite columns_relabel.
      - unfold out. by rewrite columns_relabel, touched_relabel. }
  apply touched_true in Ht as (c & Hc & Hv & Hcase).
  pose proof (is_value_col_unit df c Hv) as Hu.
  apply list_elem_of_fmap in Hc as ([c' vals] & -> & Hvals).
  apply list_elem_of_fmap in Hu as ([u' units] & Hu' & Hunits).
  simpl in *. subst u'.
  pose proof (getitem_elem_of df c' vals Hnd Hvals) as Gv.
  pose proof (getitem_elem_of df _ units Hnd Hunits) as Gu.
  assert (c' ∈ columns df) as Hc'.
  { apply list_elem_of_fmap. by exists (c', vals). }
  assert (getitem out c' = Some (convert_pair vals units).1) as Gv'.
  { unfold out. rewrite getitem_relabel, Gv. simpl.
    by rewrite (converted_value df c' vals units). }
  assert (getitem out (unit_col_of c') = Some (convert_pair vals units).2) as Gu'.
  { unfold out. rewrite getitem_relabel, Gu. simpl.
    by rewrite (converted_unit df c' vals units). }
  assert (is_value_col out c' = true) as Hv'.
  { unfold out. by rewrite is_value_col_relabel. }
  destruct Hcase as [-> | ->].
  - rewrite (column_unique df c' s vals Hnd Hin Hvals).
    rewrite (converted_value df c' vals units Hv Gu).
    rewrite (converted_value out c' _ _ Hv' Gu').
    by rewrite convert_pair_twice.
  - rewrite (column_unique df _ s units Hnd Hin Hunits).
    rewrite (converted_unit df c' vals units Hc' Hv Gv).
    rewrite (converted_unit out c' (convert_pair vals units).1).
    + by rewrite convert_pair_twice.
    + unfold out. by rewrite columns_relabel.
    + done.
    + done.
Qed.

(** X21.  The converter is idempotent: on a table whose labels are not
    repeated, the table it returns is a table it returns as it is. *)
Theorem converter_is_idempotent df :
  NoDup (columns df) →
  ∃ out,
    convert_units_to_SI df = Some out ∧ convert_units_to_SI out = Some out.
Proof.
  intros Hnd. exists (relabel (converted df) df).
  split; [by apply convert_units_to_SI_converted|].
  rewrite convert_units_to_SI_converted by (by rewrite columns_relabel).
  f_equal. rewrite relabel_relabel. apply relabel_ext.
  intros n s Hin. by apply converted_twice.
Qed.

Lemma converter_is_idempotent_witness :
  convert_units_to_SI
    [("id", Object [Str "a"; Str "b"]);
     ("len_value", Float64 [0.0125; 3000]%float); ("len_unit", Object [Str "m"; Str "m"]);
     ("temp_value", Float64 [273.15; 273.15]%float); ("temp_unit", Object [Str "K"; Str "K"]);
     ("count", Float64 [1; 2]%float)]
  = Some
    [("id", Object [Str "a"; Str "b"]);
     ("len_value", Float64 [0.0125; 3000]%float); ("len_unit", Object [Str "m"; Str "m"]);
     ("temp_value", Float64 [273.15; 273.15]%float); ("temp_unit", Object [Str "K"; Str "K"]);
     ("count", Float64 [1; 2]%float)].
Proof.
  destruct (converter_is_idempotent measurements) as (out & H1 & H2);
    [compute_done|].
  assert (Some out = Some
    [("id", Object [Str "a"; Str "b"]);
     ("len_value", Float64 [0.0125; 3000]%float); ("len_unit", Object [Str "m"; Str "m"]);
     ("temp_value", Float64 [273.15; 273.15]%float); ("temp_unit", Object [Str "K"; Str "K"]);
     ("count", Float64 [1; 2]%float)]) as [= <-]; [|done].
  rewrite <- H1. reflexivity.
Defined.

(** ** extract_numeric_and_unit, then convert_units_to_SI *)






(** ** The number of rows *)

Lemma for_each_invariant {A S} (P : S → Prop) (body : S → A → option S) xs s s' :
  (∀ s x s', body s x = Some s' → P s → P s') →
  for_each xs body s = Some s' → P s → P s'.
Proof.
  intros Hbody. revert s. induction xs as [|x xs IH]; intros s Hrun Hs.
  { by injection Hrun as <-. }
  cbn [for_each] in Hrun. destruct (body s x) as [s1|] eqn:E; [|done].
  apply (IH s1 Hrun). by apply (Hbody s x).
Qed.

Lemma has_rows_update k f col d :
  has_rows k d →
  (∀ s, length (values s) = k → length (values (f s)) = k) →
  has_rows k (update f col d).
Proof.
  intros Hd Hf n s Hin. unfold update in Hin.
  apply list_elem_of_fmap in Hin as ([n' s'] & [= -> ->] & Hin). simpl.
  pose proof (Hd n' s' Hin). case_bool_decide; [by apply Hf|done].
Qed.

Lemma has_rows_setitem k d col s :
  has_rows k d → length (values s) = k → has_rows k (setitem d col s).
Proof.
  intros Hd Hs. unfold setitem. case_bool_decide.
  - by apply has_rows_update.
  - intros n s' [Hin|Hin]%elem_of_app; [by apply (Hd n)|].
    by apply list_elem_of_singleton in Hin as [= -> ->].
Qed.

Lemma has_rows_getitem k d col s :
  has_rows k d → getitem d col = Some s → length (values s) = k.
Proof. intros Hd H. apply (Hd col). by apply getitem_Some_elem_of. Qed.

Lemma length_strip_series s : length (values (strip_series s)) = length (values s).
Proof. destruct s; simpl; by rewrite ?length_fmap. Qed.

Lemma length_tag_series s : length (values (tag_series s)) = length (values s).
Proof. destruct s; simpl; by rewrite ?length_fmap. Qed.

Lemma length_fix_series s s' :
  fix_series s = Some s' → length (values s') = length (values s).
Proof.
  destruct s as [cells|numbers]; [|by intros [= <-]].
  rewrite fix_series_Object. destruct (str_accepts (Object cells)); [|done].
  intros [= <-]. simpl.
  destruct (mapM numeric_of (repaired <$> cells)) as [numbers|] eqn:E; simpl.
  - apply length_mapM in E. by rewrite !length_fmap in *.
  - by rewrite length_fmap.
Qed.

Lemma length_value_unit_column s :
  length (values (value_column s)) = length (values s) ∧
  length (values (unit_column s)) = length (values s).
Proof. unfold value_column, unit_column. simpl. by rewrite !length_fmap. Qed.

Lemma has_rows_strip_column k d col d' :
  strip_column d col = Some d' → has_rows k d → has_rows k d'.
Proof.
  intros H Hd. destruct (strip_column_Some d col d' H) as [[s Hs] _].
  rewrite (strip_column_series d col s Hs) in H. injection H as <-.
  apply has_rows_update; [done|]. intros _ _.
  rewrite length_strip_series. by apply (has_rows_getitem k d col).
Qed.

Lemma has_rows_fix_column k d col d' :
  fix_column d col = Some d' → has_rows k d → has_rows k d'.
Proof.
  intros H Hd. destruct (fix_column_Some d col d' H) as [[s Hs] _].
  rewrite (fix_column_series d col s Hs) in H.
  destruct (fix_series s) as [s'|] eqn:E; [|done]. injection H as <-.
  apply has_rows_update; [done|]. intros _ _.
  rewrite (length_fix_series s s' E). by apply (has_rows_getitem k d col).
Qed.

Lemma has_rows_extract_column k (st : DataFrame * list string) col st' :
  extract_column st col = Some st' → has_rows k st.1 → has_rows k st'.1.
Proof.
  destruct st as [d order], st' as [d' order']. cbn [fst].
  intros H Hd. destruct (extract_column_keeps d order col d' order' H) as [[s Hs] _].
  rewrite (extract_column_spec d order col s Hs) in H.
  pose proof (has_rows_getitem k d col s Hd Hs) as Hk.
  destruct (length_value_unit_column s) as [Hv Hu].
  destruct (promoted s); injection H as <- <-; [|done].
  apply has_rows_setitem; [apply has_rows_setitem|]; first [done|congruence].
Qed.

Lemma has_rows_convert_row k col unit_col d row :
  has_rows k d → has_rows k (convert_row col unit_col d row).
Proof.
  intros Hd. destruct row as [idx [val unit]]. unfold convert_row.
  destruct (_convert_one val unit) as [new_val new_unit]. unfold at_set.
  apply has_rows_update; [apply has_rows_update; [done|]|];
    intros s Hs; by rewrite values_write, length_insert.
Qed.

Lemma has_rows_convert_rows k col unit_col rows d :
  has_rows k d → has_rows k (foldl (convert_row col unit_col) d rows).
Proof.
  revert d. induction rows as [|row rows IH]; intros d Hd; [done|].
  simpl. by apply IH, has_rows_convert_row.
Qed.

Lemma has_rows_convert_column k d col d' :
  convert_column d col = Some d' → has_rows k d → has_rows k d'.
Proof.
  unfold convert_column. intros H Hd.
  destruct (Text.endswith col "_value"); [|by injection H as <-].
  case_bool_decide; [|by injection H as <-].
  destruct (getitem d col) as [vals|]; [|done].
  destruct (getitem d _) as [units|]; [|done]. cbn [mbind option_bind] in H.
  set (d1 := foldl _ d _) in H.
  assert (has_rows k d1) as Hd1 by (by apply has_rows_convert_rows).
  destruct (getitem d1 col) as [s|] eqn:Es; [|done]. injection H as <-.
  apply has_rows_setitem; [done|].
  rewrite values_to_numeric_coerce, length_fmap.
  by apply (has_rows_getitem k d1 col).
Qed.

(** X23.  No stage but the first adds or drops a row: when every column of
    a table has [k] cells, every column of the table that the stripper,
    the tagger, the repairer, the extractor or the converter returns has
    [k] cells. *)
Theorem stages_keep_the_rows k df :
  has_rows k df →
  (∀ out, strip_whitespace df = Some out → has_rows k out) ∧
  has_rows k (normalize_missing_values df) ∧
  (∀ out, fix_decimal_commas df = Some out → has_rows k out) ∧
  (∀ out, extract_numeric_and_unit df = Some out → has_rows k out) ∧
  (∀ out, convert_units_to_SI df = Some out → has_rows k out).
Proof.
  intros Hdf. repeat split.
  - intros out H. unfold strip_whitespace in H.
    apply (for_each_invariant (has_rows k) strip_column _ _ _
             (has_rows_strip_column k) H).
    rewrite set_columns_strip. intros n s Hin.
    apply list_elem_of_fmap in Hin as ([n' s'] & [= -> ->] & Hin). by apply (Hdf n').
  - rewrite normalize_missing_values_tagged. intros n s Hin.
    apply list_elem_of_fmap in Hin as ([n' s'] & [= -> ->] & Hin). simpl.
    rewrite length_tag_series. by apply (Hdf n').
  - intros out H.
    by apply (for_each_invariant (has_rows k) fix_column _ _ _
                (has_rows_fix_column k) H).
  - intros out H. unfold extract_numeric_and_unit in H.
    destruct (for_each (columns df) extract_column (df, [])) as [[d order]|] eqn:E;
      [|done].
    assert (has_rows k d) as Hd.
    { by apply (for_each_invariant (λ st, has_rows k st.1) extract_column _ _ _
                  (has_rows_extract_column k) E). }
    simpl in H. unfold select in H. apply mapM_Some in H.
    intros n s Hin. apply list_elem_of_lookup_1 in Hin as [i Hi].
    destruct (Forall2_lookup_r _ _ _ i (n, s) H Hi) as (col & _ & Hcol).
    destruct (getitem d col) as [s'|] eqn:Es; [|done]. injection Hcol as -> ->.
    by apply (has_rows_getitem k d n).
  - intros out H.
    by apply (for_each_invariant (has_rows k) convert_column _ _ _
                (has_rows_convert_column k) H).
Qed.

Lemma stages_keep_the_rows_witness :
  has_rows 3 [("len_value", Float64 [12.5; PrimFloat.nan; 3.5]%float);
              ("len_unit", Object [Str "mm"; NaN; Str "cm"]);
              ("n", Float64 [1; 2; 3]%float);
              ("site", Object [Str "north"; Str "south"; Str "east"])].
Proof.
  assert (has_rows 3 lengths) as H.
  { intros n s Hin. unfold lengths in Hin.
    repeat (apply elem_of_cons in Hin as [[= -> ->]|Hin]; [done|]).
    by apply elem_of_nil in Hin. }
  destruct (stages_keep_the_rows 3 lengths H) as (_ & _ & _ & He & _).
  apply He. reflexivity.
Defined.
